(** * NagaraTrack-Lite: route geometry derivation and the CSV-backed store

    A shallow embedding of the core of [backend/main.py]: the tolerant list
    parser, the stop/route mapping resolver, the nearest-neighbour ordering,
    the geometry deriver, the stop import pipeline, header computation on
    rewrites, and the lock discipline of [_write_csv].

    Python values are an inductive type; dictionaries whose order matters
    (CSV rows, the [keep] table of an import) are association lists,
    dictionaries of sets are [gmap string (gset string)].  Operations of the
    Python standard library that the code calls but does not define
    ([json.loads], [ast.literal_eval], [str] on non-strings, [float],
    number formatting, float arithmetic, the iteration order of a [set])
    are the fields of the class [PyRuntime]; a function that raises returns
    [None].  The reference instance [Ref.runtime] over [Q] is used for the
    concrete examples. *)

From Stdlib Require Import ZArith QArith Ascii String List Permutation Sorted Lia.
From stdpp Require Import base option list sorting gmap strings pretty.

Set Warnings "-register-all".
Local Open Scope Z_scope.
Local Open Scope stdpp_scope.

(** ** Python strings: the methods used by the code *)

(** [str.isspace] on the code points below 256. *)
Definition py_isspace (a : ascii) : bool :=
  let n := nat_of_ascii a in
  ((9 <=? n)%nat && (n <=? 13)%nat) || ((28 <=? n)%nat && (n <=? 32)%nat)
  || (n =? 133)%nat || (n =? 160)%nat.

Fixpoint char_in (a : ascii) (cs : string) : bool :=
  match cs with
  | EmptyString => false
  | String c cs' => if Ascii.eqb a c then true else char_in a cs'
  end.

Fixpoint lstrip_by (f : ascii -> bool) (s : string) : string :=
  match s with
  | EmptyString => EmptyString
  | String a s' => if f a then lstrip_by f s' else s
  end.

Fixpoint rstrip_by (f : ascii -> bool) (s : string) : string :=
  match s with
  | EmptyString => EmptyString
  | String a s' =>
      match rstrip_by f s' with
      | EmptyString => if f a then EmptyString else String a EmptyString
      | r => String a r
      end
  end.

Definition strip_by (f : ascii -> bool) (s : string) : string :=
  rstrip_by f (lstrip_by f s).

(** [s.strip()] *)
Definition strip (s : string) : string := strip_by py_isspace s.

(** [s.strip(chars)] *)
Definition strip_chars (cs : string) (s : string) : string :=
  strip_by (fun a => char_in a cs) s.

Definition nonempty (s : string) : bool :=
  match s with EmptyString => false | _ => true end.

(** [s.split(sep)] for a one-character separator. *)
Fixpoint split_on (c : ascii) (s : string) : list string :=
  match s with
  | EmptyString => [EmptyString]
  | String a s' =>
      if Ascii.eqb a c then EmptyString :: split_on c s'
      else match split_on c s' with
           | h :: t => String a h :: t
           | [] => [String a EmptyString]
           end
  end.

(** [s.startswith(("[", "("))] *)
Definition starts_bracket (s : string) : bool :=
  match s with
  | String a _ => Ascii.eqb a "["%char || Ascii.eqb a "("%char
  | EmptyString => false
  end.

(** [s.replace(c, " ")] for the six characters replaced in
    [_collect_route_stop_ids]. *)
Fixpoint replace_chars (cs : string) (by_ : ascii) (s : string) : string :=
  match s with
  | EmptyString => EmptyString
  | String a s' =>
      String (if char_in a cs then by_ else a) (replace_chars cs by_ s')
  end.

(** The character class [[A-Za-z0-9_]]. *)
Definition is_word_char (a : ascii) : bool :=
  let n := nat_of_ascii a in
  ((48 <=? n)%nat && (n <=? 57)%nat) || ((65 <=? n)%nat && (n <=? 90)%nat)
  || ((97 <=? n)%nat && (n <=? 122)%nat) || (n =? 95)%nat.

(** [re.split(r"[^A-Za-z0-9_]+", s)]: the pieces between maximal runs of
    separator characters; a leading or trailing run leaves an empty piece. *)
Fixpoint re_split_runs (sep : ascii -> bool) (in_run : bool) (s : string)
  : list string :=
  match s with
  | EmptyString => [EmptyString]
  | String a s' =>
      if sep a then
        if in_run then re_split_runs sep true s'
        else EmptyString :: re_split_runs sep true s'
      else match re_split_runs sep false s' with
           | h :: t => String a h :: t
           | [] => [String a EmptyString]
           end
  end.

Definition re_split_nonword (s : string) : list string :=
  re_split_runs (fun a => negb (is_word_char a)) false s.

Definition str_in (x : string) (l : list string) : bool :=
  existsb (String.eqb x) l.

(** ** Python values *)

Section Values.
Context {F : Type}.

Inductive pyval : Type :=
| PyNone
| PyBool (b : bool)
| PyInt (z : Z)
| PyFloat (f : F)
| PyStr (s : string)
| PyList (l : list pyval)
| PyTuple (l : list pyval)
| PyDict (kvs : list (string * pyval)).

(** A CSV row as read by [csv.DictReader], or a JSON object. *)
Definition row : Type := list (string * pyval).

(** [d.get(k)] *)
Fixpoint dict_get (d : row) (k : string) : pyval :=
  match d with
  | [] => PyNone
  | (k', v) :: d' => if String.eqb k k' then v else dict_get d' k
  end.

(** [d.get(k, dflt)] *)
Fixpoint dict_get_default (d : row) (k : string) (dflt : pyval) : pyval :=
  match d with
  | [] => dflt
  | (k', v) :: d' => if String.eqb k k' then v else dict_get_default d' k dflt
  end.

(** [d.keys()] *)
Definition dict_keys (d : row) : list string := map fst d.

(** [isinstance(v, (list, tuple))] with the elements. *)
Definition as_sequence (v : pyval) : option (list pyval) :=
  match v with
  | PyList l | PyTuple l => Some l
  | _ => None
  end.
End Values.

Arguments pyval : clear implicits.
Arguments row : clear implicits.

(** ** The Python runtime the code runs on *)

Class PyRuntime (F : Type) := {
  (** float comparison: [==], [<], [<=] *)
  f_eqb : F -> F -> bool;
  f_ltb : F -> F -> bool;
  f_leb : F -> F -> bool;
  (** float arithmetic: [+], [-], [x ** 2] *)
  f_add : F -> F -> F;
  f_sub : F -> F -> F;
  f_pow2 : F -> F;
  (** [float(n)] for an integer, also the float constants of the code *)
  f_of_Z : Z -> F;
  (** [bool(x)] for a float *)
  f_truthy : F -> bool;
  (** [float(s)] for a string; [None] is a raised [ValueError] *)
  float_of_str : string -> option F;
  (** the format [f"{x:.6f}"] *)
  fmt6 : F -> string;
  (** [json.loads(s)]; [None] is a raised exception *)
  json_loads : string -> option (pyval F);
  (** [ast.literal_eval(s)]; [None] is a raised exception *)
  literal_eval : string -> option (pyval F);
  (** [json.dumps(l)] for a list of strings *)
  json_dumps_strs : list string -> string;
  (** [str(v)] for a value that is not a string *)
  str_other : pyval F -> string;
  (** [list(s)] for the set built by adding the given elements in order *)
  set_order : list string -> list string
}.

Section Runtime.
Context {F : Type} {RT : PyRuntime F}.

(** [bool(v)] *)
Definition truthy (v : pyval F) : bool :=
  match v with
  | PyNone => false
  | PyBool b => b
  | PyInt z => negb (z =? 0)
  | PyFloat f => f_truthy f
  | PyStr s => nonempty s
  | PyList l | PyTuple l => match l with [] => false | _ => true end
  | PyDict kvs => match kvs with [] => false | _ => true end
  end.

(** [a or b] *)
Definition py_or (a b : pyval F) : pyval F := if truthy a then a else b.

(** [str(v)] *)
Definition py_str (v : pyval F) : string :=
  match v with
  | PyStr s => s
  | _ => str_other v
  end.

(** [float(v)]; [None] is a raised [ValueError] or [TypeError]. *)
Definition py_float (v : pyval F) : option F :=
  match v with
  | PyBool b => Some (f_of_Z (if b then 1 else 0))
  | PyInt z => Some (f_of_Z z)
  | PyFloat f => Some f
  | PyStr s => float_of_str s
  | _ => None
  end.

(** ** [_parse_list] *)

(** [[str(x).strip() for x in l if str(x).strip()]] *)
Definition stripped_nonempty (l : list (pyval F)) : list string :=
  filter (fun s => nonempty s = true) (map (fun x => strip (py_str x)) l).

(** The loop over the decoded JSON list: an element that is a string
    starting with a bracket is decoded once more and spliced in. *)
Definition flatten_nested (j : list (pyval F)) : list (pyval F) :=
  flat_map
    (fun x =>
       match x with
       | PyStr xs =>
           if starts_bracket (strip xs) then
             match literal_eval xs with
             | Some lit =>
                 match as_sequence lit with
                 | Some l => l
                 | None => [x]
                 end
             | None => [x]
             end
           else [x]
       | _ => [x]
       end) j.

(** The single and the double quote character, the argument of the second
    [strip] in the fallback. *)
Definition quote_chars : string :=
  String "'"%char (String "034"%char EmptyString).

(** The naive comma split at the end of [_parse_list]. *)
Definition comma_fallback (s : string) : list string :=
  let s2 := strip_chars "[]()" s in
  let parts := map (fun p => strip_chars quote_chars (strip p)) (split_on ","%char s2) in
  filter (fun p => nonempty p = true) parts.

Definition _parse_list (value : pyval F) : list string :=
  match value with
  | PyNone => []
  | PyList l => stripped_nonempty l
  | PyStr v =>
      let s := strip v in
      if nonempty s then
        match json_loads s with
        | Some (PyList j) => stripped_nonempty (flatten_nested j)
        | _ =>
            match literal_eval s with
            | Some (PyList l) | Some (PyTuple l) => stripped_nonempty l
            | _ => comma_fallback s
            end
        end
      else []
  | _ => []
  end.
End Runtime.

(** ** The stop/route mapping resolver *)

Section Resolver.
Context {F : Type} {RT : PyRuntime F}.

(** [m.setdefault(k, set()).add(v)] *)
Definition add_edge (m : gmap string (gset string)) (k v : string)
  : gmap string (gset string) :=
  <[k := {[v]} ∪ default ∅ (m !! k)]> m.

(** [m.get(k, set())] *)
Definition members (m : gmap string (gset string)) (k : string) : gset string :=
  default ∅ (m !! k).

(** The pair [(stop_to_routes, route_to_stops)]. *)
Definition mappings : Type :=
  (gmap string (gset string) * gmap string (gset string))%type.

Definition link (st : mappings) (sid rid : string) : mappings :=
  (add_edge st.1 sid rid, add_edge st.2 rid sid).

(** [str(r.get("stop_id") or r.get("id") or "").strip()] *)
Definition stop_id_of (r : row F) : string :=
  strip (py_str (py_or (py_or (dict_get r "stop_id") (dict_get r "id"))
                       (PyStr EmptyString))).

(** [str(r.get("route_id") or "").strip()] *)
Definition route_id_of (r : row F) : string :=
  strip (py_str (py_or (dict_get r "route_id") (PyStr EmptyString))).

(** The body of the loop over [BusStops.csv]. *)
Definition scan_stop_row (st : mappings) (r : row F) : mappings :=
  let sid := stop_id_of r in
  if nonempty sid then
    foldl (fun st rid =>
             let rid_s := strip rid in
             if nonempty rid_s then link st sid rid_s else st)
          st (_parse_list (py_or (dict_get r "routes") (PyStr "[]")))
  else st.

(** The body of the loop over [Routes.csv]. *)
Definition scan_route_row (st : mappings) (r : row F) : mappings :=
  let rid := route_id_of r in
  if nonempty rid then
    foldl (fun st sid =>
             let sid_s := strip sid in
             if nonempty sid_s then link st sid_s rid else st)
          st (_parse_list (py_or (dict_get r "stops") (PyStr "[]")))
  else st.

(** [_load_stop_route_mappings], with the rows of the two files as
    arguments. *)
Definition _load_stop_route_mappings (bs_rows rt_rows : list (row F)) : mappings :=
  foldl scan_route_row (foldl scan_stop_row (∅, ∅) bs_rows) rt_rows.

(** The six [replace] calls of the token scan. *)
Definition unbracket (s : string) : string :=
  replace_chars "'" " "%char
    (replace_chars (String "034"%char EmptyString) " "%char
       (replace_chars ")" " "%char
          (replace_chars "(" " "%char
             (replace_chars "]" " "%char
                (replace_chars "[" " "%char s))))).

(** The tokens of the raw [routes] field of a stop row. *)
Definition row_tokens (raw : pyval F) : list string :=
  match raw with
  | PyList l =>
      map (fun x => strip_chars quote_chars (py_str x))
          (filter (fun x => nonempty (strip (py_str x)) = true) l)
  | _ =>
      let sstr := py_str (py_or raw (PyStr EmptyString)) in
      filter (fun t => nonempty t = true) (re_split_nonword (unbracket sstr))
  end.

(** The stop ids found by scanning every stop row for the route id. *)
Definition scan_extra (rid : string) (stops_rows : list (row F)) : list string :=
  flat_map
    (fun srow =>
       let sid := stop_id_of srow in
       if nonempty sid then
         if nonempty rid && str_in rid (row_tokens (dict_get srow "routes"))
         then [sid] else []
       else [])
    stops_rows.

(** [sorted(list(s))] for a set of strings. *)
Definition sorted_ids (s : gset string) : list string :=
  merge_sort String.le (elements s).

Definition collected_set (rid : string) (route_row : row F)
    (stops_rows : list (row F)) (route_to_stops : gmap string (gset string))
  : gset string :=
  let base_list := _parse_list (py_or (dict_get route_row "stops") (PyStr "[]")) in
  let ids_set : gset string :=
    list_to_set (filter (fun s => nonempty s = true) (map strip base_list)) in
  let ids_set := ids_set ∪ members route_to_stops rid in
  ids_set ∪ list_to_set (scan_extra rid stops_rows).

Definition _collect_route_stop_ids (rid : string) (route_row : row F)
    (stops_rows : list (row F)) (route_to_stops : gmap string (gset string))
  : list string :=
  sorted_ids (collected_set rid route_row stops_rows route_to_stops).
End Resolver.

(** ** Nearest-neighbour ordering *)

Section NearestNeighbor.
Context {F : Type} {RT : PyRuntime F}.

(** [min(l, key=key)]: the first element whose key no later key is below. *)
Definition py_min_by {A K : Type} (ltb : K -> K -> bool) (key : A -> K)
    (l : list A) : option A :=
  match l with
  | [] => None
  | x :: xs =>
      Some (fold_left (fun best y => if ltb (key y) (key best) then y else best) xs x)
  end.

(** [<] on pairs of floats, as Python compares tuples. *)
Definition pair_ltb (a b : F * F) : bool :=
  if f_eqb a.1 b.1 then
    if f_eqb a.2 b.2 then false else f_ltb a.2 b.2
  else f_ltb a.1 b.1.

(** The inner function [d2]. *)
Definition d2 (a b : F * F) : F :=
  f_add (f_pow2 (f_sub a.1 b.1)) (f_pow2 (f_sub a.2 b.2)).

(** The sort key of the start point: [(points[i][1], points[i][0])]. *)
Definition lon_lat (p : F * F) : F * F := (p.2, p.1).

(** The candidates of one round: the unused indices with their distance to
    the last point. *)
Definition candidates (points : list (F * F)) (p0 : F * F) (used : list bool)
    (last : nat) : list (nat * F) :=
  map (fun i => (i, d2 (nth last points p0) (nth i points p0)))
      (filter (fun i => nth i used true = false) (seq 0 (length points))).

(** The [while] loop; one unit of fuel per round. *)
Fixpoint nn_loop (fuel : nat) (points : list (F * F)) (p0 : F * F)
    (used : list bool) (order : list nat) : list nat :=
  match fuel with
  | O => order
  | S fuel' =>
      if (length order <? length points)%nat then
        match py_min_by f_ltb snd (candidates points p0 used (List.last order O)) with
        | None => order
        | Some t => nn_loop fuel' points p0 (<[t.1 := true]> used) (order ++ [t.1])
        end
      else order
  end.

Definition _nearest_neighbor_order (points : list (F * F))
    (start_index : option Z) : list (F * F) :=
  match points with
  | [] => []
  | p0 :: _ =>
      let n := length points in
      let used := repeat false n in
      let by_key :=
        default O (py_min_by pair_ltb (fun i => lon_lat (nth i points p0)) (seq 0 n)) in
      let start :=
        match start_index with
        | None => by_key
        | Some z => if (0 <=? z) && (z <? Z.of_nat n) then Z.to_nat z else by_key
        end in
      let order := nn_loop n points p0 (<[start := true]> used) [start] in
      map (fun i => nth i points p0) order
  end.
End NearestNeighbor.

(** ** Geometry derivation: the body of [routes_geojson] *)

Section Geometry.
Context {F : Type} {RT : PyRuntime F}.

(** The [stop_id -> (lat, lon)] lookup built from [BusStops.csv]. *)
Definition add_stop_coord (m : gmap string (F * F)) (s : row F) : gmap string (F * F) :=
  let sid := stop_id_of s in
  match py_float (py_or (dict_get s "latitude") (dict_get s "stop_lat")) with
  | None => m
  | Some lat =>
      match py_float (py_or (dict_get s "longitude") (dict_get s "stop_lon")) with
      | None => m
      | Some lon => if nonempty sid then <[sid := (lat, lon)]> m else m
      end
  end.

Definition build_stop_lookup (stops_rows : list (row F)) : gmap string (F * F) :=
  foldl add_stop_coord ∅ stops_rows.

(** The coordinates of the ids that the lookup knows, in the order given. *)
Definition resolve (stop_lookup : gmap string (F * F)) (ids : list string)
  : list (F * F) :=
  omap (fun sid => stop_lookup !! sid) ids.

(** [[[lon, lat] for (lat, lon) in path]] *)
Definition flip_axes (path : list (F * F)) : list (F * F) :=
  map (fun p => (p.2, p.1)) path.

(** Iterating over a decoded value; [None] is the [TypeError] of a value
    that is not iterable. *)
Definition py_iter (v : pyval F) : option (list (pyval F)) :=
  match v with
  | PyList l | PyTuple l => Some l
  | PyDict kvs => Some (map (fun kv => PyStr kv.1) kvs)
  | PyStr s => Some (map (fun a => PyStr (String a EmptyString)) (list_ascii_of_string s))
  | _ => None
  end.

(** [isinstance(x, (int, float, str))] *)
Definition is_scalar (x : pyval F) : bool :=
  match x with
  | PyBool _ | PyInt _ | PyFloat _ | PyStr _ => true
  | _ => false
  end.

(** The filter and the body of the comprehension over the stored pairs:
    [None] for a filtered element, [Some None] when [float] raises. *)
Definition stored_pair (p : pyval F) : option (option (F * F)) :=
  match as_sequence p with
  | Some [a; b] =>
      if is_scalar a && is_scalar b then
        Some (match py_float b with
              | None => None
              | Some fb =>
                  match py_float a with
                  | None => None
                  | Some fa => Some (fb, fa)
                  end
              end)
      else None
  | _ => None
  end.

Fixpoint stored_line (ps : list (pyval F)) : option (list (F * F)) :=
  match ps with
  | [] => Some []
  | p :: ps' =>
      match stored_pair p with
      | None => stored_line ps'
      | Some None => None
      | Some (Some q) =>
          match stored_line ps' with
          | None => None
          | Some qs => Some (q :: qs)
          end
      end
  end.

(** Decoding the stored [coordinates] text into [pairs]. *)
Definition decode_pairs (coords_text : pyval F) : pyval F :=
  match coords_text with
  | PyStr s =>
      match json_loads s with
      | Some j => j
      | None =>
          match literal_eval s with
          | Some lit =>
              match as_sequence lit with
              | Some l => PyList l
              | None => PyList []
              end
          | None => PyList []
          end
      end
  | _ => PyList []
  end.

(** The fallback to the stored coordinates; [None] is an exception that
    the handler does not catch. *)
Definition stored_fallback (r : row F) : option (list (F * F)) :=
  let coords_text := dict_get r "coordinates" in
  if truthy coords_text then
    match py_iter (decode_pairs coords_text) with
    | None => None
    | Some ps => stored_line ps
    end
  else Some [].

(** The line of the two stop-based passes. *)
Definition stops_pass (stop_lookup : gmap string (F * F))
    (stops_list all_stop_ids : list string) : list (F * F) :=
  match stops_list with
  | [] => []
  | _ =>
      let ordered_pts := resolve stop_lookup stops_list in
      let derived_line :=
        if (2 <=? length ordered_pts)%nat
        then flip_axes (_nearest_neighbor_order ordered_pts None) else [] in
      if (length derived_line <? 2)%nat then
        let pts := resolve stop_lookup all_stop_ids in
        if (2 <=? length pts)%nat
        then flip_axes (_nearest_neighbor_order pts None) else derived_line
      else derived_line
  end.

(** The derived line of one route row; [None] is an uncaught exception. *)
Definition derive_line (r : row F) (stops_rows : list (row F))
    (route_to_stops : gmap string (gset string))
    (stop_lookup : gmap string (F * F)) : option (list (F * F)) :=
  let rid := route_id_of r in
  let all_stop_ids := _collect_route_stop_ids rid r stops_rows route_to_stops in
  let stops_list :=
    match _parse_list (py_or (dict_get r "stops") (PyStr "[]")) with
    | [] => all_stop_ids
    | l => l
    end in
  let derived_line := stops_pass stop_lookup stops_list all_stop_ids in
  let after_stored :=
    match derived_line with
    | [] => stored_fallback r
    | _ => Some derived_line
    end in
  match after_stored with
  | None => None
  | Some [] =>
      let ids := _collect_route_stop_ids rid r stops_rows route_to_stops in
      let pts := resolve stop_lookup ids in
      if (2 <=? length pts)%nat
      then Some (flip_axes (_nearest_neighbor_order pts None)) else Some []
  | Some l => Some l
  end.

Record feature : Type := {
  ft_route_id : pyval F;
  ft_route_name : pyval F;
  ft_color : pyval F;
  ft_coordinates : list (F * F)
}.

Definition route_name_of (r : row F) : pyval F :=
  py_or (py_or (py_or (py_or (dict_get r "route_name") (dict_get r "route_long_name"))
                      (dict_get r "route_short_name"))
               (dict_get r "name"))
        (PyStr ("Route " +:+ py_str (py_or (dict_get r "route_id") (PyStr EmptyString)))).

Definition route_feature (stops_rows : list (row F))
    (route_to_stops : gmap string (gset string))
    (stop_lookup : gmap string (F * F)) (r : row F) : option feature :=
  match derive_line r stops_rows route_to_stops stop_lookup with
  | None => None
  | Some line =>
      Some {| ft_route_id := dict_get r "route_id";
              ft_route_name := route_name_of r;
              ft_color := py_or (dict_get r "route_color") (PyStr "#2563eb");
              ft_coordinates := line |}
  end.

(** [routes_geojson], with the rows of [Routes.csv] and [BusStops.csv] as
    arguments; [None] is an uncaught exception. *)
Definition routes_geojson (rows stops_rows : list (row F)) : option (list feature) :=
  let route_to_stops := (_load_stop_route_mappings stops_rows rows).2 in
  let stop_lookup := build_stop_lookup stops_rows in
  mapM (route_feature stops_rows route_to_stops stop_lookup) rows.
End Geometry.

(** ** The record store: CSV files as tables *)

(** A CSV file: its header line and the cells of its rows. *)
Definition table : Type := (list string * list (list string))%type.

(** The files of the data directory, by path. *)
Definition store : Type := gmap string table.

Definition BUS_STOPS_FIELDS : list string :=
  ["stop_id"; "name"; "latitude"; "longitude"; "routes"; "accessibility"].

Definition stops_path : string := "BusStops.csv".

Inductive http_error : Type :=
| HTTPException (status_code : nat) (detail : string).

Section Store.
Context {F : Type} {RT : PyRuntime F}.

(** [d[k] = v] on an insertion-ordered dictionary. *)
Fixpoint dict_set {V : Type} (d : list (string * V)) (k : string) (v : V)
  : list (string * V) :=
  match d with
  | [] => [(k, v)]
  | (k', v') :: d' =>
      if String.eqb k k' then (k, v) :: d' else (k', v') :: dict_set d' k v
  end.

(** [d.get(k)] on a dictionary of rows. *)
Fixpoint dict_find {V : Type} (d : list (string * V)) (k : string) : option V :=
  match d with
  | [] => None
  | (k', v) :: d' => if String.eqb k k' then Some v else dict_find d' k
  end.

(** One row of [csv.DictReader]: the header zipped with the cells. *)
Definition read_row (header cells : list string) : row F :=
  foldl (fun d kc => dict_set d kc.1 (PyStr kc.2)) [] (zip header cells).

(** [_read_csv]: a missing file is the empty table. *)
Definition _read_csv (st : store) (path : string) : list (row F) :=
  match st !! path with
  | None => []
  | Some (header, body) => map (read_row header) body
  end.

(** What [csv.DictWriter] writes for a value. *)
Definition cell_text (v : pyval F) : string :=
  match v with
  | PyNone => EmptyString
  | _ => py_str v
  end.

(** [_write_csv]: the file is replaced by the header [fieldnames] and one
    line per row, [r.get(k, empty)] for every field. *)
Definition _write_csv (st : store) (path : string) (rows : list (row F))
    (fieldnames : list string) : store :=
  <[path := (fieldnames,
             map (fun r => map (fun k => cell_text (dict_get_default r k (PyStr EmptyString)))
                               fieldnames) rows)]> st.

(** [list({fn for r in rows for fn in r.keys()})] *)
Definition existing_fields (rows : list (row F)) : list string :=
  set_order (flat_map dict_keys rows).

(** The header computed by [add_stop]: the existing fields, then every
    canonical field that is not among them. *)
Definition merged_fieldnames (canonical : list string) (rows : list (row F))
  : list string :=
  match rows with
  | [] => canonical
  | _ =>
      foldl (fun acc fn => if str_in fn acc then acc else acc ++ [fn])
            (existing_fields rows) canonical
  end.

(** The header computed by the import handlers:
    [FIELDS if not existing else list({*FIELDS, *{k for r in existing ...}})] *)
Definition import_fieldnames (canonical : list string) (existing : list (row F))
  : list string :=
  match existing with
  | [] => canonical
  | _ => set_order (canonical ++ set_order (flat_map dict_keys existing))
  end.

(** *** Validation *)

Definition ascii_lower (a : ascii) : ascii :=
  let n := nat_of_ascii a in
  if ((65 <=? n)%nat && (n <=? 90)%nat)
     || ((192 <=? n)%nat && (n <=? 222)%nat && negb (n =? 215)%nat)
  then ascii_of_nat (n + 32) else a.

(** [s.lower()] *)
Fixpoint lower (s : string) : string :=
  match s with
  | EmptyString => EmptyString
  | String a s' => String (ascii_lower a) (lower s')
  end.

Definition is_id_char (a : ascii) : bool :=
  is_word_char a || Ascii.eqb a "-"%char.

(** [re.match(r'^[A-Za-z0-9_-]+$', s)]; the dollar also matches before one
    final newline. *)
Fixpoint id_regex_match (s : string) : bool :=
  match s with
  | EmptyString => false
  | String a s' =>
      is_id_char a &&
      match s' with
      | EmptyString => true
      | String b EmptyString => Ascii.eqb b "010"%char || is_id_char b
      | _ => id_regex_match s'
      end
  end.

Definition validate_stop_id (stop_id : pyval F) : http_error + string :=
  if negb (truthy stop_id) then inl (HTTPException 400 "stop_id is required.")
  else
    let stop_id_str := strip (py_str stop_id) in
    if negb (nonempty stop_id_str) then
      inl (HTTPException 400 "stop_id cannot be empty.")
    else if (50 <? String.length stop_id_str)%nat then
      inl (HTTPException 400 "stop_id too long. Maximum 50 characters.")
    else if negb (id_regex_match stop_id_str) then
      inl (HTTPException 400
             "stop_id can only contain letters, numbers, hyphens, and underscores.")
    else inr stop_id_str.

Definition validate_name (name : pyval F) (field_name : string)
  : http_error + string :=
  if negb (truthy name) then inl (HTTPException 400 (field_name +:+ " is required."))
  else
    let name_str := strip (py_str name) in
    if negb (nonempty name_str) then
      inl (HTTPException 400 (field_name +:+ " cannot be empty."))
    else if (200 <? String.length name_str)%nat then
      inl (HTTPException 400 (field_name +:+ " too long. Maximum 200 characters."))
    else inr name_str.

Definition validate_coordinates (lat lon : pyval F) : http_error + (F * F) :=
  match py_float lat, py_float lon with
  | Some lat_f, Some lon_f =>
      if negb (f_leb (f_of_Z (-90)) lat_f && f_leb lat_f (f_of_Z 90)) then
        inl (HTTPException 400 "Invalid latitude. Must be between -90 and 90.")
      else if negb (f_leb (f_of_Z (-180)) lon_f && f_leb lon_f (f_of_Z 180)) then
        inl (HTTPException 400 "Invalid longitude. Must be between -180 and 180.")
      else inr (lat_f, lon_f)
  | _, _ => inl (HTTPException 400 "Invalid coordinate format. Must be numeric.")
  end.

Definition _norm_bool (value : pyval F) (dflt : bool) : bool :=
  match value with
  | PyBool b => b
  | PyInt z => negb (z =? 0)
  | PyFloat f => f_truthy f
  | PyStr s => str_in (lower (strip s)) ["true"; "1"; "yes"; "y"]
  | _ => dflt
  end.

Definition is_none (v : pyval F) : bool :=
  match v with PyNone => true | _ => false end.

Definition bool_text (b : bool) : pyval F := PyStr (if b then "True" else "False").

(** *** [import_stops] *)

(** The outcome of one submitted item: the text of its validation error, or
    its id and the row stored under it. *)
Definition import_item (i : nat) (obj : pyval F) : string + (string * row F) :=
  let rowno := "Row " +:+ pretty (S i) in
  match obj with
  | PyDict o =>
      match validate_stop_id (py_or (dict_get o "stop_id") (dict_get o "id")) with
      | inl (HTTPException _ detail) => inl (rowno +:+ ": " +:+ detail)
      | inr sid =>
          match validate_name (py_or (dict_get o "name") (dict_get o "stop_name"))
                              "stop name" with
          | inl (HTTPException _ detail) => inl (rowno +:+ ": " +:+ detail)
          | inr name =>
              let lat_raw := py_or (py_or (dict_get o "latitude") (dict_get o "lat"))
                                   (dict_get o "stop_lat") in
              let lon_raw := py_or (py_or (dict_get o "longitude") (dict_get o "lon"))
                                   (dict_get o "stop_lon") in
              if is_none lat_raw || is_none lon_raw then
                inl (rowno +:+ " (stop_id: " +:+ sid +:+ "): Missing latitude or longitude")
              else
                match validate_coordinates lat_raw lon_raw with
                | inl (HTTPException _ detail) => inl (rowno +:+ ": " +:+ detail)
                | inr (lat, lon) =>
                    let routes_list :=
                      match dict_get o "routes" with
                      | PyStr s => _parse_list (PyStr s)
                      | PyList l => map py_str l
                      | _ => []
                      end in
                    let acc := _norm_bool (dict_get o "accessibility") true in
                    inr (sid,
                         [("stop_id", PyStr sid);
                          ("name", PyStr name);
                          ("latitude", PyStr (fmt6 lat));
                          ("longitude", PyStr (fmt6 lon));
                          ("routes", PyStr (json_dumps_strs routes_list));
                          ("accessibility", bool_text acc)])
                end
          end
      end
  | _ => inl (rowno +:+ ": Must be an object/dictionary")
  end.

(** The state of the loop over the submitted items. *)
Record import_state : Type := {
  keep : list (string * row F);
  validation_errors : list string;
  processed_count : nat
}.

Definition import_step (st : import_state) (i : nat) (obj : pyval F) : import_state :=
  match import_item i obj with
  | inl err =>
      {| keep := keep st;
         validation_errors := validation_errors st ++ [err];
         processed_count := processed_count st |}
  | inr (sid, r) =>
      {| keep := dict_set (keep st) sid r;
         validation_errors := validation_errors st;
         processed_count := S (processed_count st) |}
  end.

Fixpoint import_loop (st : import_state) (i : nat) (data : list (pyval F))
  : import_state :=
  match data with
  | [] => st
  | obj :: data' => import_loop (import_step st i obj) (S i) data'
  end.

(** [{str(r.get("stop_id")): r for r in existing if r.get("stop_id")}] *)
Definition initial_keep (existing : list (row F)) : list (string * row F) :=
  foldl (fun d r =>
           if truthy (dict_get r "stop_id")
           then dict_set d (py_str (dict_get r "stop_id")) r else d)
        [] existing.

(** [sep.join(l)] *)
Fixpoint join (sep : string) (l : list string) : string :=
  match l with
  | [] => EmptyString
  | [x] => x
  | x :: l' => x +:+ sep +:+ join sep l'
  end.

Record import_result : Type := {
  imported : nat;
  saved : nat;
  processed : nat;
  warnings : option (list string)
}.

(** [import_stops] from the point where [data] and [mode] are known: the
    response and the store afterwards.  The comparison with
    [len(data) * 0.5] is written on integers. *)
Definition import_stops (st : store) (data : list (pyval F)) (mode : string)
  : (http_error + import_result) * store :=
  if negb (str_in mode ["replace"; "append"]) then
    (inl (HTTPException 400 "Mode must be 'replace' or 'append'"), st)
  else
    let existing := if String.eqb mode "append" then _read_csv st stops_path else [] in
    let fin := import_loop {| keep := initial_keep existing;
                              validation_errors := [];
                              processed_count := O |} O data in
    let errs := validation_errors fin in
    if match errs with [] => false | _ => true end
       && (length data <? 2 * length errs)%nat then
      (inl (HTTPException 400
              ("Too many validation errors (" +:+ pretty (length errs) +:+ "): "
               +:+ join "; " (take 5 errs))), st)
    else
      let rows := map snd (keep fin) in
      let st' := _write_csv st stops_path rows (import_fieldnames BUS_STOPS_FIELDS existing) in
      (inr {| imported := length data;
              saved := length rows;
              processed := processed_count fin;
              warnings := match errs with [] => None | _ => Some (take 10 errs) end |},
       st').

(** *** Single-record create and delete *)

Record BusStopIn : Type := {
  in_stop_id : string;
  in_name : string;
  in_latitude : F;
  in_longitude : F;
  in_routes : option (list string);
  in_accessibility : option bool
}.

(** [add_stop]: the error, or the store after the write. *)
Definition add_stop (st : store) (stop : BusStopIn) : http_error + store :=
  let rows := _read_csv st stops_path in
  if existsb (fun r => String.eqb (py_str (dict_get r "stop_id")) (in_stop_id stop)) rows
  then inl (HTTPException 409 "stop_id already exists")
  else
    let new_row : row F :=
      [("stop_id", PyStr (in_stop_id stop));
       ("name", PyStr (in_name stop));
       ("latitude", PyStr (fmt6 (in_latitude stop)));
       ("longitude", PyStr (fmt6 (in_longitude stop)));
       ("routes", PyStr (json_dumps_strs (default [] (in_routes stop))));
       ("accessibility", bool_text (default true (in_accessibility stop)))] in
    let fieldnames := merged_fieldnames BUS_STOPS_FIELDS rows in
    inr (_write_csv st stops_path (rows ++ [new_row]) fieldnames).

(** [delete_stop] *)
Definition delete_stop (st : store) (stop_id : string) : http_error + store :=
  let rows := _read_csv st stops_path in
  match rows with
  | [] => inl (HTTPException 404 "No stops found")
  | _ =>
      let new_rows :=
        filter (fun r => String.eqb (py_str (dict_get r "stop_id")) stop_id = false) rows in
      if (length new_rows =? length rows)%nat then
        inl (HTTPException 404 "stop_id not found")
      else inr (_write_csv st stops_path new_rows (existing_fields rows))
  end.
End Store.

(** ** The lock discipline of [_write_csv]

    Several threads each run one call of [_write_csv]; a step of the system
    is a step of one of them.  The module-level [_csv_lock] is one lock for
    every path. *)

Module WriteLock.

(** One call: the target path and the lines to write, header first. *)
Record job : Type := { job_path : string; job_lines : list string }.

(** [path + ".tmp"] *)
Definition tmp_path (path : string) : string := path +:+ ".tmp".

(** Where a thread stands in [_write_csv]. *)
Inductive pc : Type :=
| Waiting                    (* before [with _csv_lock] *)
| Opening                    (* lock held, before [open(tmp_path, "w")] *)
| Writing (k : nat)          (* [k] lines written to the temporary file *)
| Replacing (attempt : nat)  (* before [os.replace], in the given attempt *)
| Releasing (ok : bool)      (* leaving the [with] block *)
| Done (ok : bool).

Definition max_retries : nat := 3.

Record state : Type := {
  lock : option nat;
  fs : gmap string (list string);
  pcs : gmap nat pc
}.

Definition in_critical (p : pc) : bool :=
  match p with
  | Opening | Writing _ | Replacing _ | Releasing _ => true
  | Waiting | Done _ => false
  end.

Section Steps.
Variable jobs : gmap nat job.

Definition set_pc (s : state) (t : nat) (p : pc) : gmap nat pc := <[t := p]> (pcs s).

(** One step of thread [t]. *)
Inductive step (t : nat) (s : state) : state -> Prop :=
| step_acquire j :
    jobs !! t = Some j -> pcs s !! t = Some Waiting -> lock s = None ->
    step t s {| lock := Some t; fs := fs s; pcs := set_pc s t Opening |}
| step_open j :
    jobs !! t = Some j -> pcs s !! t = Some Opening ->
    step t s {| lock := lock s;
                fs := <[tmp_path (job_path j) := []]> (fs s);
                pcs := set_pc s t (Writing 0) |}
| step_write j k line :
    jobs !! t = Some j -> pcs s !! t = Some (Writing k) ->
    job_lines j !! k = Some line ->
    step t s {| lock := lock s;
                fs := <[tmp_path (job_path j) :=
                          default [] (fs s !! tmp_path (job_path j)) ++ [line]]> (fs s);
                pcs := set_pc s t (Writing (S k)) |}
| step_close j k :
    jobs !! t = Some j -> pcs s !! t = Some (Writing k) ->
    k = length (job_lines j) ->
    step t s {| lock := lock s; fs := fs s; pcs := set_pc s t (Replacing 0) |}
| step_replace_ok j a content :
    jobs !! t = Some j -> pcs s !! t = Some (Replacing a) ->
    fs s !! tmp_path (job_path j) = Some content ->
    step t s {| lock := lock s;
                fs := <[job_path j := content]> (delete (tmp_path (job_path j)) (fs s));
                pcs := set_pc s t (Releasing true) |}
| step_replace_retry j a :
    jobs !! t = Some j -> pcs s !! t = Some (Replacing a) ->
    S a <> max_retries ->
    step t s {| lock := lock s; fs := fs s; pcs := set_pc s t (Replacing (S a)) |}
| step_replace_raise j a :
    jobs !! t = Some j -> pcs s !! t = Some (Replacing a) ->
    S a = max_retries ->
    step t s {| lock := lock s; fs := fs s; pcs := set_pc s t (Releasing false) |}
| step_release j ok :
    jobs !! t = Some j -> pcs s !! t = Some (Releasing ok) ->
    step t s {| lock := None; fs := fs s; pcs := set_pc s t (Done ok) |}.

(** The initial state over the files [fs0]: every thread is about to call
    [_write_csv]. *)
Definition initial (fs0 : gmap string (list string)) : state :=
  {| lock := None; fs := fs0; pcs := (fun _ => Waiting) <$> jobs |}.

Inductive reachable (fs0 : gmap string (list string)) : state -> Prop :=
| reach_init : reachable fs0 (initial fs0)
| reach_step s t s' : reachable fs0 s -> step t s s' -> reachable fs0 s'.

(** No target path is the temporary path of a call. *)
Definition targets_apart : Prop :=
  forall t1 t2 j1 j2, jobs !! t1 = Some j1 -> jobs !! t2 = Some j2 ->
    job_path j1 <> tmp_path (job_path j2).

(** The content of [path] is what it was at the start, or all the lines of a
    call that writes [path]. *)
Definition old_or_new (fs0 : gmap string (list string)) (s : state) (path : string) : Prop :=
  fs s !! path = fs0 !! path \/
  exists t j, jobs !! t = Some j /\ job_path j = path /\ fs s !! path = Some (job_lines j).
(** The lock is held by exactly the threads inside the [with] block. *)
Definition holder_inv (s : state) : Prop :=
  forall t p, pcs s !! t = Some p -> (in_critical p = true <-> lock s = Some t).

(** The temporary file of a thread that writes holds the lines written so
    far, and all of them once the file is closed. *)
Definition tmp_inv (s : state) : Prop :=
  forall t j, jobs !! t = Some j ->
    match pcs s !! t with
    | Some (Writing k) =>
        fs s !! tmp_path (job_path j) = Some (take k (job_lines j))
    | Some (Replacing _) =>
        fs s !! tmp_path (job_path j) = Some (job_lines j)
    | _ => True
    end.

(** Every path that is not a temporary path is old or new. *)
Definition target_inv (fs0 : gmap string (list string)) (s : state) : Prop :=
  forall path,
    (forall t j, jobs !! t = Some j -> path <> tmp_path (job_path j)) ->
    old_or_new fs0 s path.
End Steps.

(** Two writers, one for each of two tables. *)
Definition two_writers : gmap nat job :=
  {[ 1%nat := {| job_path := "BusStops.csv";
                 job_lines := ["stop_id,name"; "S1,Central"] |};
     2%nat := {| job_path := "Routes.csv";
                 job_lines := ["route_id,route_name"; "R1,Ring"] |} ]}.

(** The first writer holds the lock, the second has not yet asked for it. *)
Definition first_holds : state :=
  {| lock := Some 1%nat;
     fs := ∅;
     pcs := set_pc (initial two_writers ∅) 1%nat Opening |}.

End WriteLock.

(** ** A reference runtime over the rationals

    Floats are exact rationals.  The two decoders cover the literals that
    the stored data uses: numbers, quoted strings, [None]/[null] and the
    booleans, lists and tuples; on any other text they answer [None], as for
    text that Python rejects.  Python also accepts dictionaries, sets,
    string prefixes and escapes in literals, and the float texts [inf] and
    [nan]; the examples below stay clear of those. *)

Module Ref.

Definition dquote : ascii := "034"%char.
Definition backslash : ascii := "092"%char.

Definition is_digit (a : ascii) : bool :=
  let n := nat_of_ascii a in (48 <=? n)%nat && (n <=? 57)%nat.

Definition digit_val (a : ascii) : Z := Z.of_nat (nat_of_ascii a) - 48.

(** The longest prefix of digits, as a number with its length, and the rest. *)
Fixpoint span_digits (acc : Z) (len : nat) (s : string) : Z * nat * string :=
  match s with
  | String a s' =>
      if is_digit a then span_digits (10 * acc + digit_val a) (S len) s'
      else (acc, len, s)
  | EmptyString => (acc, len, s)
  end.

(** [m * 10^e] *)
Definition scale10 (m e : Z) : Q :=
  if 0 <=? e then inject_Z (m * 10 ^ e)
  else Qred (Qmake m (Z.to_pos (10 ^ (- e)))).

(** The exponent part [e+12], if there is one. *)
Definition span_exponent (s : string) : option (Z * string) :=
  match s with
  | String e s1 =>
      if Ascii.eqb e "e"%char || Ascii.eqb e "E"%char then
        let '(neg, s2) :=
          match s1 with
          | String sg s2 =>
              if Ascii.eqb sg "-"%char then (true, s2)
              else if Ascii.eqb sg "+"%char then (false, s2)
              else (false, s1)
          | EmptyString => (false, s1)
          end in
        let '(ev, elen, s3) := span_digits 0 O s2 in
        match elen with
        | O => None
        | _ => Some (if neg then - ev else ev, s3)
        end
      else None
  | EmptyString => None
  end.

(** A JSON number: an integer without fraction and exponent, a float
    otherwise. *)
Definition parse_number (s : string) : option (pyval Q * string) :=
  let '(neg, s1) :=
    match s with
    | String sg s1 => if Ascii.eqb sg "-"%char then (true, s1) else (false, s)
    | EmptyString => (false, s)
    end in
  let '(iv, ilen, s2) :=
    match s1 with
    | String "0"%char r => (0, 1%nat, r)
    | _ => span_digits 0 O s1
    end in
  match ilen with
  | O => None
  | _ =>
      let '(fv, flen, s3, has_frac) :=
        match s2 with
        | String "."%char r =>
            let '(v, l, r') := span_digits 0 O r in
            match l with
            | O => (0, O, s2, false)
            | _ => (v, l, r', true)
            end
        | _ => (0, O, s2, false)
        end in
      let '(ev, s4, has_exp) :=
        match span_exponent s3 with
        | Some (e, r) => (e, r, true)
        | None => (0, s3, false)
        end in
      let sgn := if neg then -1 else 1 in
      if has_frac || has_exp then
        let mant := iv * 10 ^ Z.of_nat flen + fv in
        Some (PyFloat (scale10 (sgn * mant) (ev - Z.of_nat flen)), s4)
      else Some (PyInt (sgn * iv), s4)
  end.

Definition hex_val (a : ascii) : option nat :=
  let n := nat_of_ascii a in
  if (48 <=? n)%nat && (n <=? 57)%nat then Some (n - 48)%nat
  else if (97 <=? n)%nat && (n <=? 102)%nat then Some (n - 87)%nat
  else if (65 <=? n)%nat && (n <=? 70)%nat then Some (n - 55)%nat
  else None.

(** The body of a JSON string, after the opening quote. *)
Fixpoint json_string_body (s : string) : option (string * string) :=
  match s with
  | EmptyString => None
  | String a r =>
      if Ascii.eqb a dquote then Some (EmptyString, r)
      else if Ascii.eqb a backslash then
        match r with
        | String c r1 =>
            let simple (x : ascii) :=
              match json_string_body r1 with
              | Some (t, rest) => Some (String x t, rest)
              | None => None
              end in
            if Ascii.eqb c dquote then simple dquote
            else if Ascii.eqb c backslash then simple backslash
            else if Ascii.eqb c "/"%char then simple "/"%char
            else if Ascii.eqb c "b"%char then simple "008"%char
            else if Ascii.eqb c "f"%char then simple "012"%char
            else if Ascii.eqb c "n"%char then simple "010"%char
            else if Ascii.eqb c "r"%char then simple "013"%char
            else if Ascii.eqb c "t"%char then simple "009"%char
            else if Ascii.eqb c "u"%char then
              match r1 with
              | String h1 (String h2 (String h3 (String h4 r2))) =>
                  match hex_val h1, hex_val h2, hex_val h3, hex_val h4 with
                  | Some 0%nat, Some 0%nat, Some x3, Some x4 =>
                      match json_string_body r2 with
                      | Some (t, rest) =>
                          Some (String (ascii_of_nat (16 * x3 + x4)) t, rest)
                      | None => None
                      end
                  | _, _, _, _ => None
                  end
              | _ => None
              end
            else None
        | EmptyString => None
        end
      else if (nat_of_ascii a <? 32)%nat then None
      else
        match json_string_body r with
        | Some (t, rest) => Some (String a t, rest)
        | None => None
        end
  end.

(** The body of a Python string literal without escapes, after the opening
    quote [q]. *)
Fixpoint py_string_body (q : ascii) (s : string) : option (string * string) :=
  match s with
  | EmptyString => None
  | String a r =>
      if Ascii.eqb a q then Some (EmptyString, r)
      else if Ascii.eqb a backslash || Ascii.eqb a "010"%char then None
      else
        match py_string_body q r with
        | Some (t, rest) => Some (String a t, rest)
        | None => None
        end
  end.

Inductive dialect : Type := Json | PyLit.

Definition is_blank (d : dialect) (a : ascii) : bool :=
  match d with
  | Json => Ascii.eqb a " "%char || Ascii.eqb a "009"%char
            || Ascii.eqb a "010"%char || Ascii.eqb a "013"%char
  | PyLit => Ascii.eqb a " "%char || Ascii.eqb a "009"%char
  end.

Definition skip_blank (d : dialect) (s : string) : string := lstrip_by (is_blank d) s.

(** [s] after the prefix [p], if [s] starts with it. *)
Fixpoint after_prefix (p s : string) : option string :=
  match p, s with
  | EmptyString, _ => Some s
  | String a p', String b s' => if Ascii.eqb a b then after_prefix p' s' else None
  | _, _ => None
  end.

Definition parse_keyword (d : dialect) (s : string) : option (pyval Q * string) :=
  let kw (w : string) (v : pyval Q) :=
    match after_prefix w s with Some r => Some (v, r) | None => None end in
  match d with
  | Json =>
      match kw "null" PyNone with
      | Some x => Some x
      | None => match kw "true" (PyBool true) with
                | Some x => Some x
                | None => kw "false" (PyBool false)
                end
      end
  | PyLit =>
      match kw "None" PyNone with
      | Some x => Some x
      | None => match kw "True" (PyBool true) with
                | Some x => Some x
                | None => kw "False" (PyBool false)
                end
      end
  end.

(** A value, and the items of a bracketed sequence up to [close]; the
    number of commas seen tells a parenthesised value from a tuple. *)
Fixpoint parse_value (d : dialect) (fuel : nat) (s : string) {struct fuel}
  : option (pyval Q * string) :=
  match fuel with
  | O => None
  | S fuel' =>
      match skip_blank d s with
      | EmptyString => None
      | String a r as s1 =>
          if Ascii.eqb a dquote then
            match d with
            | Json =>
                match json_string_body r with
                | Some (t, rest) => Some (PyStr t, rest)
                | None => None
                end
            | PyLit =>
                match py_string_body dquote r with
                | Some (t, rest) => Some (PyStr t, rest)
                | None => None
                end
            end
          else if Ascii.eqb a "'"%char then
            match d with
            | Json => None
            | PyLit =>
                match py_string_body "'"%char r with
                | Some (t, rest) => Some (PyStr t, rest)
                | None => None
                end
            end
          else if Ascii.eqb a "["%char then
            match parse_items d fuel' "]"%char [] O r with
            | Some (items, _, rest) => Some (PyList items, rest)
            | None => None
            end
          else if Ascii.eqb a "("%char then
            match d with
            | Json => None
            | PyLit =>
                match parse_items d fuel' ")"%char [] O r with
                | Some ([v], O, rest) => Some (v, rest)
                | Some (items, _, rest) => Some (PyTuple items, rest)
                | None => None
                end
            end
          else if is_digit a || Ascii.eqb a "-"%char then parse_number s1
          else parse_keyword d s1
      end
  end
with parse_items (d : dialect) (fuel : nat) (close : ascii)
    (acc : list (pyval Q)) (commas : nat) (s : string) {struct fuel}
  : option (list (pyval Q) * nat * string) :=
  match fuel with
  | O => None
  | S fuel' =>
      match skip_blank d s with
      | EmptyString => None
      | String a r as s1 =>
          if Ascii.eqb a close then
            match acc, d with
            | [], _ => Some ([], O, r)
            | _, PyLit => Some (acc, commas, r)
            | _, Json => None
            end
          else
            match parse_value d fuel' s1 with
            | None => None
            | Some (v, rest) =>
                match skip_blank d rest with
                | String b r' =>
                    if Ascii.eqb b ","%char then
                      parse_items d fuel' close (acc ++ [v]) (S commas) r'
                    else if Ascii.eqb b close then Some (acc ++ [v], commas, r')
                    else None
                | EmptyString => None
                end
            end
      end
  end.

(** The items of a tuple written without parentheses, after its first
    comma. *)
Fixpoint parse_top_items (fuel : nat) (acc : list (pyval Q)) (s : string)
  : option (list (pyval Q)) :=
  match fuel with
  | O => None
  | S fuel' =>
      match strip s with
      | EmptyString => Some acc
      | s1 =>
          match parse_value PyLit (S (2 * String.length s1)) s1 with
          | None => None
          | Some (v, rest) =>
              match strip rest with
              | EmptyString => Some (acc ++ [v])
              | String b r' =>
                  if Ascii.eqb b ","%char then parse_top_items fuel' (acc ++ [v]) r'
                  else None
              end
          end
      end
  end.

Definition loads (s : string) : option (pyval Q) :=
  match parse_value Json (S (2 * String.length s)) s with
  | Some (v, rest) =>
      match skip_blank Json rest with
      | EmptyString => Some v
      | _ => None
      end
  | None => None
  end.

Definition lit_eval (s : string) : option (pyval Q) :=
  let s0 := skip_blank PyLit s in
  match parse_value PyLit (S (2 * String.length s0)) s0 with
  | Some (v, rest) =>
      match strip rest with
      | EmptyString => Some v
      | String b r' =>
          if Ascii.eqb b ","%char then
            match parse_top_items (S (String.length r')) [v] r' with
            | Some items => Some (PyTuple items)
            | None => None
            end
          else None
      end
  | None => None
  end.

Definition hex_digit (n : nat) : ascii :=
  if (n <? 10)%nat then ascii_of_nat (48 + n) else ascii_of_nat (87 + n).

(** One character inside a JSON string written by [json.dumps]. *)
Definition json_escape (a : ascii) : string :=
  let n := nat_of_ascii a in
  if Ascii.eqb a dquote then String backslash (String dquote EmptyString)
  else if Ascii.eqb a backslash then String backslash (String backslash EmptyString)
  else if (n =? 10)%nat then String backslash "n"
  else if (n =? 13)%nat then String backslash "r"
  else if (n =? 9)%nat then String backslash "t"
  else if (n =? 8)%nat then String backslash "b"
  else if (n =? 12)%nat then String backslash "f"
  else if (n <? 32)%nat || (127 <? n)%nat then
    String backslash
      ("u00" +:+ String (hex_digit (n / 16)) (String (hex_digit (n mod 16)) EmptyString))
  else String a EmptyString.

Fixpoint json_quote_body (s : string) : string :=
  match s with
  | EmptyString => EmptyString
  | String a s' => json_escape a +:+ json_quote_body s'
  end.

Definition json_quote (s : string) : string :=
  String dquote (json_quote_body s +:+ String dquote EmptyString).

Definition dumps_strs (l : list string) : string :=
  "[" +:+ join ", " (map json_quote l) +:+ "]".

(** [digits] as a decimal of exactly [width] digits. *)
Fixpoint pad_digits (width : nat) (n : Z) : string :=
  match width with
  | O => EmptyString
  | S w => pad_digits w (n / 10) +:+ String (ascii_of_nat (48 + Z.to_nat (n mod 10))) EmptyString
  end.

(** The nearest integer, ties to even. *)
Definition round_half_even (q : Q) : Z :=
  let fl := (Qnum q * 2 / (Zpos (Qden q) * 2)) in
  let twice_rem := Qnum q * 2 - fl * (Zpos (Qden q) * 2) in
  match twice_rem ?= Zpos (Qden q) with
  | Lt => fl
  | Gt => fl + 1
  | Eq => if Z.even fl then fl else fl + 1
  end.

Definition fixed_point (digits : nat) (q : Q) : string :=
  let n := round_half_even (q * inject_Z (10 ^ Z.of_nat digits))%Q in
  let a := Z.abs n in
  (if n <? 0 then "-" else EmptyString)
  +:+ pretty (a / 10 ^ Z.of_nat digits) +:+ "."
  +:+ pad_digits digits (a mod 10 ^ Z.of_nat digits).

Definition format6 (q : Q) : string := fixed_point 6 q.

(** The least number of fraction digits, from one to [fuel], that write [q]
    exactly. *)
Fixpoint exact_digits (fuel k : nat) (q : Q) : nat :=
  match fuel with
  | O => k
  | S fuel' =>
      if (Z.pos (Qden (Qred (q * inject_Z (10 ^ Z.of_nat k))%Q)) =? 1) then k
      else exact_digits fuel' (S k) q
  end.

Definition float_repr (q : Q) : string := fixed_point (exact_digits 16 1 q) q.

(** [float(s)] for a decimal text. *)
Definition parse_float (s : string) : option Q :=
  let s0 := strip s in
  let '(neg, s1) :=
    match s0 with
    | String sg r =>
        if Ascii.eqb sg "-"%char then (true, r)
        else if Ascii.eqb sg "+"%char then (false, r)
        else (false, s0)
    | EmptyString => (false, s0)
    end in
  let '(iv, ilen, s2) := span_digits 0 O s1 in
  let '(fv, flen, s3) :=
    match s2 with
    | String "."%char r => span_digits 0 O r
    | _ => (0, O, s2)
    end in
  match (ilen + flen)%nat with
  | O => None
  | _ =>
      let '(ev, s4) :=
        match span_exponent s3 with
        | Some (e, r) => (e, r)
        | None => (0, s3)
        end in
      match s4 with
      | EmptyString =>
          let mant := iv * 10 ^ Z.of_nat flen + fv in
          Some (scale10 ((if neg then -1 else 1) * mant) (ev - Z.of_nat flen))
      | _ => None
      end
  end.

(** [repr] of a string: single quotes unless the text has one and no double
    quote. *)
Definition repr_char (q : ascii) (a : ascii) : string :=
  let n := nat_of_ascii a in
  if Ascii.eqb a q || Ascii.eqb a backslash then String backslash (String a EmptyString)
  else if (n =? 10)%nat then String backslash "n"
  else if (n =? 13)%nat then String backslash "r"
  else if (n =? 9)%nat then String backslash "t"
  else if (n <? 32)%nat || ((127 <=? n)%nat && (n <=? 160)%nat) || (n =? 173)%nat then
    String backslash
      ("x" +:+ String (hex_digit (n / 16)) (String (hex_digit (n mod 16)) EmptyString))
  else String a EmptyString.

Fixpoint repr_body (q : ascii) (s : string) : string :=
  match s with
  | EmptyString => EmptyString
  | String a s' => repr_char q a +:+ repr_body q s'
  end.

Definition repr_str (s : string) : string :=
  let q := if char_in "'"%char s && negb (char_in dquote s) then dquote else "'"%char in
  String q (repr_body q s +:+ String q EmptyString).

(** [repr(v)], which is [str(v)] except on strings. *)
Fixpoint repr (v : pyval Q) : string :=
  match v with
  | PyNone => "None"
  | PyBool b => if b then "True" else "False"
  | PyInt z => pretty z
  | PyFloat q => float_repr q
  | PyStr s => repr_str s
  | PyList l => "[" +:+ join ", " (map repr l) +:+ "]"
  | PyTuple l =>
      match l with
      | [x] => "(" +:+ repr x +:+ ",)"
      | _ => "(" +:+ join ", " (map repr l) +:+ ")"
      end
  | PyDict kvs =>
      "{" +:+ join ", " (map (fun kv => match kv with
                                       | (k, x) => repr_str k +:+ ": " +:+ repr x
                                       end) kvs) +:+ "}"
  end.

(** The runtime, for a given iteration order of sets. *)
Definition runtime_with (order : list string -> list string) : PyRuntime Q := {|
  f_eqb := Qeq_bool;
  f_ltb := fun a b => negb (Qle_bool b a);
  f_leb := Qle_bool;
  f_add := Qplus;
  f_sub := Qminus;
  f_pow2 := fun x => Qmult x x;
  f_of_Z := inject_Z;
  f_truthy := fun x => negb (Qeq_bool x 0);
  float_of_str := parse_float;
  fmt6 := format6;
  json_loads := loads;
  literal_eval := lit_eval;
  json_dumps_strs := dumps_strs;
  str_other := repr;
  set_order := order
|}.

(** Sets that iterate in the order of first insertion. *)
Definition runtime : PyRuntime Q := runtime_with remove_dups.

(** Sets that iterate in the opposite order. *)
Definition runtime_rev : PyRuntime Q := runtime_with (fun l => reverse (remove_dups l)).

End Ref.

(** ** Notions used to state the properties *)

Section StripNotions.
Variable f : ascii -> bool.

(** The first character, if any, is not one that [f] strips. *)
Definition head_kept (s : string) : Prop :=
  match s with
  | EmptyString => True
  | String a _ => f a = false
  end.
End StripNotions.

Section Notions.
Context {F : Type} {RT : PyRuntime F}.

(** The path that [_parse_list] takes on a value. *)
Inductive parse_path : Type := ViaList | ViaJson | ViaLiteral | ViaFallback | ViaEmpty.

Definition path_of (value : pyval F) : parse_path :=
  match value with
  | PyList _ => ViaList
  | PyStr v =>
      let s := strip v in
      if nonempty s then
        match json_loads s with
        | Some (PyList _) => ViaJson
        | _ =>
            match literal_eval s with
            | Some (PyList _) | Some (PyTuple _) => ViaLiteral
            | _ => ViaFallback
            end
        end
      else ViaEmpty
  | _ => ViaEmpty
  end.

(** [r] is a member of [stop_to_routes[s]] and [s] of [route_to_stops[r]]. *)
Definition edge (st : mappings) (s r : string) : Prop :=
  r ∈ members st.1 s /\ s ∈ members st.2 r.

Definition symmetric (st : mappings) : Prop :=
  forall s r, r ∈ members st.1 s <-> s ∈ members st.2 r.

(** Every membership of [st] is one of [st']. *)
Definition grows (st st' : mappings) : Prop :=
  forall k e, (e ∈ members st.1 k -> e ∈ members st'.1 k)
              /\ (e ∈ members st.2 k -> e ∈ members st'.2 k).

(** The edges that the [routes] field of a stop row declares are in [st]. *)
Definition stop_declares (b : row F) (st : mappings) : Prop :=
  nonempty (stop_id_of b) = true ->
  forall rid, rid ∈ _parse_list (py_or (dict_get b "routes") (PyStr "[]")) ->
    nonempty (strip rid) = true ->
    strip rid ∈ members st.1 (stop_id_of b)
    /\ stop_id_of b ∈ members st.2 (strip rid).

(** The edges that the [stops] field of a route row declares are in [st]. *)
Definition route_declares (r : row F) (st : mappings) : Prop :=
  nonempty (route_id_of r) = true ->
  forall sid, sid ∈ _parse_list (py_or (dict_get r "stops") (PyStr "[]")) ->
    nonempty (strip sid) = true ->
    route_id_of r ∈ members st.1 (strip sid)
    /\ strip sid ∈ members st.2 (route_id_of r).
End Notions.

(** The comparisons of floats on numbers (the values other than NaN): [<]
    is a strict weak order and [==] holds of the pairs that [<] does not
    separate. *)
Class FloatOrder (F : Type) {RT : PyRuntime F} : Prop := {
  f_ltb_irrefl : forall a : F, f_ltb a a = false;
  f_ltb_trans : forall a b c : F,
      f_ltb a b = true -> f_ltb b c = true -> f_ltb a c = true;
  f_ltb_cotrans : forall a b c : F,
      f_ltb a b = false -> f_ltb b c = false -> f_ltb a c = false;
  f_eqb_ltb : forall a b : F,
      f_eqb a b = true <-> f_ltb a b = false /\ f_ltb b a = false
}.

(** [list(s)] enumerates the elements of the set. *)
Class SetOrder (F : Type) {RT : PyRuntime F} : Prop := {
  set_order_elem : forall (l : list string) (x : string), x ∈ set_order l <-> x ∈ l;
  set_order_NoDup : forall l : list string, NoDup (set_order l)
}.

Section NearestNeighborNotions.
Context {F : Type} {RT : PyRuntime F}.

(** The invariant of the [while] loop: [used] marks exactly the indices in
    [order], which are distinct indices of [points]. *)
Definition nn_inv (points : list (F * F)) (used : list bool) (order : list nat) : Prop :=
  length used = length points
  /\ NoDup order
  /\ (forall i, i ∈ order -> (i < length points)%nat)
  /\ (forall i, nth i used true = false <-> (i < length points)%nat /\ i ∉ order).

(** Every index was, when it was appended, a nearest unused one to its
    predecessor. *)
Definition greedy (points : list (F * F)) (p0 : F * F) (order : list nat) : Prop :=
  forall pre a b post, order = pre ++ a :: b :: post ->
  forall j, (j < length points)%nat -> j ∉ pre ++ [a] ->
    f_ltb (d2 (nth a points p0) (nth j points p0))
          (d2 (nth a points p0) (nth b points p0)) = false.
End NearestNeighborNotions.

Section GeometryNotions.
Context {F : Type} {RT : PyRuntime F}.

(** The parsed [stops] field of a route row. *)
Definition declared_stops (r : row F) : list string :=
  _parse_list (py_or (dict_get r "stops") (PyStr "[]")).

(** The ids of the first pass: the declared stops, or the comprehensive
    set when none are declared. *)
Definition first_ids (r : row F) (stops_rows : list (row F))
    (route_to_stops : gmap string (gset string)) : list string :=
  match declared_stops r with
  | [] => _collect_route_stop_ids (route_id_of r) r stops_rows route_to_stops
  | l => l
  end.

(** A stored pair [[lat, lon]] of floats. *)
Definition float_pair (ab : F * F) : pyval F := PyList [PyFloat ab.1; PyFloat ab.2].
End GeometryNotions.

Section ImportNotions.
Context {F : Type} {RT : PyRuntime F}.

(** The outcome of every submitted item, numbered from [i]. *)
Fixpoint item_outcomes (i : nat) (data : list (pyval F))
  : list (string + (string * row F)) :=
  match data with
  | [] => []
  | obj :: data' => import_item i obj :: item_outcomes (S i) data'
  end.

(** The validation errors, one for every item that failed. *)
Definition errors_of (outcomes : list (string + (string * row F))) : list string :=
  omap (fun o => match o with inl e => Some e | inr _ => None end) outcomes.

(** The ids and rows of the items that validated. *)
Definition valid_of (outcomes : list (string + (string * row F)))
  : list (string * row F) :=
  omap (fun o => match o with inl _ => None | inr kv => Some kv end) outcomes.

(** Storing a list of keyed rows one after the other. *)
Definition store_all (d : list (string * row F)) (kvs : list (string * row F))
  : list (string * row F) :=
  foldl (fun d kv => dict_set d kv.1 kv.2) d kvs.

(** The existing rows that have an id, with their key. *)
Definition keyed_rows (existing : list (row F)) : list (string * row F) :=
  omap (fun r => if truthy (dict_get r "stop_id")
                 then Some (py_str (dict_get r "stop_id"), r) else None) existing.

(** The rows that an import is based on. *)
Definition import_base (st : store) (mode : string) : list (row F) :=
  if String.eqb mode "append" then _read_csv st stops_path else [].

(** The table [keep] at the end of the loop. *)
Definition final_keep (existing : list (row F)) (data : list (pyval F))
  : list (string * row F) :=
  store_all (initial_keep existing) (valid_of (item_outcomes O data)).

(** The header that a store holds for the stops file. *)
Definition stops_header (st : store) : option (list string) :=
  fst <$> st !! stops_path.

(** The number of lines below the header of the stops file. *)
Definition stops_line_count (st : store) : option nat :=
  (fun t => length (snd t)) <$> st !! stops_path.
End ImportNotions.

(** ** Sample data for the examples *)

Module Sample.

(** Three stops on one parallel, as rows of [BusStops.csv]. *)
Definition stops_rows : list (row Q) :=
  [[("stop_id", PyStr "S1"); ("latitude", PyStr "12.0"); ("longitude", PyStr "77.0")];
   [("stop_id", PyStr "S2"); ("latitude", PyStr "12.0"); ("longitude", PyStr "77.1")];
   [("stop_id", PyStr "S3"); ("latitude", PyStr "12.0"); ("longitude", PyStr "76.9")]].

(** A route row that declares the three stops. *)
Definition route_row : row Q :=
  [("route_id", PyStr "R1"); ("stops", PyStr "['S1', 'S2', 'S3']")].

(** A submitted stop that validates. *)
Definition valid_stop : pyval Q :=
  PyDict [("stop_id", PyStr "S1"); ("name", PyStr "Central");
          ("latitude", PyFloat (129716 # 10000)%Q);
          ("longitude", PyFloat (775946 # 10000)%Q)].

(** A second one, with its coordinates as text. *)
Definition valid_stop_2 : pyval Q :=
  PyDict [("stop_id", PyStr "S2"); ("name", PyStr "North");
          ("latitude", PyStr "13.05"); ("longitude", PyStr "77.6")].

(** A submitted stop whose latitude is out of range. *)
Definition polar_stop : pyval Q :=
  PyDict [("stop_id", PyStr "S3"); ("name", PyStr "Pole");
          ("latitude", PyFloat (95 # 1)%Q); ("longitude", PyFloat (77 # 1)%Q)].

(** A stops file of two rows. *)
Definition two_row_store : store :=
  {[ stops_path :=
       (BUS_STOPS_FIELDS,
        [["A1"; "Alpha"; "12.000000"; "77.000000"; "[]"; "True"];
         ["A2"; "Beta"; "12.100000"; "77.100000"; "[]"; "True"]]) ]}.

(** A stops file with a column beyond the canonical ones. *)
Definition zoned_store : store :=
  {[ stops_path :=
       (BUS_STOPS_FIELDS ++ ["zone"],
        [["A1"; "Alpha"; "12.000000"; "77.000000"; "[]"; "True"; "north"]]) ]}.

(** The one row of that file, as read. *)
Definition zoned_row : row Q :=
  read_row (BUS_STOPS_FIELDS ++ ["zone"])
    ["A1"; "Alpha"; "12.000000"; "77.000000"; "[]"; "True"; "north"].

(** A stop given to [add_stop]. *)
Definition new_stop : BusStopIn (F := Q) :=
  {| in_stop_id := "S1"; in_name := "Central";
     in_latitude := (129716 # 10000)%Q; in_longitude := (775946 # 10000)%Q;
     in_routes := None; in_accessibility := None |}.

End Sample.

(** ** Further notions and operations *)

Section StartIndex.
Context {F : Type} {RT : PyRuntime F}.

(** The index at which [_nearest_neighbor_order] starts. *)
Definition nn_start (points : list (F * F)) (p0 : F * F) (start_index : option Z)
  : nat :=
  match start_index with
  | None =>
      default O (py_min_by pair_ltb (fun i => lon_lat (nth i points p0))
                   (seq O (length points)))
  | Some z =>
      if (0 <=? z) && (z <? Z.of_nat (length points)) then Z.to_nat z
      else default O (py_min_by pair_ltb (fun i => lon_lat (nth i points p0))
                        (seq O (length points)))
  end.
End StartIndex.

Section ResolverNotions.
Context {F : Type} {RT : PyRuntime F}.

(** A stop row declares the edge between stop [s] and route [r]. *)
Definition stop_row_declares (b : row F) (s r : string) : Prop :=
  stop_id_of b = s /\ nonempty s = true
  /\ exists rid, rid ∈ _parse_list (py_or (dict_get b "routes") (PyStr "[]"))
                 /\ strip rid = r /\ nonempty r = true.

(** A route row declares the edge between stop [s] and route [r]. *)
Definition route_row_declares (rt : row F) (s r : string) : Prop :=
  route_id_of rt = r /\ nonempty r = true
  /\ exists sid, sid ∈ _parse_list (py_or (dict_get rt "stops") (PyStr "[]"))
                 /\ strip sid = s /\ nonempty s = true.

(** Some row of the two files declares the edge. *)
Definition declared_edge (bs_rows rt_rows : list (row F)) (s r : string) : Prop :=
  (exists b, b ∈ bs_rows /\ stop_row_declares b s r)
  \/ (exists rt, rt ∈ rt_rows /\ route_row_declares rt s r).

(** Every edge of [st], in either mapping, satisfies [Q]. *)
Definition only_edges (Q : string -> string -> Prop) (st : mappings) : Prop :=
  forall s r, (r ∈ members st.1 s -> Q s r) /\ (s ∈ members st.2 r -> Q s r).
End ResolverNotions.

(** Every character of [s] satisfies [f]. *)
Fixpoint all_chars (f : ascii -> bool) (s : string) : bool :=
  match s with
  | EmptyString => true
  | String a s' => f a && all_chars f s'
  end.

Section CollectNotions.
Context {F : Type} {RT : PyRuntime F}.

(** The raw [routes] field of a stop row names the route id as a token. *)
Definition scan_matches (rid : string) (srow : row F) : Prop :=
  nonempty (stop_id_of srow) = true /\ nonempty rid = true
  /\ str_in rid (row_tokens (dict_get srow "routes")) = true.

Definition is_list (v : pyval F) : bool :=
  match v with PyList _ => true | _ => false end.
End CollectNotions.

Section StoreNotions.
Context {F : Type} {RT : PyRuntime F}.

(** [delete_all_stops]: the file is replaced by the canonical header alone. *)
Definition delete_all_stops (st : store) : store :=
  _write_csv st stops_path [] BUS_STOPS_FIELDS.

(** The text that [_write_csv] writes for field [k] of row [r]. *)
Definition written_cell (r : row F) (k : string) : string :=
  cell_text (dict_get_default r k (PyStr EmptyString)).

(** The rows of a keyed table are written with their key as [stop_id],
    and no key occurs twice. *)
Definition keyed_by_id (d : list (string * row F)) : Prop :=
  NoDup (map fst d)
  /\ forall k r, (k, r) ∈ d -> written_cell r "stop_id" = k /\ nonempty k = true.

(** The [stop_id] of a row, as [str(r.get(...))]. *)
Definition id_text (r : row F) : string := py_str (dict_get r "stop_id").
End StoreNotions.

Section GeometryMore.
Context {F : Type} {RT : PyRuntime F}.

(** The row [s] of [BusStops.csv] gives stop [sid] the coordinates [p]:
    both numbers convert and the id is not empty. *)
Definition row_gives (s : row F) (sid : string) (p : F * F) : Prop :=
  stop_id_of s = sid /\ nonempty sid = true
  /\ py_float (py_or (dict_get s "latitude") (dict_get s "stop_lat")) = Some p.1
  /\ py_float (py_or (dict_get s "longitude") (dict_get s "stop_lon")) = Some p.2.
End GeometryMore.

(** ** Runs of the writers *)

Module WriteRun.
Import WriteLock.

(** An upper bound on the steps that a call has still to make. *)
Definition remaining (j : job) (p : pc) : nat :=
  match p with
  | Waiting => length (job_lines j) + 7
  | Opening => length (job_lines j) + 6
  | Writing k => (length (job_lines j) - k) + 5
  | Replacing a => (max_retries - a) + 1
  | Releasing _ => 1
  | Done _ => 0
  end.

Definition is_done (p : pc) : bool :=
  match p with Done _ => true | _ => false end.

Section Runs.
Variable jobs : gmap nat job.

(** A run from the initial state, with the threads that stepped, in order. *)
Inductive trace (fs0 : gmap string (list string)) : list nat -> state -> Prop :=
| trace_init : trace fs0 [] (initial jobs fs0)
| trace_step ts s t s' :
    trace fs0 ts s -> step jobs t s s' -> trace fs0 (ts ++ [t]) s'.

(** Every thread runs a call, has written no more lines than the call has,
    and is within the attempts of the retry loop. *)
Definition pc_bounded (s : state) : Prop :=
  forall t p, pcs s !! t = Some p ->
    exists j, jobs !! t = Some j
              /\ match p with
                 | Writing k => (k <= length (job_lines j))%nat
                 | Replacing a => (a < max_retries)%nat
                 | _ => True
                 end.

(** The lock is held by a thread inside the [with] block. *)
Definition lock_held (s : state) : Prop :=
  forall t, lock s = Some t ->
    exists p, pcs s !! t = Some p /\ in_critical p = true.

(** Every call has returned or raised. *)
Definition all_done (s : state) : Prop :=
  map_Forall (fun _ p => is_done p = true) (pcs s).
End Runs.
End WriteRun.

(** ** [validate_color_hex] *)

(** The character class [[0-9A-Fa-f]]. *)
Definition is_hex_char (a : ascii) : bool :=
  let n := nat_of_ascii a in
  ((48 <=? n)%nat && (n <=? 57)%nat) || ((65 <=? n)%nat && (n <=? 70)%nat)
  || ((97 <=? n)%nat && (n <=? 102)%nat).

(** What follows [n] hexadecimal digits at the head of [s], if [s] starts
    with as many. *)
Fixpoint hex_run (n : nat) (s : string) : option string :=
  match n with
  | O => Some s
  | S n' =>
      match s with
      | String a s' => if is_hex_char a then hex_run n' s' else None
      | EmptyString => None
      end
  end.

(** [re.match(r'^#[0-9A-Fa-f]{6}$', s)]; the dollar also matches before one
    final newline. *)
Definition color_regex_match (s : string) : bool :=
  match s with
  | String h rest =>
      Ascii.eqb h "#"%char
      && match hex_run 6 rest with
         | Some EmptyString => true
         | Some (String b EmptyString) => Ascii.eqb b "010"%char
         | _ => false
         end
  | EmptyString => false
  end.

(** [s.startswith('#')] *)
Definition starts_hash (s : string) : bool :=
  match s with
  | String a _ => Ascii.eqb a "#"%char
  | EmptyString => false
  end.

Section ColorValidation.
Context {F : Type} {RT : PyRuntime F}.

Definition validate_color_hex (color : pyval F) : http_error + string :=
  if negb (truthy color) then inr "#2563eb"
  else
    let color_str := strip (py_str color) in
    let color_str := if starts_hash color_str then color_str
                     else String "#"%char color_str in
    if negb (color_regex_match color_str) then
      inl (HTTPException 400
             "Invalid color format. Must be hex color (e.g., #FF0000).")
    else inr color_str.
End ColorValidation.

(** ** [stops_geojson] *)

(** [l[:limit]] *)
Definition py_prefix {A : Type} (limit : Z) (l : list A) : list A :=
  if 0 <=? limit then take (Z.to_nat limit) l
  else take (length l - Z.to_nat (- limit)) l.

Section StopsFeed.
Context {F : Type} {RT : PyRuntime F}.

Record stop_feature : Type := {
  sf_stop_id : pyval F;
  sf_stop_name : pyval F;
  sf_routes : list string;
  sf_accessibility : bool;
  sf_coordinates : F * F
}.

(** The body of the loop: a row whose coordinates do not convert is
    skipped. *)
Definition stop_feature_of (stop_to_routes : gmap string (gset string)) (r : row F)
  : option stop_feature :=
  match py_float (py_or (dict_get r "latitude") (dict_get r "stop_lat")) with
  | None => None
  | Some lat =>
      match py_float (py_or (dict_get r "longitude") (dict_get r "stop_lon")) with
      | None => None
      | Some lon =>
          let sid := dict_get r "stop_id" in
          let acc_bool :=
            match dict_get r "accessibility" with
            | PyStr a => Some (str_in (lower a) ["true"; "1"; "yes"])
            | PyBool b => Some b
            | _ => None
            end in
          Some {| sf_stop_id := sid;
                  sf_stop_name := py_or (dict_get r "name") (dict_get r "stop_name");
                  sf_routes := sorted_ids (members stop_to_routes (py_str sid));
                  sf_accessibility := default true acc_bool;
                  sf_coordinates := (lon, lat) |}
      end
  end.

(** [stops_geojson], with the rows of [BusStops.csv] and [Routes.csv] as
    arguments. *)
Definition stops_geojson (stops_rows routes_rows : list (row F)) (limit : Z)
  : list stop_feature :=
  omap (stop_feature_of (_load_stop_route_mappings stops_rows routes_rows).1)
       (py_prefix limit stops_rows).
End StopsFeed.

(** * Properties *)

(** ** Stripping *)

Section StripFacts.
Variable f : ascii -> bool.

Lemma lstrip_by_head s : head_kept f (lstrip_by f s).
Proof.
  induction s as [|a s IH]; simpl; [exact I|].
  destruct (f a) eqn:E; [exact IH|exact E].
Qed.

Lemma lstrip_by_fixed s : head_kept f s -> lstrip_by f s = s.
Proof. destruct s as [|a s]; simpl; [reflexivity|]. intros ->. reflexivity. Qed.

Lemma rstrip_by_head s : head_kept f s -> head_kept f (rstrip_by f s).
Proof.
  destruct s as [|a s]; simpl; [trivial|]. intros E.
  destruct (rstrip_by f s); [rewrite E|]; exact E.
Qed.

Lemma rstrip_by_idem s : rstrip_by f (rstrip_by f s) = rstrip_by f s.
Proof.
  induction s as [|a s IH]; simpl; [reflexivity|].
  destruct (rstrip_by f s) as [|b r] eqn:E.
  - destruct (f a) eqn:Ea; simpl; [reflexivity|]. rewrite Ea. reflexivity.
  - change (rstrip_by f (String a (String b r))) with
      (match rstrip_by f (String b r) with
       | EmptyString => if f a then EmptyString else String a EmptyString
       | r0 => String a r0
       end).
    rewrite IH. reflexivity.
Qed.

Lemma strip_by_idem s : strip_by f (strip_by f s) = strip_by f s.
Proof.
  unfold strip_by.
  rewrite (lstrip_by_fixed (rstrip_by f (lstrip_by f s))).
  - apply rstrip_by_idem.
  - apply rstrip_by_head, lstrip_by_head.
Qed.
End StripFacts.

Lemma strip_idem s : strip (strip s) = strip s.
Proof. apply strip_by_idem. Qed.

Lemma strip_chars_idem cs s : strip_chars cs (strip_chars cs s) = strip_chars cs s.
Proof. apply strip_by_idem. Qed.

Lemma starts_bracket_nonempty s : starts_bracket s = true -> nonempty s = true.
Proof. destruct s; simpl; [discriminate|reflexivity]. Qed.

(** ** [_parse_list] *)

Section ParseListFacts.
Context {F : Type} {RT : PyRuntime F}.

Lemma stripped_nonempty_spec (l : list (pyval F)) :
  Forall (fun e => nonempty e = true /\ strip e = e) (stripped_nonempty l).
Proof.
  unfold stripped_nonempty. apply Forall_forall. intros e He.
  apply list_elem_of_filter in He as [Hne He].
  split; [exact Hne|].
  apply list_elem_of_In, in_map_iff in He as (x & <- & _).
  apply strip_idem.
Qed.

Lemma comma_fallback_spec (s : string) :
  Forall (fun e => nonempty e = true /\ strip_chars quote_chars e = e)
         (comma_fallback s).
Proof.
  unfold comma_fallback. apply Forall_forall. intros e He.
  apply list_elem_of_filter in He as [Hne He].
  split; [exact Hne|].
  apply list_elem_of_In, in_map_iff in He as (x & <- & _).
  apply strip_chars_idem.
Qed.

Lemma parse_list_nonempty (value : pyval F) :
  Forall (fun e => nonempty e = true) (_parse_list value).
Proof.
  assert (Hs : forall l, Forall (fun e => nonempty e = true) (stripped_nonempty l)).
  { intros l. eapply Forall_impl; [apply stripped_nonempty_spec|]. simpl. tauto. }
  assert (Hf : forall s, Forall (fun e => nonempty e = true) (comma_fallback s)).
  { intros s. eapply Forall_impl; [apply comma_fallback_spec|]. simpl. tauto. }
  destruct value; simpl; auto.
  destruct (nonempty (strip s)); [|constructor].
  destruct (json_loads (strip s)) as [[]|]; auto;
    destruct (literal_eval (strip s)) as [[]|]; auto.
Qed.

Lemma parse_list_fallback (v : string) :
  path_of (PyStr v) = ViaFallback ->
  _parse_list (PyStr v) = comma_fallback (strip v).
Proof.
  simpl. destruct (nonempty (strip v)); [|discriminate].
  destruct (json_loads (strip v)) as [[]|]; try discriminate;
    destruct (literal_eval (strip v)) as [[]|]; try discriminate; reflexivity.
Qed.

Lemma parse_list_stripped (value : pyval F) :
  path_of value <> ViaFallback ->
  Forall (fun e => strip e = e) (_parse_list value).
Proof.
  assert (Hs : forall l, Forall (fun e => strip e = e) (stripped_nonempty l)).
  { intros l. eapply Forall_impl; [apply stripped_nonempty_spec|]. simpl. tauto. }
  destruct value; simpl; auto.
  destruct (nonempty (strip s)); [|constructor].
  destruct (json_loads (strip s)) as [[]|]; auto;
    destruct (literal_eval (strip s)) as [[]|]; auto; congruence.
Qed.
End ParseListFacts.

Section ReparseFacts.
Context {F : Type} {RT : PyRuntime F}.

Lemma flatten_nested_plain (l : list string) :
  Forall (fun e => starts_bracket (strip e) = false) l ->
  flatten_nested (map PyStr l) = map PyStr l.
Proof.
  induction 1 as [|e l He _ IH]; [reflexivity|].
  simpl. rewrite He. simpl. f_equal. exact IH.
Qed.

Lemma stripped_nonempty_plain (l : list string) :
  Forall (fun e => nonempty e = true /\ strip e = e) l ->
  stripped_nonempty (map PyStr l) = l.
Proof.
  unfold stripped_nonempty.
  induction 1 as [|e l [Hne He] _ IH]; [reflexivity|].
  simpl. rewrite filter_cons_True by (rewrite He; exact Hne).
  rewrite He. f_equal. exact IH.
Qed.
End ReparseFacts.

(** C5, as stated, fails: on a text that neither decoder accepts, the
    comma split strips whitespace before the quotes, so a blank inside the
    quotes stays at the front of the token. *)
Lemma parse_list_fallback_keeps_blank :
  _parse_list (RT := Ref.runtime) (PyStr "x, ' y'") = ["x"; " y"]
  /\ ~ Forall (fun e => nonempty e = true /\ strip e = e)
         (_parse_list (RT := Ref.runtime) (PyStr "x, ' y'")).
Proof.
  split; [vm_compute; reflexivity|].
  intros H. apply Forall_forall with (x := " y") in H.
  - destruct H as [_ H]. vm_compute in H. discriminate.
  - vm_compute. right. left.
Qed.

(** C5 (amended): [_parse_list] returns a list on every value, and every
    element is a non-empty string.  On a native list and on the JSON and
    Python-literal paths the elements carry no surrounding whitespace; on
    the fallback path, which is taken whenever both decoders reject the
    text, the result is the comma split, whose pieces are stripped of
    whitespace and then of surrounding quotes.  A value that is neither
    [None], a list nor a string gives the empty list. *)
Theorem parse_list_total {F : Type} {RT : PyRuntime F} (value : pyval F) :
  Forall (fun e => nonempty e = true) (_parse_list value)
  /\ (path_of value <> ViaFallback ->
      Forall (fun e => strip e = e) (_parse_list value))
  /\ (forall v, value = PyStr v -> nonempty (strip v) = true ->
      json_loads (strip v) = None -> literal_eval (strip v) = None ->
      path_of value = ViaFallback)
  /\ (forall v, value = PyStr v -> path_of value = ViaFallback ->
      _parse_list value = comma_fallback (strip v)
      /\ Forall (fun e => strip_chars quote_chars e = e) (_parse_list value))
  /\ match value with
     | PyNone | PyList _ | PyStr _ => True
     | _ => _parse_list value = []
     end.
Proof.
  split; [apply parse_list_nonempty|].
  split; [apply parse_list_stripped|].
  split.
  { intros v -> Hne Hj Hl. simpl. rewrite Hne, Hj, Hl. reflexivity. }
  split.
  { intros v -> Hp. rewrite (parse_list_fallback v Hp). split; [reflexivity|].
    eapply Forall_impl; [apply comma_fallback_spec|]. simpl. tauto. }
  destruct value; simpl; auto.
Qed.

Lemma parse_list_total_witness :
  _parse_list (RT := Ref.runtime) (PyStr "x, ' y'")
  = comma_fallback (strip "x, ' y'")
  /\ Forall (fun e => strip e = e)
       (_parse_list (RT := Ref.runtime) (PyStr "['R1', ' R2 ']")).
Proof.
  pose proof (parse_list_total (RT := Ref.runtime) (PyStr "x, ' y'"))
    as (_ & _ & Hpath & Hfb & _).
  pose proof (parse_list_total (RT := Ref.runtime) (PyStr "['R1', ' R2 ']"))
    as (_ & Hstripped & _).
  split.
  - apply (Hfb "x, ' y'" eq_refl).
    apply (Hpath "x, ' y'" eq_refl); vm_compute; reflexivity.
  - apply Hstripped. vm_compute. discriminate.
Defined.

(** C6, as stated, fails: an element that itself looks like a list is
    decoded once more when the serialised list is parsed again. *)
Lemma parse_list_reparse_flattens :
  _parse_list (RT := Ref.runtime) (PyList [PyStr "['a']"]) = ["['a']"]
  /\ _parse_list (RT := Ref.runtime)
       (PyStr (@json_dumps_strs Q Ref.runtime
                 (_parse_list (RT := Ref.runtime) (PyList [PyStr "['a']"]))))
     = ["a"]
  /\ _parse_list (RT := Ref.runtime)
       (PyStr (@json_dumps_strs Q Ref.runtime
                 (_parse_list (RT := Ref.runtime) (PyList [PyStr "['a']"]))))
     <> _parse_list (RT := Ref.runtime) (PyList [PyStr "['a']"]).
Proof.
  split; [vm_compute; reflexivity|].
  split; [vm_compute; reflexivity|].
  vm_compute. discriminate.
Qed.

(** C6 (amended): parsing the JSON serialisation of [_parse_list x] gives
    [_parse_list x] again whenever no element of it has surrounding
    whitespace or starts with an opening bracket or parenthesis, given that
    [json.loads] reads back what [json.dumps] wrote. *)
Theorem parse_list_reparse {F : Type} {RT : PyRuntime F} (x : pyval F) :
  nonempty (strip (json_dumps_strs (_parse_list x))) = true ->
  json_loads (strip (json_dumps_strs (_parse_list x)))
  = Some (PyList (map PyStr (_parse_list x))) ->
  Forall (fun e => strip e = e /\ starts_bracket e = false) (_parse_list x) ->
  _parse_list (PyStr (json_dumps_strs (_parse_list x))) = _parse_list x.
Proof.
  intros Hne Hload Hel.
  cbn [_parse_list]. cbv zeta. rewrite Hne, Hload.
  rewrite flatten_nested_plain.
  - apply stripped_nonempty_plain.
    pose proof (parse_list_nonempty x) as Hn.
    rewrite Forall_forall in *. intros e He. split; [auto|]. apply Hel, He.
  - eapply Forall_impl; [exact Hel|]. simpl. intros e [-> He]. exact He.
Qed.

Lemma parse_list_reparse_witness :
  _parse_list (RT := Ref.runtime)
    (PyStr (@json_dumps_strs Q Ref.runtime
              (_parse_list (RT := Ref.runtime) (PyStr "R1, 'R2', R-3"))))
  = ["R1"; "R2"; "R-3"].
Proof.
  apply (parse_list_reparse (RT := Ref.runtime) (PyStr "R1, 'R2', R-3")).
  - vm_compute. reflexivity.
  - vm_compute. reflexivity.
  - assert (Hl : _parse_list (RT := Ref.runtime) (PyStr "R1, 'R2', R-3")
                 = ["R1"; "R2"; "R-3"]) by (vm_compute; reflexivity).
    rewrite Hl. repeat constructor.
Defined.

(** ** The mapping resolver *)

Section ResolverFacts.
Context {F : Type} {RT : PyRuntime F}.

Lemma members_add_edge (m : gmap string (gset string)) (k v k' : string) :
  members (add_edge m k v) k'
  = if decide (k = k') then {[v]} ∪ members m k else members m k'.
Proof.
  unfold members, add_edge. destruct (decide (k = k')) as [-> | Hne].
  - rewrite lookup_insert_eq. reflexivity.
  - rewrite lookup_insert_ne by exact Hne. reflexivity.
Qed.

Lemma symmetric_link (st : mappings) (s r : string) :
  symmetric st -> symmetric (link st s r).
Proof.
  unfold symmetric, link. simpl. intros Hsym s' r'.
  rewrite !members_add_edge.
  destruct (decide (s = s')) as [->|Hs]; destruct (decide (r = r')) as [->|Hr];
    specialize (Hsym s' r'); set_solver.
Qed.

Lemma grows_refl (st : mappings) : grows st st.
Proof. intros k e. tauto. Qed.

Lemma grows_trans (a b c : mappings) : grows a b -> grows b c -> grows a c.
Proof. intros Hab Hbc k e. specialize (Hab k e). specialize (Hbc k e). tauto. Qed.

Lemma grows_link (st : mappings) (s r : string) : grows st (link st s r).
Proof.
  intros k e. unfold link. simpl. rewrite !members_add_edge.
  split; intros H; case_decide; subst; set_solver.
Qed.

Lemma link_present (st : mappings) (s r : string) :
  r ∈ members (link st s r).1 s /\ s ∈ members (link st s r).2 r.
Proof.
  unfold link. simpl. rewrite !members_add_edge.
  rewrite !decide_True by reflexivity. set_solver.
Qed.

(** A loop that links [(a x, b x)] for the elements that pass [keep_]. *)
Lemma foldl_link {A : Type} (keep_ : A -> bool) (a b : A -> string)
    (l : list A) (st : mappings) :
  let st' := foldl (fun st x => if keep_ x then link st (a x) (b x) else st) st l in
  (symmetric st -> symmetric st')
  /\ grows st st'
  /\ (forall x, x ∈ l -> keep_ x = true ->
      b x ∈ members st'.1 (a x) /\ a x ∈ members st'.2 (b x)).
Proof.
  revert st. induction l as [|y l IH]; intros st; simpl.
  - split; [tauto|]. split; [apply grows_refl|]. intros x Hx. inversion Hx.
  - set (st1 := if keep_ y then link st (a y) (b y) else st).
    destruct (IH st1) as (Hsym & Hgrow & Hin).
    assert (Hg1 : grows st st1).
    { unfold st1. destruct (keep_ y); [apply grows_link|apply grows_refl]. }
    split; [|split].
    + intros H. apply Hsym. unfold st1.
      destruct (keep_ y); [apply symmetric_link|]; exact H.
    + eapply grows_trans; eassumption.
    + intros x Hx Hk. apply elem_of_cons in Hx as [->|Hx]; [|apply Hin; assumption].
      subst st1. rewrite Hk in *.
      destruct (link_present st (a y) (b y)) as [H1 H2].
      split; apply Hgrow; assumption.
Qed.

Lemma scan_stop_row_spec (st : mappings) (r : row F) :
  let st' := scan_stop_row st r in
  (symmetric st -> symmetric st')
  /\ grows st st'
  /\ (nonempty (stop_id_of r) = true ->
      forall rid, rid ∈ _parse_list (py_or (dict_get r "routes") (PyStr "[]")) ->
        nonempty (strip rid) = true ->
        strip rid ∈ members st'.1 (stop_id_of r)
        /\ stop_id_of r ∈ members st'.2 (strip rid)).
Proof.
  unfold scan_stop_row. destruct (nonempty (stop_id_of r)) eqn:E.
  - pose proof (foldl_link (fun rid => nonempty (strip rid))
                  (fun _ => stop_id_of r) strip
                  (_parse_list (py_or (dict_get r "routes") (PyStr "[]"))) st)
      as (H1 & H2 & H3).
    split; [exact H1|]. split; [exact H2|]. intros _ rid Hin Hne. apply H3; assumption.
  - split; [tauto|]. split; [apply grows_refl|]. discriminate.
Qed.

Lemma scan_route_row_spec (st : mappings) (r : row F) :
  let st' := scan_route_row st r in
  (symmetric st -> symmetric st')
  /\ grows st st'
  /\ (nonempty (route_id_of r) = true ->
      forall sid, sid ∈ _parse_list (py_or (dict_get r "stops") (PyStr "[]")) ->
        nonempty (strip sid) = true ->
        route_id_of r ∈ members st'.1 (strip sid)
        /\ strip sid ∈ members st'.2 (route_id_of r)).
Proof.
  unfold scan_route_row. destruct (nonempty (route_id_of r)) eqn:E.
  - pose proof (foldl_link (fun sid => nonempty (strip sid))
                  strip (fun _ => route_id_of r)
                  (_parse_list (py_or (dict_get r "stops") (PyStr "[]"))) st)
      as (H1 & H2 & H3).
    split; [exact H1|]. split; [exact H2|]. intros _ sid Hin Hne. apply H3; assumption.
  - split; [tauto|]. split; [apply grows_refl|]. discriminate.
Qed.

(** A loop over rows keeps symmetry, only grows the mappings, and holds
    what each row contributes. *)
Lemma foldl_rows (scan : mappings -> row F -> mappings)
    (declares : row F -> mappings -> Prop) :
  (forall st r, symmetric st -> symmetric (scan st r)) ->
  (forall st r, grows st (scan st r)) ->
  (forall st r, declares r (scan st r)) ->
  (forall r st st', declares r st -> grows st st' -> declares r st') ->
  forall rows st,
    (symmetric st -> symmetric (foldl scan st rows))
    /\ grows st (foldl scan st rows)
    /\ (forall r, r ∈ rows -> declares r (foldl scan st rows)).
Proof.
  intros Hsym Hgrow Hdecl Hmono rows.
  induction rows as [|r rows IH]; intros st; simpl.
  - split; [tauto|]. split; [apply grows_refl|]. intros r Hr. inversion Hr.
  - destruct (IH (scan st r)) as (H1 & H2 & H3).
    split; [|split].
    + intros H. apply H1, Hsym, H.
    + eapply grows_trans; [apply Hgrow|exact H2].
    + intros r' Hr'. apply elem_of_cons in Hr' as [->|Hr']; [|apply H3, Hr'].
      eapply Hmono; [apply Hdecl|exact H2].
Qed.

Lemma symmetric_empty : symmetric ((∅, ∅) : mappings).
Proof.
  intros s r. unfold members. simpl. rewrite !lookup_empty. simpl. set_solver.
Qed.
End ResolverFacts.

(** C4: the two mappings returned by [_load_stop_route_mappings] are
    symmetric, and hold every edge that a stop row or a route row declares,
    in both directions. *)
Theorem load_mappings_symmetric {F : Type} {RT : PyRuntime F}
    (bs_rows rt_rows : list (row F)) :
  (forall s r,
      r ∈ members (_load_stop_route_mappings bs_rows rt_rows).1 s
      <-> s ∈ members (_load_stop_route_mappings bs_rows rt_rows).2 r)
  /\ (forall b, b ∈ bs_rows -> stop_declares b (_load_stop_route_mappings bs_rows rt_rows))
  /\ (forall r, r ∈ rt_rows -> route_declares r (_load_stop_route_mappings bs_rows rt_rows)).
Proof.
  unfold _load_stop_route_mappings.
  assert (Hmono_s : forall (r : row F) st st',
             stop_declares r st -> grows st st' -> stop_declares r st').
  { intros r st st' Hd Hg Hne rid Hin Hrid.
    destruct (Hd Hne rid Hin Hrid) as [H1 H2]. split; apply Hg; assumption. }
  assert (Hmono_r : forall (r : row F) st st',
             route_declares r st -> grows st st' -> route_declares r st').
  { intros r st st' Hd Hg Hne sid Hin Hsid.
    destruct (Hd Hne sid Hin Hsid) as [H1 H2]. split; apply Hg; assumption. }
  destruct (foldl_rows scan_stop_row stop_declares
              (fun st r => proj1 (scan_stop_row_spec st r))
              (fun st r => proj1 (proj2 (scan_stop_row_spec st r)))
              (fun st r => proj2 (proj2 (scan_stop_row_spec st r)))
              Hmono_s bs_rows (∅, ∅)) as (Hs1 & _ & Hs3).
  destruct (foldl_rows scan_route_row route_declares
              (fun st r => proj1 (scan_route_row_spec st r))
              (fun st r => proj1 (proj2 (scan_route_row_spec st r)))
              (fun st r => proj2 (proj2 (scan_route_row_spec st r)))
              Hmono_r rt_rows (foldl scan_stop_row (∅, ∅) bs_rows))
    as (Hr1 & Hr2 & Hr3).
  split; [apply (Hr1 (Hs1 symmetric_empty))|].
  split; [|exact Hr3].
  intros b Hb. eapply Hmono_s; [apply Hs3, Hb|exact Hr2].
Qed.

Lemma load_mappings_symmetric_witness :
  "R1" ∈ members (_load_stop_route_mappings (RT := Ref.runtime)
                    [[("stop_id", PyStr "S1"); ("routes", PyStr "['R1']")]]
                    [[("route_id", PyStr "R2"); ("stops", PyStr "S1, S2")]]).1 "S1"
  /\ "S2" ∈ members (_load_stop_route_mappings (RT := Ref.runtime)
                    [[("stop_id", PyStr "S1"); ("routes", PyStr "['R1']")]]
                    [[("route_id", PyStr "R2"); ("stops", PyStr "S1, S2")]]).2 "R2".
Proof.
  destruct (load_mappings_symmetric (RT := Ref.runtime)
              [[("stop_id", PyStr "S1"); ("routes", PyStr "['R1']")]]
              [[("route_id", PyStr "R2"); ("stops", PyStr "S1, S2")]])
    as (Hsym & Hstop & Hroute).
  split.
  - apply (Hstop [("stop_id", PyStr "S1"); ("routes", PyStr "['R1']")]
                 ltac:(left) eq_refl "R1" ltac:(vm_compute; left) eq_refl).
  - apply (proj2 (Hsym "S2" "R2")).
    apply (Hroute [("route_id", PyStr "R2"); ("stops", PyStr "S1, S2")]
                  ltac:(left) eq_refl "S2" ltac:(vm_compute; right; left) eq_refl).
Defined.

Section CollectFacts.
Context {F : Type} {RT : PyRuntime F}.

Lemma elem_of_sorted_ids (s : gset string) (e : string) :
  e ∈ sorted_ids s <-> e ∈ s.
Proof.
  unfold sorted_ids. rewrite merge_sort_Permutation. apply elem_of_elements.
Qed.

Lemma sorted_ids_sorted (s : gset string) :
  StronglySorted String.le (sorted_ids s) /\ NoDup (sorted_ids s).
Proof.
  unfold sorted_ids. split.
  - apply StronglySorted_merge_sort; apply _.
  - rewrite merge_sort_Permutation. apply NoDup_elements.
Qed.
End CollectFacts.

(** C3, as stated, fails: a declared token that the fallback left with a
    blank in front enters the result without the blank, so the result does
    not contain the parsed token itself. *)
Lemma collect_misses_unstripped_token :
  _parse_list (RT := Ref.runtime) (PyStr "x, ' y'") = ["x"; " y"]
  /\ _collect_route_stop_ids (RT := Ref.runtime) "R1"
       [("route_id", PyStr "R1"); ("stops", PyStr "x, ' y'")] [] ∅
     = ["x"; "y"]
  /\ " y" ∉ _collect_route_stop_ids (RT := Ref.runtime) "R1"
       [("route_id", PyStr "R1"); ("stops", PyStr "x, ' y'")] [] ∅.
Proof.
  split; [vm_compute; reflexivity|].
  assert (H : _collect_route_stop_ids (RT := Ref.runtime) "R1"
                [("route_id", PyStr "R1"); ("stops", PyStr "x, ' y'")] [] ∅
              = ["x"; "y"]) by (vm_compute; reflexivity).
  split; [exact H|]. rewrite H.
  intros Hin. apply elem_of_cons in Hin as [Hin|Hin]; [discriminate|].
  apply elem_of_cons in Hin as [Hin|Hin]; [discriminate|]. inversion Hin.
Qed.

(** C3 (amended): [_collect_route_stop_ids] returns a sorted list without
    duplicates that contains every stop id of the resolver's
    [route_to_stops] entry of the route, and every token of the parsed
    declared stops list after its surrounding whitespace is stripped
    (tokens that are blank are left out). *)
Theorem collect_sorted_superset {F : Type} {RT : PyRuntime F}
    (rid : string) (route_row : row F) (stops_rows : list (row F))
    (route_to_stops : gmap string (gset string)) :
  StronglySorted String.le (_collect_route_stop_ids rid route_row stops_rows route_to_stops)
  /\ NoDup (_collect_route_stop_ids rid route_row stops_rows route_to_stops)
  /\ (forall e,
        e ∈ _parse_list (py_or (dict_get route_row "stops") (PyStr "[]")) ->
        nonempty (strip e) = true ->
        strip e ∈ _collect_route_stop_ids rid route_row stops_rows route_to_stops)
  /\ (forall e,
        e ∈ members route_to_stops rid ->
        e ∈ _collect_route_stop_ids rid route_row stops_rows route_to_stops).
Proof.
  unfold _collect_route_stop_ids.
  split; [apply sorted_ids_sorted|]. split; [apply sorted_ids_sorted|].
  split; intros e He.
  - intros Hne. apply elem_of_sorted_ids. unfold collected_set.
    apply elem_of_union_l, elem_of_union_l, elem_of_list_to_set, list_elem_of_filter.
    split; [exact Hne|].
    apply list_elem_of_In, in_map. apply list_elem_of_In, He.
  - apply elem_of_sorted_ids. unfold collected_set.
    apply elem_of_union_l, elem_of_union_r, He.
Qed.

Lemma collect_sorted_superset_witness :
  "y" ∈ _collect_route_stop_ids (RT := Ref.runtime) "R1"
          [("route_id", PyStr "R1"); ("stops", PyStr "x, ' y'")] []
          {[ "R1" := {[ "S9" ]} ]}
  /\ "S9" ∈ _collect_route_stop_ids (RT := Ref.runtime) "R1"
          [("route_id", PyStr "R1"); ("stops", PyStr "x, ' y'")] []
          {[ "R1" := {[ "S9" ]} ]}.
Proof.
  destruct (collect_sorted_superset (RT := Ref.runtime) "R1"
              [("route_id", PyStr "R1"); ("stops", PyStr "x, ' y'")] []
              {[ "R1" := {[ "S9" ]} ]}) as (_ & _ & Hdecl & Hres).
  split.
  - apply (Hdecl " y" ltac:(vm_compute; right; left) eq_refl).
  - apply Hres. vm_compute. reflexivity.
Defined.

(** ** Nearest-neighbour ordering *)

Section MinFacts.
Context {A K : Type} (ltb : K -> K -> bool) (key : A -> K).

Lemma min_fold_in (xs : list A) (x : A) :
  fold_left (fun best y => if ltb (key y) (key best) then y else best) xs x ∈ x :: xs.
Proof.
  revert x. induction xs as [|z xs IH]; intros x; simpl; [left|].
  destruct (ltb (key z) (key x)).
  - right. apply IH.
  - specialize (IH x). apply elem_of_cons in IH as [-> | IH]; [left|right; right; exact IH].
Qed.

Lemma py_min_by_in (l : list A) (best : A) :
  py_min_by ltb key l = Some best -> best ∈ l.
Proof.
  destruct l as [|x xs]; simpl; [discriminate|]. intros [= <-]. apply min_fold_in.
Qed.

Lemma py_min_by_some (l : list A) : l <> [] -> is_Some (py_min_by ltb key l).
Proof. destruct l; [congruence|]. intros _. simpl. eauto. Qed.

Hypothesis ltb_irrefl : forall a, ltb a a = false.
Hypothesis ltb_trans : forall a b c, ltb a b = true -> ltb b c = true -> ltb a c = true.

Lemma min_fold_spec (xs seen : list A) (x : A) :
  (forall y, y ∈ seen -> ltb (key y) (key x) = false) ->
  let b := fold_left (fun best y => if ltb (key y) (key best) then y else best) xs x in
  b ∈ x :: xs
  /\ forall y, y ∈ seen ++ x :: xs -> ltb (key y) (key b) = false.
Proof.
  revert seen x. induction xs as [|z xs IH]; intros seen x Hseen; simpl.
  - split; [left|]. intros y Hy. apply elem_of_app in Hy as [Hy|Hy]; [auto|].
    apply list_elem_of_singleton in Hy as ->. apply ltb_irrefl.
  - destruct (ltb (key z) (key x)) eqn:Hzx.
    + destruct (IH (seen ++ [x]) z) as [Hin Hmin].
      { intros y Hy. apply elem_of_app in Hy as [Hy|Hy].
        - destruct (ltb (key y) (key z)) eqn:Hyz; [|reflexivity].
          rewrite <- (Hseen y Hy). symmetry. eapply ltb_trans; eassumption.
        - apply list_elem_of_singleton in Hy as ->.
          destruct (ltb (key x) (key z)) eqn:Hxz; [|reflexivity].
          rewrite <- (ltb_irrefl (key x)). symmetry. eapply ltb_trans; eassumption. }
      split; [right; exact Hin|].
      intros y Hy. apply Hmin. rewrite <- app_assoc. exact Hy.
    + destruct (IH (seen ++ [z]) x) as [Hin Hmin].
      { intros y Hy. apply elem_of_app in Hy as [Hy|Hy]; [auto|].
        apply list_elem_of_singleton in Hy as ->. exact Hzx. }
      split.
      * apply elem_of_cons in Hin as [->|Hin]; [left|right; right; exact Hin].
      * intros y Hy. apply Hmin. clear -Hy. set_solver.
Qed.

Lemma py_min_by_spec (l : list A) (best : A) :
  py_min_by ltb key l = Some best ->
  best ∈ l /\ forall y, y ∈ l -> ltb (key y) (key best) = false.
Proof.
  destruct l as [|x xs]; simpl; [discriminate|]. intros [= <-].
  destruct (min_fold_spec xs [] x) as [Hin Hmin].
  - intros y Hy. inversion Hy.
  - split; [exact Hin|]. intros y Hy. apply Hmin. exact Hy.
Qed.
End MinFacts.

Section PairOrder.
Context {F : Type} {RT : PyRuntime F} {FO : FloatOrder F}.

Lemma f_eqb_refl (a : F) : f_eqb a a = true.
Proof. apply f_eqb_ltb. split; apply f_ltb_irrefl. Qed.

Lemma f_ltb_asym (a b : F) : f_ltb a b = true -> f_ltb b a = false.
Proof.
  intros Hab. destruct (f_ltb b a) eqn:Hba; [|reflexivity].
  rewrite <- (f_ltb_irrefl a). symmetry. eapply f_ltb_trans; eassumption.
Qed.

Lemma f_ltb_not_eqb (a b : F) : f_ltb a b = true -> f_eqb a b = false.
Proof.
  intros Hab. destruct (f_eqb a b) eqn:E; [|reflexivity].
  apply f_eqb_ltb in E as [E _]. congruence.
Qed.

Lemma f_eqb_false (a b : F) :
  f_eqb a b = false -> f_ltb a b = true \/ f_ltb b a = true.
Proof.
  intros E. destruct (f_ltb a b) eqn:Hab; [left; reflexivity|].
  destruct (f_ltb b a) eqn:Hba; [right; reflexivity|].
  assert (f_eqb a b = true) by (apply f_eqb_ltb; split; assumption). congruence.
Qed.

Lemma f_eqb_ltb_l (a b c : F) : f_eqb a b = true -> f_ltb b c = true -> f_ltb a c = true.
Proof.
  intros E Hbc. apply f_eqb_ltb in E as [_ Hba].
  destruct (f_ltb a c) eqn:Hac; [reflexivity|].
  rewrite <- Hbc. symmetry. eapply f_ltb_cotrans; eassumption.
Qed.

Lemma f_eqb_ltb_r (a b c : F) : f_ltb a b = true -> f_eqb b c = true -> f_ltb a c = true.
Proof.
  intros Hab E. apply f_eqb_ltb in E as [_ Hcb].
  destruct (f_ltb a c) eqn:Hac; [reflexivity|].
  rewrite <- Hab. symmetry. eapply f_ltb_cotrans; eassumption.
Qed.

Lemma f_eqb_trans (a b c : F) : f_eqb a b = true -> f_eqb b c = true -> f_eqb a c = true.
Proof.
  intros E1 E2. apply f_eqb_ltb in E1 as [H1 H2]. apply f_eqb_ltb in E2 as [H3 H4].
  apply f_eqb_ltb. split; eapply f_ltb_cotrans; eassumption.
Qed.

Lemma pair_ltb_irrefl (a : F * F) : pair_ltb a a = false.
Proof. unfold pair_ltb. rewrite !f_eqb_refl. reflexivity. Qed.

(** What [pair_ltb] says, case by case. *)
Lemma pair_ltb_true (a b : F * F) :
  pair_ltb a b = true <->
  f_ltb a.1 b.1 = true \/ (f_eqb a.1 b.1 = true /\ f_ltb a.2 b.2 = true).
Proof.
  unfold pair_ltb. destruct (f_eqb a.1 b.1) eqn:E1.
  - destruct (f_eqb a.2 b.2) eqn:E2.
    + split; [discriminate|]. intros [H|[_ H]].
      * apply f_ltb_not_eqb in H. congruence.
      * apply f_ltb_not_eqb in H. congruence.
    + split; [intros H; right; split; [reflexivity|exact H]|].
      intros [H|[_ H]]; [|exact H]. apply f_ltb_not_eqb in H. congruence.
  - split; [intros H; left; exact H|]. intros [H|[H _]]; [exact H|discriminate].
Qed.

Lemma pair_ltb_trans (a b c : F * F) :
  pair_ltb a b = true -> pair_ltb b c = true -> pair_ltb a c = true.
Proof.
  rewrite !pair_ltb_true. intros [H1|[E1 H1]] [H2|[E2 H2]].
  - left. eapply f_ltb_trans; eassumption.
  - left. eapply f_eqb_ltb_r; eassumption.
  - left. eapply f_eqb_ltb_l; eassumption.
  - right. split; [eapply f_eqb_trans|eapply f_ltb_trans]; eassumption.
Qed.

(** A point that is not below the start in the key order has no smaller
    longitude, and at equal longitude no smaller latitude. *)
Lemma lon_lat_minimal (p start : F * F) :
  pair_ltb (lon_lat p) (lon_lat start) = false ->
  f_ltb p.2 start.2 = false
  /\ (f_eqb p.2 start.2 = true -> f_ltb p.1 start.1 = false).
Proof.
  intros H. split.
  - destruct (f_ltb p.2 start.2) eqn:E; [|reflexivity].
    rewrite <- H. symmetry. apply pair_ltb_true. left. exact E.
  - intros E. destruct (f_ltb p.1 start.1) eqn:E1; [|reflexivity].
    rewrite <- H. symmetry. apply pair_ltb_true. right. split; assumption.
Qed.
End PairOrder.

Section LoopFacts.
Context {F : Type} {RT : PyRuntime F} {FO : FloatOrder F}.
Variable points : list (F * F).
Variable p0 : F * F.

Local Abbreviation n := (length points).
Local Abbreviation pt := (fun i => nth i points p0).

Lemma candidates_elem (used : list bool) (last_ : nat) (t : nat * F) :
  t ∈ candidates points p0 used last_ <->
  t = (t.1, d2 (pt last_) (pt t.1)) /\ nth t.1 used true = false /\ (t.1 < n)%nat.
Proof.
  unfold candidates.
  change (map ?g ?l) with (g <$> l).
  rewrite list_elem_of_fmap. split.
  - intros (i & -> & Hi). apply list_elem_of_filter in Hi as [Hu Hi].
    apply elem_of_seq in Hi. simpl. repeat split; [exact Hu|lia].
  - intros (Ht & Hu & Hlt). exists t.1. split; [exact Ht|].
    apply list_elem_of_filter. split; [exact Hu|]. apply elem_of_seq. lia.
Qed.

Lemma nn_inv_length (used : list bool) (order : list nat) :
  nn_inv points used order -> (length order <= n)%nat.
Proof.
  intros (_ & Hnd & Hlt & _).
  assert (Hsub : forall i, i ∈ order -> i ∈ seq O n).
  { intros i Hi. apply elem_of_seq. specialize (Hlt i Hi). lia. }
  pose proof (submseteq_length _ _ (NoDup_submseteq _ _ Hnd Hsub)) as Hle.
  rewrite length_seq in Hle. exact Hle.
Qed.

Lemma nn_inv_progress (used : list bool) (order : list nat) (last_ : nat) :
  nn_inv points used order -> (length order < n)%nat ->
  candidates points p0 used last_ <> [].
Proof.
  intros (Hlen & Hnd & Hlt & Hused) Hshort Hnil.
  assert (Hall : forall i, i ∈ seq O n -> i ∈ order).
  { intros i Hi. apply elem_of_seq in Hi.
    destruct (decide (i ∈ order)) as [|Hni]; [assumption|].
    assert (Hc : (i, d2 (pt last_) (pt i)) ∈ candidates points p0 used last_).
    { apply candidates_elem. simpl. repeat split; [|lia]. apply Hused. split; [lia|exact Hni]. }
    rewrite Hnil in Hc. inversion Hc. }
  pose proof (submseteq_length _ _ (NoDup_submseteq _ _ (NoDup_seq O n) Hall)) as Hle.
  rewrite length_seq in Hle. lia.
Qed.

Lemma nn_inv_step (used : list bool) (order : list nat) (i : nat) :
  nn_inv points used order -> nth i used true = false ->
  nn_inv points (<[i := true]> used) (order ++ [i]).
Proof.
  intros (Hlen & Hnd & Hlt & Hused) Hi.
  destruct (proj1 (Hused i) Hi) as [Hin Hni].
  split; [rewrite length_insert; exact Hlen|].
  split.
  { apply NoDup_app. split; [exact Hnd|]. split; [|apply NoDup_singleton].
    intros x Hx Hx'. apply list_elem_of_singleton in Hx' as ->. contradiction. }
  split.
  { intros j Hj. apply elem_of_app in Hj as [Hj|Hj]; [auto|].
    apply list_elem_of_singleton in Hj as ->. exact Hin. }
  intros j. rewrite nth_lookup, list_lookup_insert.
  rewrite elem_of_app, list_elem_of_singleton.
  destruct (decide (i = j /\ (i < length used)%nat)) as [[-> _]|Hne]; simpl.
  - split; [discriminate|]. intros [_ H]. exfalso. apply H. right. reflexivity.
  - rewrite <- nth_lookup, Hused. split.
    + intros [H1 H2]. split; [exact H1|]. intros [H | ->]; [contradiction|].
      apply Hne. split; [reflexivity|]. rewrite Hlen. exact H1.
    + intros [H1 H2]. split; [exact H1|]. intros H. apply H2. left. exact H.
Qed.

Lemma greedy_snoc (order : list nat) (t : nat) :
  greedy points p0 order -> order <> [] ->
  (forall j, (j < n)%nat -> j ∉ order ->
     f_ltb (d2 (pt (List.last order O)) (pt j)) (d2 (pt (List.last order O)) (pt t)) = false) ->
  greedy points p0 (order ++ [t]).
Proof.
  intros Hg Hne Hmin pre a b post Heq j Hj Hnj.
  destruct (decide (post = [])) as [->|Hpost].
  - change (pre ++ [a; b]) with (pre ++ [a] ++ [b]) in Heq.
    rewrite app_assoc in Heq. apply app_inj_tail in Heq as [-> ->].
    rewrite last_last in Hmin. apply Hmin; assumption.
  - destruct (exists_last Hpost) as (post' & x & ->).
    change (pre ++ a :: b :: post' ++ [x]) with (pre ++ (a :: b :: post') ++ [x]) in Heq.
    rewrite app_assoc in Heq. apply app_inj_tail in Heq as [-> ->].
    eapply Hg; [reflexivity|exact Hj|exact Hnj].
Qed.

Lemma nn_loop_shape (fuel : nat) :
  forall (used : list bool) (order : list nat),
    nn_inv points used order -> (n - length order <= fuel)%nat ->
    (exists used', nn_inv points used' (nn_loop fuel points p0 used order))
    /\ length (nn_loop fuel points p0 used order) = n
    /\ exists suffix, nn_loop fuel points p0 used order = order ++ suffix.
Proof.
  induction fuel as [|fuel IH]; intros used order Hinv Hfuel.
  - simpl. pose proof (nn_inv_length used order Hinv).
    split; [eauto|]. split; [lia|]. exists []. rewrite app_nil_r. reflexivity.
  - simpl. destruct (Nat.ltb_spec (length order) n) as [Hlt|Hge].
    + destruct (py_min_by_some f_ltb snd (candidates points p0 used (List.last order O)))
        as [t Ht].
      { eapply nn_inv_progress; eassumption. }
      rewrite Ht. apply py_min_by_in, candidates_elem in Ht as (_ & Hunused & _).
      destruct (IH (<[t.1 := true]> used) (order ++ [t.1])) as (Hi & Hl & sfx & Hs).
      * apply nn_inv_step; assumption.
      * rewrite length_app. simpl. lia.
      * split; [exact Hi|]. split; [exact Hl|].
        exists (t.1 :: sfx). rewrite Hs, <- app_assoc. reflexivity.
    + pose proof (nn_inv_length used order Hinv).
      split; [eauto|]. split; [lia|]. exists []. rewrite app_nil_r. reflexivity.
Qed.

Lemma nn_loop_greedy (fuel : nat) :
  forall (used : list bool) (order : list nat),
    nn_inv points used order -> order <> [] -> greedy points p0 order ->
    greedy points p0 (nn_loop fuel points p0 used order).
Proof.
  induction fuel as [|fuel IH]; intros used order Hinv Hne Hg; [exact Hg|].
  simpl. destruct (Nat.ltb_spec (length order) n) as [Hlt|Hge]; [|exact Hg].
  destruct (py_min_by f_ltb snd (candidates points p0 used (List.last order O)))
    as [t|] eqn:Ht; [|exact Hg].
  apply (py_min_by_spec f_ltb snd f_ltb_irrefl f_ltb_trans) in Ht as [Hin Hmin].
  apply candidates_elem in Hin as (Hteq & Hunused & Htlt).
  apply IH.
  - apply nn_inv_step; assumption.
  - intros H. apply app_eq_nil in H as [_ H]. discriminate.
  - apply greedy_snoc; [exact Hg|exact Hne|].
    intros j Hj Hnj.
    assert (Hc : (j, d2 (pt (List.last order O)) (pt j))
                 ∈ candidates points p0 used (List.last order O)).
    { apply candidates_elem. simpl. repeat split; [|exact Hj].
      destruct Hinv as (_ & _ & _ & Hused). apply Hused. split; assumption. }
    specialize (Hmin _ Hc). rewrite Hteq in Hmin. simpl in Hmin. exact Hmin.
Qed.

Lemma map_nth_seq_from (pre l : list (F * F)) (d : F * F) :
  map (fun i => nth i (pre ++ l) d) (seq (length pre) (length l)) = l.
Proof.
  revert pre. induction l as [|x l IH]; intros pre; simpl; [reflexivity|].
  f_equal.
  - rewrite app_nth2 by lia. rewrite Nat.sub_diag. reflexivity.
  - specialize (IH (pre ++ [x])). rewrite <- app_assoc, length_app in IH. simpl in IH.
    rewrite Nat.add_1_r in IH. exact IH.
Qed.

Lemma map_nth_seq_all (d : F * F) : map (fun i => nth i points d) (seq O n) = points.
Proof. apply (map_nth_seq_from [] points d). Qed.

Lemma nn_inv_start (start : nat) :
  (start < n)%nat -> nn_inv points (<[start := true]> (repeat false n)) [start].
Proof.
  intros Hs.
  assert (H0 : nn_inv points (repeat false n) []).
  { split; [apply repeat_length|]. split; [constructor|].
    split; [intros i Hi; inversion Hi|].
    intros i. split.
    - intros Hi. split; [|intros H; inversion H].
      destruct (Nat.lt_ge_cases i n) as [|Hge]; [assumption|].
      rewrite nth_overflow in Hi by (rewrite repeat_length; exact Hge). discriminate.
    - intros [Hi _]. apply nth_repeat_lt. exact Hi. }
  apply (nn_inv_step (repeat false n) [] start H0).
  apply nth_repeat_lt. exact Hs.
Qed.
End LoopFacts.

Section ShapeFacts.
Context {F : Type} {RT : PyRuntime F}.

(** The index at which a call without start index begins. *)
Lemma start_index_some (points : list (F * F)) (p0 : F * F) :
  points <> [] ->
  exists best,
    py_min_by pair_ltb (fun i => lon_lat (nth i points p0)) (seq O (length points))
    = Some best
    /\ (best < length points)%nat.
Proof.
  intros Hne.
  destruct (py_min_by_some pair_ltb (fun i => lon_lat (nth i points p0))
              (seq O (length points))) as [best Hbest].
  { destruct points; [congruence|]. simpl. discriminate. }
  exists best. split; [exact Hbest|].
  apply py_min_by_in, elem_of_seq in Hbest. lia.
Qed.

(** The output lists the points at the indices of a duplicate-free list of
    all indices, which begins with the start index. *)
Lemma nn_order_shape (points : list (F * F)) (p0 : F * F) (tl : list (F * F)) :
  points = p0 :: tl ->
  exists best,
    py_min_by pair_ltb (fun i => lon_lat (nth i points p0)) (seq O (length points))
    = Some best
    /\ (best < length points)%nat
    /\ _nearest_neighbor_order points None
       = map (fun i => nth i points p0)
             (nn_loop (length points) points p0
                (<[best := true]> (repeat false (length points))) [best])
    /\ (exists suffix, nn_loop (length points) points p0
                         (<[best := true]> (repeat false (length points))) [best]
                       = best :: suffix)
    /\ NoDup (nn_loop (length points) points p0
                (<[best := true]> (repeat false (length points))) [best])
    /\ (forall i, i ∈ nn_loop (length points) points p0
                      (<[best := true]> (repeat false (length points))) [best] ->
                  (i < length points)%nat)
    /\ length (nn_loop (length points) points p0
                 (<[best := true]> (repeat false (length points))) [best])
       = length points.
Proof.
  intros Hpts.
  destruct (start_index_some points p0) as (best & Hbest & Hlt).
  { rewrite Hpts. discriminate. }
  exists best. split; [exact Hbest|]. split; [exact Hlt|].
  destruct (nn_loop_shape points p0 (length points)
              (<[best := true]> (repeat false (length points))) [best])
    as ((used' & _ & Hnd & Hbound & _) & Hlen & sfx & Hsfx).
  - apply nn_inv_start. exact Hlt.
  - simpl. lia.
  - split.
    { rewrite Hpts at 1. cbn [_nearest_neighbor_order]. cbv zeta.
      rewrite <- Hpts. rewrite Hbest. reflexivity. }
    split; [exists sfx; exact Hsfx|].
    split; [exact Hnd|]. split; [exact Hbound|exact Hlen].
Qed.

Lemma order_is_permutation (n : nat) (order : list nat) :
  NoDup order -> (forall i, i ∈ order -> (i < n)%nat) -> length order = n ->
  order ≡ₚ seq O n.
Proof.
  intros Hnd Hbound Hlen. apply submseteq_length_Permutation.
  - apply NoDup_submseteq; [exact Hnd|]. intros i Hi. apply elem_of_seq.
    specialize (Hbound i Hi). lia.
  - rewrite length_seq, Hlen. reflexivity.
Qed.

Lemma nearest_neighbor_order_perm (points : list (F * F)) :
  _nearest_neighbor_order points None ≡ₚ points.
Proof.
  destruct points as [|p0 tl] eqn:Hpts; [reflexivity|]. rewrite <- Hpts.
  destruct (nn_order_shape points p0 tl Hpts)
    as (best & _ & _ & -> & _ & Hnd & Hbound & Hlen).
  rewrite (order_is_permutation (length points) _ Hnd Hbound Hlen).
  rewrite map_nth_seq_all. reflexivity.
Qed.

Lemma nearest_neighbor_order_length (points : list (F * F)) :
  length (_nearest_neighbor_order points None) = length points.
Proof. apply Permutation_length, nearest_neighbor_order_perm. Qed.
End ShapeFacts.

Section OrderFacts.
Context {F : Type} {RT : PyRuntime F} {FO : FloatOrder F}.

Lemma nn_order_spec (points : list (F * F)) (p0 : F * F) (tl : list (F * F)) :
  points = p0 :: tl ->
  exists best order,
    _nearest_neighbor_order points None = map (fun i => nth i points p0) order
    /\ (forall i, (i < length points)%nat ->
          pair_ltb (lon_lat (nth i points p0)) (lon_lat (nth best points p0)) = false)
    /\ (exists suffix, order = best :: suffix)
    /\ NoDup order
    /\ (forall i, i ∈ order -> (i < length points)%nat)
    /\ greedy points p0 order.
Proof.
  intros Hpts.
  destruct (nn_order_shape points p0 tl Hpts)
    as (best & Hbest & Hlt & Hout & Hsfx & Hnd & Hbound & Hlen).
  exists best. eexists. split; [exact Hout|].
  split.
  { apply (py_min_by_spec pair_ltb _ pair_ltb_irrefl pair_ltb_trans) in Hbest
      as [_ Hmin].
    intros i Hi. apply Hmin. apply elem_of_seq. lia. }
  split; [exact Hsfx|]. split; [exact Hnd|]. split; [exact Hbound|].
  apply nn_loop_greedy.
  - apply nn_inv_start. exact Hlt.
  - discriminate.
  - intros pre a b post Heq. apply (f_equal length) in Heq.
    rewrite length_app in Heq. simpl in Heq. lia.
Qed.
End OrderFacts.


(** The reference runtime orders its numbers as the rationals are ordered. *)
Lemma ref_ltb_lt (order : list string -> list string) (a b : Q) :
  @f_ltb Q (Ref.runtime_with order) a b = true <-> (a < b)%Q.
Proof.
  simpl. rewrite negb_true_iff. split.
  - intros H. apply Qnot_le_lt. intros Hle. apply Qle_bool_iff in Hle. congruence.
  - intros H. destruct (Qle_bool b a) eqn:E; [|reflexivity].
    apply Qle_bool_iff in E. exfalso. exact (Qlt_not_le _ _ H E).
Qed.

Lemma ref_ltb_ge (order : list string -> list string) (a b : Q) :
  @f_ltb Q (Ref.runtime_with order) a b = false <-> (b <= a)%Q.
Proof.
  simpl. rewrite negb_false_iff. apply Qle_bool_iff.
Qed.

Lemma ref_float_order (order : list string -> list string) :
  @FloatOrder Q (Ref.runtime_with order).
Proof.
  split.
  - intros a. apply ref_ltb_ge, Qle_refl.
  - intros a b c. rewrite !ref_ltb_lt. apply Qlt_trans.
  - intros a b c. rewrite !ref_ltb_ge. intros H1 H2. eapply Qle_trans; eassumption.
  - intros a b. rewrite !ref_ltb_ge. simpl. rewrite Qeq_bool_iff. split.
    + intros H. rewrite H. split; apply Qle_refl.
    + intros [H1 H2]. apply Qle_antisym; assumption.
Qed.

Lemma ref_set_order : @SetOrder Q Ref.runtime.
Proof.
  split; simpl.
  - intros l x. apply elem_of_remove_dups.
  - intros l. apply NoDup_remove_dups.
Qed.

Lemma ref_rev_set_order : @SetOrder Q Ref.runtime_rev.
Proof.
  split; simpl.
  - intros l x. rewrite elem_of_reverse. apply elem_of_remove_dups.
  - intros l. rewrite reverse_Permutation. apply NoDup_remove_dups.
Qed.


(** ** Geometry derivation *)

Section GeometryFacts.
Context {F : Type} {RT : PyRuntime F}.

Lemma flip_axes_length (path : list (F * F)) : length (flip_axes path) = length path.
Proof. apply length_map. Qed.

Lemma nn_line_length (pts : list (F * F)) :
  length (flip_axes (_nearest_neighbor_order pts None)) = length pts.
Proof. rewrite flip_axes_length. apply nearest_neighbor_order_length. Qed.

Lemma stops_pass_first (lookup : gmap string (F * F)) (sl all_ids : list string) :
  (2 <= length (resolve lookup sl))%nat ->
  stops_pass lookup sl all_ids
  = flip_axes (_nearest_neighbor_order (resolve lookup sl) None).
Proof.
  intros H. unfold stops_pass. destruct sl as [|x sl']; [simpl in H; lia|].
  destruct (Nat.leb_spec 2 (length (resolve lookup (x :: sl')))) as [_|]; [|lia].
  rewrite nn_line_length.
  destruct (Nat.ltb_spec (length (resolve lookup (x :: sl'))) 2); [lia|reflexivity].
Qed.

Lemma stops_pass_second (lookup : gmap string (F * F)) (sl all_ids : list string) :
  sl <> [] ->
  (length (resolve lookup sl) < 2)%nat ->
  (2 <= length (resolve lookup all_ids))%nat ->
  stops_pass lookup sl all_ids
  = flip_axes (_nearest_neighbor_order (resolve lookup all_ids) None).
Proof.
  intros Hne H1 H2. unfold stops_pass. destruct sl as [|x sl']; [congruence|].
  destruct (Nat.leb_spec 2 (length (resolve lookup (x :: sl')))) as [|_]; [lia|].
  simpl (length []).
  destruct (Nat.leb_spec 2 (length (resolve lookup all_ids))) as [_|]; [|lia].
  reflexivity.
Qed.

Lemma stops_pass_none (lookup : gmap string (F * F)) (sl all_ids : list string) :
  (length (resolve lookup sl) < 2)%nat ->
  (length (resolve lookup all_ids) < 2)%nat ->
  stops_pass lookup sl all_ids = [].
Proof.
  intros H1 H2. unfold stops_pass. destruct sl as [|x sl']; [reflexivity|].
  destruct (Nat.leb_spec 2 (length (resolve lookup (x :: sl')))) as [|_]; [lia|].
  simpl (length []).
  destruct (Nat.leb_spec 2 (length (resolve lookup all_ids))) as [|_]; [lia|].
  reflexivity.
Qed.

Lemma stored_line_float_pairs (pairs : list (F * F)) :
  stored_line (map float_pair pairs) = Some (map (fun ab => (ab.2, ab.1)) pairs).
Proof.
  induction pairs as [|ab pairs IH]; [reflexivity|].
  simpl. rewrite IH. reflexivity.
Qed.

(** A line of at least two points passes both later fallbacks unchanged. *)
Lemma line_kept (line : list (F * F)) (stored later : option (list (F * F))) :
  (2 <= length line)%nat ->
  match match line with [] => stored | _ => Some line end with
  | None => None
  | Some [] => later
  | Some l => Some l
  end = Some line.
Proof. destruct line; simpl; [lia|reflexivity]. Qed.
End GeometryFacts.




(** A stored [coordinates] field that decodes to a number is iterated
    without a guard: the handler raises. *)
Remark derive_line_scalar_coordinates_raise :
  derive_line (RT := Ref.runtime)
    [("route_id", PyStr "R1"); ("coordinates", PyStr "5")] [] ∅ ∅
  = None.
Proof. vm_compute. reflexivity. Qed.

(** ** The import pipeline *)

Section DictFacts.
Context {V : Type}.

Lemma dict_find_set (d : list (string * V)) (k k' : string) (v : V) :
  dict_find (dict_set d k v) k' = if String.eqb k' k then Some v else dict_find d k'.
Proof.
  induction d as [|[k0 v0] d IH]; simpl.
  - reflexivity.
  - destruct (String.eqb_spec k k0) as [-> | Hne]; simpl.
    + destruct (String.eqb k' k0); reflexivity.
    + rewrite IH. destruct (String.eqb_spec k' k0) as [-> | Hne'].
      * destruct (String.eqb_spec k0 k); [congruence|reflexivity].
      * reflexivity.
Qed.

Lemma dict_find_app (d1 d2 : list (string * V)) (k : string) :
  dict_find (d1 ++ d2) k
  = match dict_find d1 k with Some v => Some v | None => dict_find d2 k end.
Proof.
  induction d1 as [|[k0 v0] d1 IH]; simpl; [reflexivity|].
  destruct (String.eqb k k0); [reflexivity|exact IH].
Qed.

Lemma dict_set_length (d : list (string * V)) (k : string) (v : V) :
  length (dict_set d k v)
  = match dict_find d k with Some _ => length d | None => S (length d) end.
Proof.
  induction d as [|[k0 v0] d IH]; simpl; [reflexivity|].
  destruct (String.eqb k k0); simpl; [reflexivity|].
  rewrite IH. destruct (dict_find d k); reflexivity.
Qed.
End DictFacts.

Section ImportFacts.
Context {F : Type} {RT : PyRuntime F}.

(** After storing a list of keyed rows, a key holds the last row stored
    under it, and what it held before when none was. *)
Lemma store_all_find (kvs d : list (string * row F)) (k : string) :
  dict_find (store_all d kvs) k
  = match dict_find (reverse kvs) k with
    | Some r => Some r
    | None => dict_find d k
    end.
Proof.
  revert d. induction kvs as [|[k0 r0] kvs IH]; intros d; simpl; [reflexivity|].
  unfold store_all in *. simpl. rewrite IH, reverse_cons, dict_find_app, dict_find_set.
  simpl. destruct (dict_find (reverse kvs) k); [reflexivity|].
  destruct (String.eqb k k0); reflexivity.
Qed.

Lemma initial_keep_store_all (existing : list (row F)) :
  initial_keep existing = store_all [] (keyed_rows existing).
Proof.
  unfold initial_keep, store_all. generalize (@nil (string * row F)).
  induction existing as [|r existing IH]; intros d; simpl; [reflexivity|].
  rewrite IH. unfold keyed_rows. simpl.
  destruct (truthy (dict_get r "stop_id")); reflexivity.
Qed.

Lemma import_loop_spec (data : list (pyval F)) (st : import_state) (i : nat) :
  import_loop st i data
  = {| keep := store_all (keep st) (valid_of (item_outcomes i data));
       validation_errors := validation_errors st ++ errors_of (item_outcomes i data);
       processed_count := processed_count st + length (valid_of (item_outcomes i data)) |}.
Proof.
  revert st i. induction data as [|obj data IH]; intros st i; simpl.
  - destruct st. simpl. rewrite app_nil_r, Nat.add_0_r. reflexivity.
  - rewrite IH. unfold import_step, errors_of, valid_of. simpl.
    destruct (import_item i obj) as [e|[sid r]]; simpl.
    + rewrite <- app_assoc. reflexivity.
    + rewrite Nat.add_succ_r. reflexivity.
Qed.

Lemma outcomes_count (data : list (pyval F)) (i : nat) :
  (length (errors_of (item_outcomes i data))
   + length (valid_of (item_outcomes i data)) = length data)%nat.
Proof.
  revert i. induction data as [|obj data IH]; intros i; simpl; [reflexivity|].
  unfold errors_of, valid_of in *. simpl. specialize (IH (S i)).
  destruct (import_item i obj) as [e|kv]; simpl; lia.
Qed.

(** [import_stops] for a mode that the handler accepts. *)
Lemma import_stops_unfold (st : store) (data : list (pyval F)) (mode : string) :
  str_in mode ["replace"; "append"] = true ->
  import_stops st data mode
  = if (length data <? 2 * length (errors_of (item_outcomes O data)))%nat then
      (inl (HTTPException 400
              ("Too many validation errors ("
               +:+ pretty (length (errors_of (item_outcomes O data))) +:+ "): "
               +:+ join "; " (take 5 (errors_of (item_outcomes O data))))), st)
    else
      (inr {| imported := length data;
              saved := length (final_keep (import_base st mode) data);
              processed := length (valid_of (item_outcomes O data));
              warnings := match errors_of (item_outcomes O data) with
                          | [] => None
                          | _ => Some (take 10 (errors_of (item_outcomes O data)))
                          end |},
       _write_csv st stops_path (map snd (final_keep (import_base st mode) data))
         (import_fieldnames BUS_STOPS_FIELDS (import_base st mode))).
Proof.
  intros Hmode. unfold import_stops. rewrite Hmode. cbn [negb]. cbv zeta.
  rewrite import_loop_spec. cbn [keep validation_errors processed_count].
  rewrite app_nil_l. fold (@import_base F st mode).
  fold (final_keep (import_base st mode) data).
  rewrite length_map.
  destruct (errors_of (item_outcomes O data)) as [|e errs] eqn:E.
  - simpl. destruct (length data); reflexivity.
  - cbn [andb]. reflexivity.
Qed.

Lemma write_csv_lookup (st : store) (path : string) (rows : list (row F))
    (fieldnames : list string) :
  exists body, _write_csv st path rows fieldnames !! path = Some (fieldnames, body)
               /\ length body = length rows.
Proof.
  unfold _write_csv, store. eexists. rewrite lookup_insert_eq. split; [reflexivity|].
  apply length_map.
Qed.
End ImportFacts.

Section KeepFacts.
Context {F : Type} {RT : PyRuntime F}.

Lemma dict_find_elem {V : Type} (d : list (string * V)) (k : string) (v : V) :
  dict_find d k = Some v -> (k, v) ∈ d.
Proof.
  induction d as [|[k0 v0] d IH]; simpl; [discriminate|].
  destruct (String.eqb_spec k k0) as [-> | Hne].
  - intros [= ->]. left.
  - intros H. right. exact (IH H).
Qed.

Lemma dict_find_is_Some {V : Type} (d : list (string * V)) (k : string) (v : V) :
  (k, v) ∈ d -> is_Some (dict_find d k).
Proof.
  induction d as [|[k0 v0] d IH]; intros Hin; [inversion Hin|].
  simpl. destruct (String.eqb_spec k k0) as [-> | Hne]; [eauto|].
  apply IH. apply elem_of_cons in Hin as [Heq | Hin]; [congruence|exact Hin].
Qed.

(** Every item that validated has its id in the final table, bound to the
    row of the last valid item with that id, and that row is written. *)
Lemma valid_item_kept (existing : list (row F)) (data : list (pyval F))
    (sid : string) (r : row F) :
  (sid, r) ∈ valid_of (item_outcomes O data) ->
  exists r',
    dict_find (reverse (valid_of (item_outcomes O data))) sid = Some r'
    /\ dict_find (final_keep existing data) sid = Some r'
    /\ r' ∈ map snd (final_keep existing data).
Proof.
  intros Hin.
  destruct (dict_find_is_Some (reverse (valid_of (item_outcomes O data))) sid r)
    as [r' Hr'].
  { apply elem_of_reverse. exact Hin. }
  exists r'. split; [exact Hr'|].
  assert (Hk : dict_find (final_keep existing data) sid = Some r').
  { unfold final_keep. rewrite store_all_find, Hr'. reflexivity. }
  split; [exact Hk|].
  apply dict_find_elem in Hk. apply list_elem_of_In, in_map_iff.
  exists (sid, r'). split; [reflexivity|]. apply list_elem_of_In. exact Hk.
Qed.
End KeepFacts.




Section AppendFacts.
Context {F : Type} {RT : PyRuntime F}.

Lemma initial_keep_find (existing : list (row F)) (k : string) :
  dict_find (initial_keep existing) k = dict_find (reverse (keyed_rows existing)) k.
Proof.
  rewrite initial_keep_store_all, store_all_find.
  destruct (dict_find (reverse (keyed_rows existing)) k); reflexivity.
Qed.

(** A key of the final table holds the row of the last valid item with
    that id, and without such an item the last existing row keyed by it. *)
Lemma final_keep_find (existing : list (row F)) (data : list (pyval F)) (k : string) :
  dict_find (final_keep existing data) k
  = match dict_find (reverse (valid_of (item_outcomes O data))) k with
    | Some r => Some r
    | None => dict_find (reverse (keyed_rows existing)) k
    end.
Proof. unfold final_keep. rewrite store_all_find, initial_keep_find. reflexivity. Qed.

Lemma append_base (st : store) :
  @import_base F st "append" = _read_csv st stops_path.
Proof. reflexivity. Qed.

(** Two new valid items and one invalid item on a table of two rows. *)
Lemma append_two_valid_one_invalid (st : store) (r1 r2 : row F)
    (a b c : pyval F) (sa sb e : string) (ra rb : row F) :
  _read_csv st stops_path = [r1; r2] ->
  truthy (dict_get r1 "stop_id") = true ->
  truthy (dict_get r2 "stop_id") = true ->
  py_str (dict_get r1 "stop_id") <> py_str (dict_get r2 "stop_id") ->
  import_item 0 a = inr (sa, ra) ->
  import_item 1 b = inr (sb, rb) ->
  import_item 2 c = inl e ->
  sa <> sb ->
  sa <> py_str (dict_get r1 "stop_id") -> sa <> py_str (dict_get r2 "stop_id") ->
  sb <> py_str (dict_get r1 "stop_id") -> sb <> py_str (dict_get r2 "stop_id") ->
  import_stops st [a; b; c] "append"
  = (inr {| imported := 3; saved := 4; processed := 2; warnings := Some [e] |},
     _write_csv st stops_path [r1; r2; ra; rb]
       (import_fieldnames BUS_STOPS_FIELDS [r1; r2])).
Proof.
  intros Hread Ht1 Ht2 H12 Ha Hb Hc Hab Ha1 Ha2 Hb1 Hb2.
  rewrite (import_stops_unfold st [a; b; c] "append" eq_refl).
  rewrite append_base, Hread.
  unfold final_keep, store_all, initial_keep, errors_of, valid_of.
  cbn [item_outcomes]. rewrite Ha, Hb, Hc.
  cbn [omap list_omap foldl length Nat.mul Nat.add Nat.ltb Nat.leb take].
  rewrite Ht1, Ht2.
  apply String.eqb_neq in H12, Hab, Ha1, Ha2, Hb1, Hb2.
  assert (H21 : String.eqb (py_str (dict_get r2 "stop_id"))
                           (py_str (dict_get r1 "stop_id")) = false)
    by (rewrite String.eqb_sym; exact H12).
  assert (Hba : String.eqb sb sa = false) by (rewrite String.eqb_sym; exact Hab).
  cbn [dict_set fst snd]. rewrite H21. cbn [dict_set].
  rewrite Ha1, Ha2. cbn [dict_set]. rewrite Hb1, Hb2, Hba. cbn [dict_set].
  reflexivity.
Qed.
End AppendFacts.



(** ** Headers on rewrites *)

Section HeaderFacts.
Context {F : Type} {RT : PyRuntime F} {SO : SetOrder F}.

Lemma str_in_spec (x : string) (l : list string) : str_in x l = true <-> x ∈ l.
Proof.
  unfold str_in. rewrite existsb_exists, list_elem_of_In. split.
  - intros (y & Hy & Heq). apply String.eqb_eq in Heq as ->. exact Hy.
  - intros H. exists x. split; [exact H|apply String.eqb_refl].
Qed.

Lemma extend_fields (canonical acc : list string) :
  (forall x, x ∈ acc ->
     x ∈ foldl (fun acc fn => if str_in fn acc then acc else acc ++ [fn]) acc canonical)
  /\ (forall x, x ∈ canonical ->
     x ∈ foldl (fun acc fn => if str_in fn acc then acc else acc ++ [fn]) acc canonical).
Proof.
  revert acc. induction canonical as [|c canonical IH]; intros acc; simpl.
  - split; [tauto|]. intros x Hx. inversion Hx.
  - destruct (IH (if str_in c acc then acc else acc ++ [c])) as [Hacc Hcan].
    assert (Hsub : forall x, x ∈ acc -> x ∈ (if str_in c acc then acc else acc ++ [c])).
    { intros x Hx. destruct (str_in c acc); [exact Hx|]. apply elem_of_app. left. exact Hx. }
    split.
    + intros x Hx. apply Hacc, Hsub, Hx.
    + intros x Hx. apply elem_of_cons in Hx as [-> | Hx]; [|apply Hcan, Hx].
      apply Hacc. destruct (str_in c acc) eqn:E.
      * apply str_in_spec, E.
      * apply elem_of_app. right. left.
Qed.

Lemma key_in_existing_fields (rows : list (row F)) (r : row F) (fn : string) :
  r ∈ rows -> fn ∈ dict_keys r -> fn ∈ existing_fields rows.
Proof.
  intros Hr Hfn. unfold existing_fields. apply set_order_elem.
  apply list_elem_of_In, in_flat_map. exists r.
  split; apply list_elem_of_In; assumption.
Qed.

Lemma merged_fieldnames_spec (rows : list (row F)) (r : row F) (fn : string) :
  r ∈ rows -> fn ∈ dict_keys r ->
  fn ∈ merged_fieldnames BUS_STOPS_FIELDS rows
  /\ forall c, c ∈ BUS_STOPS_FIELDS -> c ∈ merged_fieldnames BUS_STOPS_FIELDS rows.
Proof.
  intros Hr Hfn. unfold merged_fieldnames.
  destruct rows as [|r0 rows']; [inversion Hr|].
  destruct (extend_fields BUS_STOPS_FIELDS (existing_fields (r0 :: rows'))) as [Hacc Hcan].
  split; [|exact Hcan].
  apply Hacc. eapply key_in_existing_fields; eassumption.
Qed.

Lemma import_fieldnames_spec (rows : list (row F)) (r : row F) (fn : string) :
  r ∈ rows -> fn ∈ dict_keys r ->
  fn ∈ import_fieldnames BUS_STOPS_FIELDS rows
  /\ forall c, c ∈ BUS_STOPS_FIELDS -> c ∈ import_fieldnames BUS_STOPS_FIELDS rows.
Proof.
  intros Hr Hfn. unfold import_fieldnames.
  destruct rows as [|r0 rows']; [inversion Hr|].
  split.
  - apply set_order_elem, elem_of_app. right.
    apply (key_in_existing_fields (r0 :: rows') r fn Hr Hfn).
  - intros c Hc. apply set_order_elem, elem_of_app. left. exact Hc.
Qed.

Lemma add_stop_fresh (st : store) (stop : BusStopIn) :
  existsb (fun r => String.eqb (py_str (dict_get r "stop_id")) (in_stop_id stop))
          (_read_csv st stops_path) = false ->
  exists new_row,
    add_stop st stop
    = inr (_write_csv st stops_path (_read_csv st stops_path ++ [new_row])
             (merged_fieldnames BUS_STOPS_FIELDS (_read_csv st stops_path))).
Proof. intros H. unfold add_stop. rewrite H. eexists. reflexivity. Qed.

Lemma stops_header_written (st : store) (rows : list (row F)) (fieldnames : list string) :
  stops_header (_write_csv st stops_path rows fieldnames) = Some fieldnames.
Proof. unfold stops_header, _write_csv, store. rewrite lookup_insert_eq. reflexivity. Qed.
End HeaderFacts.




(** ** The lock discipline of [_write_csv] *)

Section WriteLockFacts.
Import WriteLock.
Variable jobs : gmap nat job.
Variable fs0 : gmap string (list string).

Lemma holder_unique (s : state) (t1 t2 : nat) (p1 p2 : pc) :
  holder_inv s ->
  pcs s !! t1 = Some p1 -> pcs s !! t2 = Some p2 ->
  in_critical p1 = true -> in_critical p2 = true -> t1 = t2.
Proof.
  intros Hh H1 H2 C1 C2.
  apply (Hh t1 p1 H1) in C1. apply (Hh t2 p2 H2) in C2. congruence.
Qed.

(** A step that changes the program counter of the lock holder only. *)
Lemma holder_inv_move (s : state) (t : nat) (p p' : pc) (lk : option nat)
    (files : gmap string (list string)) :
  holder_inv s -> pcs s !! t = Some p ->
  in_critical p = true -> in_critical p' = true -> lk = lock s ->
  holder_inv {| lock := lk; fs := files; pcs := set_pc s t p' |}.
Proof.
  intros Hh Hp Hc Hc' -> t' q. unfold set_pc. simpl.
  destruct (decide (t = t')) as [<- | Hne].
  - rewrite lookup_insert_eq. intros [= <-]. rewrite <- (Hh t p Hp), Hc, Hc'. tauto.
  - rewrite lookup_insert_ne by exact Hne. apply Hh.
Qed.

Lemma others_not_writing (s : state) (t t' : nat) (p : pc) :
  holder_inv s -> pcs s !! t = Some p -> in_critical p = true -> t <> t' ->
  match pcs s !! t' with
  | Some q => in_critical q = false
  | None => True
  end.
Proof.
  intros Hh Hp Hc Hne. destruct (pcs s !! t') as [q|] eqn:Hq; [|exact I].
  destruct (in_critical q) eqn:Cq; [|reflexivity].
  exfalso. apply Hne. eapply holder_unique; eassumption.
Qed.

(** The temporary files of the other threads are not looked at while a
    thread is in the [with] block. *)
Lemma tmp_inv_move (s : state) (t : nat) (p p' : pc) (lk : option nat)
    (files : gmap string (list string)) :
  holder_inv s -> tmp_inv jobs s -> pcs s !! t = Some p -> in_critical p = true ->
  (forall j, jobs !! t = Some j ->
     match p' with
     | Writing k => files !! tmp_path (job_path j) = Some (take k (job_lines j))
     | Replacing _ => files !! tmp_path (job_path j) = Some (job_lines j)
     | _ => True
     end) ->
  tmp_inv jobs {| lock := lk; fs := files; pcs := set_pc s t p' |}.
Proof.
  intros Hh Ht Hp Hc Hnew t' j Hj. unfold set_pc. simpl.
  destruct (decide (t = t')) as [<- | Hne].
  - rewrite lookup_insert_eq. apply Hnew, Hj.
  - rewrite lookup_insert_ne by exact Hne.
    pose proof (others_not_writing s t t' p Hh Hp Hc Hne) as Ho.
    destruct (pcs s !! t') as [[]|]; try exact I; discriminate.
Qed.

Lemma target_inv_same (s : state) (lk : option nat) (pcs' : gmap nat pc) :
  target_inv jobs fs0 s ->
  target_inv jobs fs0 {| lock := lk; fs := fs s; pcs := pcs' |}.
Proof. intros Ht path Hpath. exact (Ht path Hpath). Qed.

Lemma target_inv_tmp (s : state) (lk : option nat) (pcs' : gmap nat pc)
    (t : nat) (j : job) (content : list string) :
  target_inv jobs fs0 s -> jobs !! t = Some j ->
  target_inv jobs fs0
    {| lock := lk; fs := <[tmp_path (job_path j) := content]> (fs s); pcs := pcs' |}.
Proof.
  intros Ht Hj path Hpath. specialize (Ht path Hpath).
  unfold old_or_new in *. simpl.
  rewrite lookup_insert_ne by (intros Heq; exact (Hpath t j Hj (eq_sym Heq))).
  exact Ht.
Qed.

Lemma invariants_initial :
  holder_inv (initial jobs fs0) /\ tmp_inv jobs (initial jobs fs0)
  /\ target_inv jobs fs0 (initial jobs fs0).
Proof.
  split; [|split].
  - intros t p. unfold initial. simpl. rewrite lookup_fmap.
    destruct (jobs !! t); simpl; [|discriminate]. intros [= <-]. simpl.
    split; discriminate.
  - intros t j Hj. unfold initial. simpl. rewrite lookup_fmap, Hj. exact I.
  - intros path _. left. reflexivity.
Qed.

Lemma invariants_step (s s' : state) (t : nat) :
  holder_inv s /\ tmp_inv jobs s /\ target_inv jobs fs0 s ->
  step jobs t s s' ->
  holder_inv s' /\ tmp_inv jobs s' /\ target_inv jobs fs0 s'.
Proof.
  intros (Hh & Ht & Hg) Hstep.
  destruct Hstep as [j Hj Hp Hl | j Hj Hp | j k line Hj Hp Hline | j k Hj Hp Hk
                    | j a content Hj Hp Hc | j a Hj Hp Ha | j a Hj Hp Ha | j ok Hj Hp].
  - (* acquire *)
    split; [|split].
    + intros t' q. unfold set_pc. simpl.
      destruct (decide (t = t')) as [<- | Hne].
      * rewrite lookup_insert_eq. intros [= <-]. simpl. tauto.
      * rewrite lookup_insert_ne by exact Hne. intros Hq.
        rewrite (Hh t' q Hq), Hl. split; [discriminate|]. intros [= Heq]. congruence.
    + intros t' j' Hj'. unfold set_pc. simpl.
      destruct (decide (t = t')) as [<- | Hne].
      * rewrite lookup_insert_eq. exact I.
      * rewrite lookup_insert_ne by exact Hne. apply (Ht t' j' Hj').
    + apply target_inv_same, Hg.
  - (* open *)
    split; [|split].
    + eapply holder_inv_move; eauto.
    + eapply tmp_inv_move; eauto. intros j' Hj'. simpl.
      assert (j' = j) as -> by congruence. apply lookup_insert_eq.
    + eapply target_inv_tmp; eassumption.
  - (* write *)
    split; [|split].
    + eapply holder_inv_move; eauto.
    + eapply tmp_inv_move; eauto. intros j' Hj'. simpl.
      assert (j' = j) as -> by congruence. rewrite lookup_insert_eq.
      specialize (Ht t j Hj). rewrite Hp in Ht. rewrite Ht. simpl.
      rewrite (take_S_r _ _ _ Hline). reflexivity.
    + eapply target_inv_tmp; eassumption.
  - (* close *)
    split; [|split].
    + eapply holder_inv_move; eauto.
    + eapply tmp_inv_move; eauto. intros j' Hj'. simpl.
      assert (j' = j) as -> by congruence.
      specialize (Ht t j Hj). rewrite Hp in Ht. rewrite Ht, Hk.
      rewrite firstn_all. reflexivity.
    + apply target_inv_same, Hg.
  - (* replace succeeds *)
    specialize (Ht t j Hj) as Htmp. rewrite Hp in Htmp.
    assert (content = job_lines j) as -> by congruence.
    split; [|split].
    + eapply holder_inv_move; eauto.
    + eapply tmp_inv_move; eauto; try (intros j' Hj'; exact I).
    + intros path Hpath. unfold old_or_new. simpl.
      destruct (decide (job_path j = path)) as [<- | Hne].
      * right. exists t, j. rewrite lookup_insert_eq. auto.
      * rewrite lookup_insert_ne by exact Hne.
        rewrite lookup_delete_ne by (intros Heq; exact (Hpath t j Hj (eq_sym Heq))).
        exact (Hg path Hpath).
  - (* replace fails, retry *)
    specialize (Ht t j Hj) as Htmp. rewrite Hp in Htmp.
    split; [|split].
    + eapply holder_inv_move; eauto.
    + eapply tmp_inv_move; eauto. intros j' Hj'. simpl.
      assert (j' = j) as -> by congruence. exact Htmp.
    + apply target_inv_same, Hg.
  - (* replace fails for the last time *)
    split; [|split].
    + eapply holder_inv_move; eauto.
    + eapply tmp_inv_move; eauto; try (intros j' Hj'; exact I).
    + apply target_inv_same, Hg.
  - (* release *)
    assert (Hlock : lock s = Some t) by (apply (Hh t _ Hp); reflexivity).
    split; [|split].
    + intros t' q. unfold set_pc. simpl.
      destruct (decide (t = t')) as [<- | Hne].
      * rewrite lookup_insert_eq. intros [= <-]. simpl. split; discriminate.
      * rewrite lookup_insert_ne by exact Hne. intros Hq.
        rewrite (Hh t' q Hq), Hlock. split; [intros [= Heq]; congruence|discriminate].
    + eapply tmp_inv_move; eauto; try (intros j' Hj'; exact I).
    + apply target_inv_same, Hg.
Qed.

Lemma invariants_reachable (s : state) :
  reachable jobs fs0 s ->
  holder_inv s /\ tmp_inv jobs s /\ target_inv jobs fs0 s.
Proof.
  induction 1 as [|s t s' _ IH Hstep].
  - apply invariants_initial.
  - eapply invariants_step; eassumption.
Qed.

(** A thread that waits for the lock cannot move while it is held. *)
Lemma waiting_blocked (s : state) (t t' : nat) :
  pcs s !! t = Some Waiting -> lock s = Some t' ->
  forall s', ~ step jobs t s s'.
Proof.
  intros Hp Hl s' Hstep. inversion Hstep; subst; congruence.
Qed.
End WriteLockFacts.

Lemma first_holds_reachable :
  WriteLock.reachable WriteLock.two_writers ∅ WriteLock.first_holds.
Proof.
  eapply WriteLock.reach_step; [apply WriteLock.reach_init|].
  eapply (WriteLock.step_acquire WriteLock.two_writers 1
            (WriteLock.initial WriteLock.two_writers ∅)); reflexivity.
Qed.

Lemma two_writers_apart : WriteLock.targets_apart WriteLock.two_writers.
Proof.
  intros t1 t2 j1 j2 H1 H2. unfold WriteLock.two_writers in *.
  destruct (decide (t1 = 1%nat)) as [-> | N1];
    [|destruct (decide (t1 = 2%nat)) as [-> | N2]];
    (destruct (decide (t2 = 1%nat)) as [-> | M1];
     [|destruct (decide (t2 = 2%nat)) as [-> | M2]]);
    simplify_map_eq; vm_compute; discriminate.
Qed.

(** C10, as stated, fails: the lock is one lock for every path, so a
    writer to [Routes.csv] that asks for it while a writer to
    [BusStops.csv] is in its critical section cannot move, although it
    could start when no one holds the lock. *)
Lemma writers_to_other_tables_block :
  WriteLock.reachable WriteLock.two_writers ∅ WriteLock.first_holds
  /\ (exists j1 j2,
        WriteLock.two_writers !! 1%nat = Some j1
        /\ WriteLock.two_writers !! 2%nat = Some j2
        /\ WriteLock.job_path j1 <> WriteLock.job_path j2)
  /\ WriteLock.pcs WriteLock.first_holds !! 1%nat = Some WriteLock.Opening
  /\ WriteLock.pcs WriteLock.first_holds !! 2%nat = Some WriteLock.Waiting
  /\ (forall s', ~ WriteLock.step WriteLock.two_writers 2 WriteLock.first_holds s')
  /\ (exists s', WriteLock.step WriteLock.two_writers 2
                   (WriteLock.initial WriteLock.two_writers ∅) s').
Proof.
  split; [exact first_holds_reachable|].
  split.
  { eexists _, _. split; [reflexivity|]. split; [reflexivity|]. simpl. discriminate. }
  split; [reflexivity|]. split; [reflexivity|].
  split.
  - apply (waiting_blocked WriteLock.two_writers WriteLock.first_holds 2 1); reflexivity.
  - eexists.
    eapply (WriteLock.step_acquire WriteLock.two_writers 2
              (WriteLock.initial WriteLock.two_writers ∅)); reflexivity.
Qed.

(** C10 (amended): all writers, whatever their table, go through the one
    lock of [_write_csv]: at most one of them is between taking and
    releasing it, and a writer that asks for it meanwhile waits.  A target
    file holds at every moment what it held at the start or all the lines
    of one call that writes it, because the lines go to the temporary file
    and [os.replace] puts it in place in one step. *)
Theorem write_lock_discipline (jobs : gmap nat WriteLock.job)
    (fs0 : gmap string (list string)) (s : WriteLock.state) :
  WriteLock.targets_apart jobs ->
  WriteLock.reachable jobs fs0 s ->
  (forall t1 t2 p1 p2,
     WriteLock.pcs s !! t1 = Some p1 -> WriteLock.pcs s !! t2 = Some p2 ->
     WriteLock.in_critical p1 = true -> WriteLock.in_critical p2 = true -> t1 = t2)
  /\ (forall t1 t2 p1,
        t1 <> t2 -> WriteLock.pcs s !! t1 = Some p1 ->
        WriteLock.in_critical p1 = true ->
        WriteLock.pcs s !! t2 = Some WriteLock.Waiting ->
        forall s', ~ WriteLock.step jobs t2 s s')
  /\ (forall t j, jobs !! t = Some j ->
        WriteLock.old_or_new jobs fs0 s (WriteLock.job_path j)).
Proof.
  intros Hapart Hreach.
  destruct (invariants_reachable jobs fs0 s Hreach) as (Hh & _ & Hg).
  split; [|split].
  - intros t1 t2 p1 p2. apply holder_unique, Hh.
  - intros t1 t2 p1 _ H1 C1 H2.
    apply (waiting_blocked jobs s t2 t1 H2). apply (Hh t1 p1 H1), C1.
  - intros t j Hj. apply Hg. intros t' j' Hj'. exact (Hapart t t' j j' Hj Hj').
Qed.

Lemma write_lock_discipline_witness :
  WriteLock.old_or_new WriteLock.two_writers ∅ WriteLock.first_holds "BusStops.csv"
  /\ forall s', ~ WriteLock.step WriteLock.two_writers 2 WriteLock.first_holds s'.
Proof.
  destruct (write_lock_discipline WriteLock.two_writers ∅ WriteLock.first_holds
              two_writers_apart first_holds_reachable) as (_ & Hblock & Hfile).
  split.
  - apply (Hfile 1%nat {| WriteLock.job_path := "BusStops.csv";
                          WriteLock.job_lines := ["stop_id,name"; "S1,Central"] |}).
    reflexivity.
  - apply (Hblock 1%nat 2%nat WriteLock.Opening); [lia|reflexivity|reflexivity|reflexivity].
Defined.

(** * Further properties of the code *)

(** ** [_nearest_neighbor_order] with a start index *)

Section StartIndexFacts.
Context {F : Type} {RT : PyRuntime F}.

(** The loop from any start index inside the list visits every index once,
    the start index first. *)
Lemma nn_run_shape (points : list (F * F)) (p0 : F * F) (start : nat) :
  (start < length points)%nat ->
  (exists suffix,
     nn_loop (length points) points p0
       (<[start := true]> (repeat false (length points))) [start] = start :: suffix)
  /\ nn_loop (length points) points p0
       (<[start := true]> (repeat false (length points))) [start]
     ≡ₚ seq O (length points).
Proof.
  intros Hlt.
  destruct (nn_loop_shape points p0 (length points)
              (<[start := true]> (repeat false (length points))) [start])
    as ((used' & _ & Hnd & Hbound & _) & Hlen & sfx & Hsfx).
  - apply nn_inv_start. exact Hlt.
  - simpl. lia.
  - split; [exists sfx; exact Hsfx|].
    apply order_is_permutation; assumption.
Qed.

Lemma nn_start_unfold (p0 : F * F) (tl : list (F * F)) (start_index : option Z) :
  _nearest_neighbor_order (p0 :: tl) start_index
  = map (fun i => nth i (p0 :: tl) p0)
        (nn_loop (length (p0 :: tl)) (p0 :: tl) p0
           (<[nn_start (p0 :: tl) p0 start_index := true]>
              (repeat false (length (p0 :: tl))))
           [nn_start (p0 :: tl) p0 start_index]).
Proof. destruct start_index; reflexivity. Qed.

Lemma nn_start_in_range (p0 : F * F) (tl : list (F * F)) (start_index : option Z) :
  (nn_start (p0 :: tl) p0 start_index < length (p0 :: tl))%nat.
Proof.
  unfold nn_start.
  destruct (start_index_some (p0 :: tl) p0) as (best & Hbest & Hlt); [discriminate|].
  rewrite Hbest. cbn [default from_option].
  destruct start_index as [z|]; [|exact Hlt].
  destruct (Z.leb_spec 0 z); cbn [andb]; [|exact Hlt].
  destruct (Z.ltb_spec z (Z.of_nat (length (p0 :: tl)))); [|exact Hlt].
  lia.
Qed.
End StartIndexFacts.



(** ** The resolver holds declared edges only *)

Section ResolverSoundness.
Context {F : Type} {RT : PyRuntime F}.

Lemma only_edges_link (Q : string -> string -> Prop) (st : mappings) (s r : string) :
  only_edges Q st -> Q s r -> only_edges Q (link st s r).
Proof.
  intros Hst HQ s' r'. unfold link. simpl. rewrite !members_add_edge.
  destruct (Hst s' r') as [H1 H2]. split; intros H; case_decide; subst.
  - apply elem_of_union in H as [H | H]; [|auto].
    apply elem_of_singleton in H as ->. exact HQ.
  - auto.
  - apply elem_of_union in H as [H | H]; [|auto].
    apply elem_of_singleton in H as ->. exact HQ.
  - auto.
Qed.

Lemma only_edges_foldl {A : Type} (Q : string -> string -> Prop)
    (keep_ : A -> bool) (a b : A -> string) (l : list A) (st : mappings) :
  only_edges Q st ->
  (forall x, x ∈ l -> keep_ x = true -> Q (a x) (b x)) ->
  only_edges Q (foldl (fun st x => if keep_ x then link st (a x) (b x) else st) st l).
Proof.
  revert st. induction l as [|y l IH]; intros st Hst HQ; simpl; [exact Hst|].
  apply IH.
  - destruct (keep_ y) eqn:E; [|exact Hst].
    apply only_edges_link; [exact Hst|]. apply HQ; [left|exact E].
  - intros x Hx. apply HQ. right. exact Hx.
Qed.

Lemma only_edges_rows (Q : string -> string -> Prop)
    (scan : mappings -> row F -> mappings) (rows : list (row F)) :
  (forall st r, r ∈ rows -> only_edges Q st -> only_edges Q (scan st r)) ->
  forall st, only_edges Q st -> only_edges Q (foldl scan st rows).
Proof.
  induction rows as [|r rows IH]; intros Hscan st Hst; simpl; [exact Hst|].
  apply IH.
  - intros st' r' Hr'. apply Hscan. right. exact Hr'.
  - apply Hscan; [left|exact Hst].
Qed.

Lemma only_edges_empty (Q : string -> string -> Prop) :
  only_edges Q ((∅, ∅) : mappings).
Proof.
  intros s r. unfold members. simpl. rewrite !lookup_empty. simpl.
  split; intros H; inversion H.
Qed.

Lemma load_mappings_only_declared (bs_rows rt_rows : list (row F)) :
  only_edges (declared_edge bs_rows rt_rows)
    (_load_stop_route_mappings bs_rows rt_rows).
Proof.
  unfold _load_stop_route_mappings.
  apply only_edges_rows; [|apply only_edges_rows; [|apply only_edges_empty]].
  - intros st r Hr Hst. unfold scan_route_row.
    destruct (nonempty (route_id_of r)) eqn:E; [|exact Hst].
    apply (only_edges_foldl _ (fun sid => nonempty (strip sid)) strip
             (fun _ => route_id_of r)); [exact Hst|].
    intros sid Hsid Hne. right. exists r. split; [exact Hr|].
    split; [reflexivity|]. split; [exact E|]. exists sid. auto.
  - intros st b Hb Hst. unfold scan_stop_row.
    destruct (nonempty (stop_id_of b)) eqn:E; [|exact Hst].
    apply (only_edges_foldl _ (fun rid => nonempty (strip rid))
             (fun _ => stop_id_of b) strip); [exact Hst|].
    intros rid Hrid Hne. left. exists b. split; [exact Hb|].
    split; [reflexivity|]. split; [exact E|]. exists rid. auto.
Qed.

Lemma declared_edge_present (bs_rows rt_rows : list (row F)) (s r : string) :
  declared_edge bs_rows rt_rows s r ->
  r ∈ members (_load_stop_route_mappings bs_rows rt_rows).1 s.
Proof.
  unfold _load_stop_route_mappings.
  assert (Hmono_s : forall (x : row F) st st',
             stop_declares x st -> grows st st' -> stop_declares x st').
  { intros x st st' Hd Hg Hne rid Hin Hrid.
    destruct (Hd Hne rid Hin Hrid) as [H1 H2]. split; apply Hg; assumption. }
  assert (Hmono_r : forall (x : row F) st st',
             route_declares x st -> grows st st' -> route_declares x st').
  { intros x st st' Hd Hg Hne sid Hin Hsid.
    destruct (Hd Hne sid Hin Hsid) as [H1 H2]. split; apply Hg; assumption. }
  destruct (foldl_rows scan_stop_row stop_declares
              (fun st x => proj1 (scan_stop_row_spec st x))
              (fun st x => proj1 (proj2 (scan_stop_row_spec st x)))
              (fun st x => proj2 (proj2 (scan_stop_row_spec st x)))
              Hmono_s bs_rows (∅, ∅)) as (_ & _ & Hs3).
  destruct (foldl_rows scan_route_row route_declares
              (fun st x => proj1 (scan_route_row_spec st x))
              (fun st x => proj1 (proj2 (scan_route_row_spec st x)))
              (fun st x => proj2 (proj2 (scan_route_row_spec st x)))
              Hmono_r rt_rows (foldl scan_stop_row (∅, ∅) bs_rows))
    as (_ & Hr2 & Hr3).
  intros [(b & Hb & <- & Hne & rid & Hrid & <- & Hner)
         | (rt & Hrt & <- & Hne & sid & Hsid & <- & Hnes)].
  - apply Hr2. apply (Hs3 b Hb Hne rid Hrid Hner).
  - apply (Hr3 rt Hrt Hne sid Hsid Hnes).
Qed.

Lemma declared_edge_clean (bs_rows rt_rows : list (row F)) (s r : string) :
  declared_edge bs_rows rt_rows s r ->
  nonempty s = true /\ strip s = s /\ nonempty r = true /\ strip r = r.
Proof.
  intros [(b & _ & <- & Hne & rid & _ & <- & Hner)
         | (rt & _ & <- & Hne & sid & _ & <- & Hnes)].
  - repeat split; try assumption; [apply strip_idem | apply strip_idem].
  - repeat split; try assumption; [apply strip_idem | apply strip_idem].
Qed.
End ResolverSoundness.

(** X2: the mappings of [_load_stop_route_mappings] hold exactly the edges
    that some stop row or some route row declares, and every stop id and
    route id in them is non-empty and free of surrounding whitespace. *)
Theorem load_mappings_exact {F : Type} {RT : PyRuntime F}
    (bs_rows rt_rows : list (row F)) (s r : string) :
  (r ∈ members (_load_stop_route_mappings bs_rows rt_rows).1 s
   <-> declared_edge bs_rows rt_rows s r)
  /\ (s ∈ members (_load_stop_route_mappings bs_rows rt_rows).2 r
      <-> declared_edge bs_rows rt_rows s r)
  /\ (r ∈ members (_load_stop_route_mappings bs_rows rt_rows).1 s ->
      nonempty s = true /\ strip s = s /\ nonempty r = true /\ strip r = r).
Proof.
  destruct (load_mappings_only_declared bs_rows rt_rows s r) as [H1 H2].
  assert (Hsym : symmetric (_load_stop_route_mappings bs_rows rt_rows)).
  { unfold _load_stop_route_mappings.
    assert (Hs : forall rows st, symmetric st ->
                   symmetric (foldl scan_stop_row st rows)).
    { induction rows as [|x rows IH]; intros st Hst; simpl; [exact Hst|].
      apply IH, (proj1 (scan_stop_row_spec st x)), Hst. }
    assert (Hr : forall rows st, symmetric st ->
                   symmetric (foldl scan_route_row st rows)).
    { induction rows as [|x rows IH]; intros st Hst; simpl; [exact Hst|].
      apply IH, (proj1 (scan_route_row_spec st x)), Hst. }
    apply Hr, Hs, symmetric_empty. }
  split; [|split].
  - split; [exact H1|apply declared_edge_present].
  - split; [exact H2|]. intros H. apply Hsym, declared_edge_present, H.
  - intros H. apply (declared_edge_clean bs_rows rt_rows), H1, H.
Qed.

Lemma load_mappings_exact_witness :
  "R1" ∈ members (_load_stop_route_mappings (RT := Ref.runtime)
                    [[("stop_id", PyStr " S1 "); ("routes", PyStr "[' R1 ']")]] []).1
                 "S1".
Proof.
  apply (proj2 (proj1 (load_mappings_exact (RT := Ref.runtime)
                         [[("stop_id", PyStr " S1 "); ("routes", PyStr "[' R1 ']")]] []
                         "S1" "R1"))).
  left. eexists. split; [left|].
  split; [vm_compute; reflexivity|]. split; [reflexivity|].
  exists "R1". split; [vm_compute; left|]. split; reflexivity.
Defined.

(** ** The three sources of [_collect_route_stop_ids] *)

Section TokenFacts.
Context {F : Type} {RT : PyRuntime F}.

Lemma re_split_runs_pieces (sep : ascii -> bool) (s : string) (in_run : bool) :
  Forall (fun t => all_chars (fun a => negb (sep a)) t = true)
         (re_split_runs sep in_run s).
Proof.
  revert in_run. induction s as [|a s IH]; intros in_run; simpl.
  - repeat constructor.
  - destruct (sep a) eqn:E.
    + destruct in_run; [apply IH|]. constructor; [reflexivity|apply IH].
    + specialize (IH false). destruct (re_split_runs sep false s) as [|h t].
      * repeat constructor. simpl. rewrite E. reflexivity.
      * inversion IH as [|? ? Hh Ht]; subst. constructor; [|exact Ht].
        simpl. rewrite E, Hh. reflexivity.
Qed.

Lemma all_chars_ext (f g : ascii -> bool) (s : string) :
  (forall a, f a = g a) -> all_chars f s = all_chars g s.
Proof. intros H. induction s as [|a s IH]; simpl; [reflexivity|]. rewrite H, IH. reflexivity. Qed.

(** A token of a text field consists of word characters. *)
Lemma text_tokens_words (raw : pyval F) (t : string) :
  is_list raw = false -> t ∈ row_tokens raw -> all_chars is_word_char t = true.
Proof.
  intros Hraw Ht.
  assert (Hgen : forall sstr, t ∈ filter (fun t => nonempty t = true)
                                  (re_split_nonword (unbracket sstr)) ->
                              all_chars is_word_char t = true).
  { intros sstr H. apply list_elem_of_filter in H as [_ H].
    pose proof (re_split_runs_pieces (fun a => negb (is_word_char a))
                  (unbracket sstr) false) as Hall.
    rewrite Forall_forall in Hall. specialize (Hall t H).
    rewrite <- Hall. apply all_chars_ext. intros a. rewrite negb_involutive. reflexivity. }
  destruct raw; try discriminate; simpl in Ht; eapply Hgen; exact Ht.
Qed.

Lemma str_in_elem (x : string) (l : list string) : str_in x l = true <-> x ∈ l.
Proof.
  unfold str_in. rewrite existsb_exists, list_elem_of_In. split.
  - intros (y & Hy & Heq). apply String.eqb_eq in Heq as ->. exact Hy.
  - intros H. exists x. split; [exact H|apply String.eqb_refl].
Qed.

Lemma scan_extra_elem (rid : string) (stops_rows : list (row F)) (e : string) :
  e ∈ scan_extra rid stops_rows
  <-> exists srow, srow ∈ stops_rows /\ stop_id_of srow = e /\ scan_matches rid srow.
Proof.
  unfold scan_extra, scan_matches. rewrite list_elem_of_In, in_flat_map. split.
  - intros (srow & Hin & He). exists srow. split; [apply list_elem_of_In, Hin|].
    destruct (nonempty (stop_id_of srow)) eqn:E1; [|inversion He].
    destruct (nonempty rid) eqn:E2; [|inversion He]. simpl in He.
    destruct (str_in rid (row_tokens (dict_get srow "routes"))) eqn:E3; [|inversion He].
    destruct He as [He | []]. auto.
  - intros (srow & Hin & He & E1 & E2 & E3). exists srow.
    split; [apply list_elem_of_In, Hin|]. rewrite E1, E2, E3. simpl. left. exact He.
Qed.
End TokenFacts.

(** X3: the result of [_collect_route_stop_ids] is exactly the union of its
    three sources: the declared stops stripped of whitespace, the resolver's
    entry, and the ids of the stop rows whose raw [routes] field names the
    route id as a token.  A route id with a character outside
    [A-Za-z0-9_], a hyphen for one, is never found by that scan in a text
    field. *)
Theorem collect_three_sources {F : Type} {RT : PyRuntime F}
    (rid : string) (route_row : row F) (stops_rows : list (row F))
    (route_to_stops : gmap string (gset string)) (e : string) :
  (e ∈ _collect_route_stop_ids rid route_row stops_rows route_to_stops
   <-> (exists t, t ∈ _parse_list (py_or (dict_get route_row "stops") (PyStr "[]"))
                  /\ strip t = e /\ nonempty e = true)
       \/ e ∈ members route_to_stops rid
       \/ (exists srow, srow ∈ stops_rows /\ stop_id_of srow = e
                        /\ scan_matches rid srow))
  /\ (all_chars is_word_char rid = false ->
      forall srow, is_list (dict_get srow "routes") = false ->
                   ~ scan_matches rid srow).
Proof.
  split.
  - unfold _collect_route_stop_ids. rewrite elem_of_sorted_ids. unfold collected_set.
    rewrite !elem_of_union, !elem_of_list_to_set, scan_extra_elem, list_elem_of_filter.
    split.
    + intros [[[Hne H] | H] | H]; [left|right; left; exact H|right; right; exact H].
      apply list_elem_of_In, in_map_iff in H as (t & <- & Ht).
      exists t. split; [apply list_elem_of_In, Ht|]. split; [reflexivity|exact Hne].
    + intros [(t & Ht & <- & Hne) | [H | H]];
        [left; left|left; right; exact H|right; exact H].
      split; [exact Hne|]. apply list_elem_of_In, in_map, list_elem_of_In, Ht.
  - intros Hrid srow Hraw (_ & _ & Hin). apply str_in_elem in Hin.
    rewrite (text_tokens_words _ _ Hraw Hin) in Hrid. discriminate.
Qed.

Lemma collect_three_sources_witness :
  "S7" ∈ _collect_route_stop_ids (RT := Ref.runtime) "R1" [] 
          [[("stop_id", PyStr "S7"); ("routes", PyStr "R1; R2")]] ∅
  /\ ~ scan_matches (RT := Ref.runtime) "R-1"
         [("stop_id", PyStr "S7"); ("routes", PyStr "R-1; R2")].
Proof.
  split.
  - apply (proj1 (collect_three_sources (RT := Ref.runtime) "R1" []
                    [[("stop_id", PyStr "S7"); ("routes", PyStr "R1; R2")]] ∅ "S7")).
    right. right. eexists. split; [left|]. split; [reflexivity|].
    repeat split; vm_compute; reflexivity.
  - apply (proj2 (collect_three_sources (RT := Ref.runtime) "R-1" [] [] ∅ "S7"));
      reflexivity.
Defined.

(** ** Writing a table and reading it back *)

Section RoundTripFacts.
Context {F : Type} {RT : PyRuntime F}.

Lemma dict_get_find (d : row F) (k : string) :
  dict_get d k = from_option id PyNone (dict_find d k).
Proof.
  induction d as [|[k0 v0] d IH]; simpl; [reflexivity|].
  destruct (String.eqb k k0); [reflexivity|exact IH].
Qed.

(** Reading a line whose cells were computed field by field. *)
Lemma read_row_cells (f : string -> string) (fields : list string) (d : row F)
    (k : string) :
  dict_find (foldl (fun d kc => dict_set d kc.1 (PyStr kc.2)) d
               (zip fields (map f fields))) k
  = if decide (k ∈ fields) then Some (PyStr (f k)) else dict_find d k.
Proof.
  revert d. induction fields as [|x fields IH]; intros d; simpl.
  - destruct (decide (k ∈ [])) as [H|_]; [inversion H|reflexivity].
  - rewrite IH. destruct (decide (k ∈ fields)) as [Hin|Hnin].
    + rewrite decide_True by (right; exact Hin). reflexivity.
    + rewrite dict_find_set. destruct (String.eqb_spec k x) as [-> | Hne].
      * rewrite decide_True by left. reflexivity.
      * rewrite decide_False; [reflexivity|].
        intros H. apply elem_of_cons in H as [H | H]; contradiction.
Qed.

Lemma read_written_row (r : row F) (fields : list string) (k : string) :
  dict_get (read_row fields (map (written_cell r) fields)) k
  = if decide (k ∈ fields) then PyStr (written_cell r k) else (PyNone : pyval F).
Proof.
  rewrite dict_get_find. unfold read_row. rewrite read_row_cells.
  destruct (decide (k ∈ fields)); reflexivity.
Qed.

Lemma read_after_write (st : store) (path : string) (rows : list (row F))
    (fields : list string) :
  _read_csv (F := F) (_write_csv st path rows fields) path
  = map (fun r => read_row fields (map (written_cell r) fields)) rows.
Proof.
  unfold _read_csv, _write_csv, store. rewrite lookup_insert_eq.
  rewrite map_map. reflexivity.
Qed.

Lemma canonical_in_merged (rows : list (row F)) (c : string) :
  c ∈ BUS_STOPS_FIELDS -> c ∈ merged_fieldnames BUS_STOPS_FIELDS rows.
Proof.
  intros Hc. unfold merged_fieldnames. destruct rows as [|r0 rows']; [exact Hc|].
  apply (extend_fields BUS_STOPS_FIELDS (existing_fields (r0 :: rows'))), Hc.
Qed.
End RoundTripFacts.





(** X6: after [delete_all_stops] the table has the canonical header and no
    rows: [delete_stop] answers 404 for every id, and the next [add_stop]
    succeeds and writes exactly the canonical header. *)
Theorem delete_all_then {F : Type} {RT : PyRuntime F} (st : store) :
  _read_csv (F := F) (delete_all_stops st) stops_path = []
  /\ stops_header (delete_all_stops st) = Some BUS_STOPS_FIELDS
  /\ (forall stop_id,
        delete_stop (F := F) (RT := RT) (delete_all_stops st) stop_id
        = inl (HTTPException 404 "No stops found"))
  /\ (forall stop,
        exists st', add_stop (delete_all_stops st) stop = inr st'
                    /\ stops_header st' = Some BUS_STOPS_FIELDS
                    /\ stops_line_count st' = Some 1%nat).
Proof.
  assert (Hread : _read_csv (F := F) (delete_all_stops st) stops_path = []).
  { unfold delete_all_stops. rewrite read_after_write. reflexivity. }
  split; [exact Hread|]. split; [|split].
  - unfold delete_all_stops, stops_header, _write_csv, store.
    rewrite lookup_insert_eq. reflexivity.
  - intros stop_id. unfold delete_stop. rewrite Hread. reflexivity.
  - intros stop. unfold add_stop. rewrite Hread. simpl. eexists.
    split; [reflexivity|].
    unfold stops_header, stops_line_count, _write_csv, store.
    rewrite !lookup_insert_eq. split; reflexivity.
Qed.

(** ** The validators *)

Lemma id_char_not_space (a : ascii) : is_id_char a = true -> py_isspace a = false.
Proof. destruct a as [[] [] [] [] [] [] [] []]; vm_compute; congruence. Qed.

Lemma rstrip_by_clean (f : ascii -> bool) (s : string) :
  all_chars (fun a => negb (f a)) s = true -> rstrip_by f s = s.
Proof.
  induction s as [|a s IH]; simpl; [reflexivity|].
  intros H. apply andb_prop in H as [Ha Hs]. rewrite (IH Hs).
  destruct s; [|reflexivity].
  apply negb_true_iff in Ha. rewrite Ha. reflexivity.
Qed.

Lemma all_chars_impl (f g : ascii -> bool) (s : string) :
  (forall a, f a = true -> g a = true) ->
  all_chars f s = true -> all_chars g s = true.
Proof.
  intros Hfg. induction s as [|a s IH]; simpl; [reflexivity|].
  intros H. apply andb_prop in H as [Ha Hs].
  rewrite (Hfg a Ha), (IH Hs). reflexivity.
Qed.

Lemma strip_id_chars (s : string) : all_chars is_id_char s = true -> strip s = s.
Proof.
  intros H. unfold strip, strip_by.
  rewrite lstrip_by_fixed.
  - apply rstrip_by_clean. revert H. apply all_chars_impl.
    intros a Ha. rewrite (id_char_not_space a Ha). reflexivity.
  - destruct s as [|a s]; simpl; [exact I|].
    simpl in H. apply andb_prop in H as [Ha _]. apply id_char_not_space, Ha.
Qed.

Lemma id_regex_of_id_chars (s : string) :
  all_chars is_id_char s = true -> nonempty s = true -> id_regex_match s = true.
Proof.
  induction s as [|a s IH]; [discriminate|].
  intros H _. simpl in H. apply andb_prop in H as [Ha Hs].
  simpl. rewrite Ha. simpl.
  destruct s as [|b [|c s]]; [reflexivity| |].
  - simpl in Hs. apply andb_prop in Hs as [Hb _]. rewrite Hb. apply orb_true_r.
  - apply IH; [exact Hs|reflexivity].
Qed.

(** The dollar of the pattern also matches before a final newline, which
    a stripped text does not have. *)
Lemma id_chars_of_id_regex (s : string) :
  id_regex_match s = true -> rstrip_by py_isspace s = s ->
  all_chars is_id_char s = true.
Proof.
  induction s as [|a s IH]; [discriminate|].
  intros Hm Hs.
  change (id_regex_match (String a s)) with
    (is_id_char a &&
     match s with
     | EmptyString => true
     | String b EmptyString => Ascii.eqb b "010"%char || is_id_char b
     | _ => id_regex_match s
     end) in Hm.
  apply andb_prop in Hm as [Ha Hm].
  change (all_chars is_id_char (String a s)) with
    (is_id_char a && all_chars is_id_char s).
  rewrite Ha. simpl.
  destruct s as [|b [|c s]]; [reflexivity| |].
  - simpl. rewrite andb_true_r.
    apply orb_prop in Hm as [Hb | Hb]; [|exact Hb].
    apply Ascii.eqb_eq in Hb. subst b. simpl in Hs.
    destruct (py_isspace a); discriminate.
  - apply IH; [exact Hm|].
    change (rstrip_by py_isspace (String a (String b (String c s)))) with
      (match rstrip_by py_isspace (String b (String c s)) with
       | EmptyString => if py_isspace a then EmptyString else String a EmptyString
       | r => String a r
       end) in Hs.
    destruct (rstrip_by py_isspace (String b (String c s))) as [|b' r'].
    + destruct (py_isspace a); discriminate.
    + injection Hs as -> ->. reflexivity.
Qed.

Lemma strip_rstrip_fixed (s : string) :
  strip s = s -> id_regex_match s = true -> rstrip_by py_isspace s = s.
Proof.
  intros Hs Hm. unfold strip, strip_by in Hs.
  rewrite lstrip_by_fixed in Hs; [exact Hs|].
  destruct s as [|a s]; [exact I|]. simpl.
  simpl in Hm. apply andb_prop in Hm as [Ha _]. apply id_char_not_space, Ha.
Qed.

Lemma nonempty_length (s : string) : nonempty s = true <-> (1 <= String.length s)%nat.
Proof. destruct s; simpl; split; intros; try discriminate; try lia; reflexivity. Qed.

Lemma validate_stop_id_spec {F : Type} {RT : PyRuntime F}
    (v : pyval F) (sid : string) :
  validate_stop_id v = inr sid ->
  truthy v = true /\ sid = strip (py_str v)
  /\ (1 <= String.length sid <= 50)%nat
  /\ all_chars is_id_char sid = true.
Proof.
  unfold validate_stop_id. intros H.
  destruct (truthy v) eqn:Ht; [|discriminate]. simpl in H.
  destruct (nonempty (strip (py_str v))) eqn:Hne; [|discriminate]. simpl in H.
  destruct (Nat.ltb_spec 50 (String.length (strip (py_str v)))) as [|Hle];
    [discriminate|].
  destruct (id_regex_match (strip (py_str v))) eqn:Hm; [|discriminate].
  simpl in H. injection H as <-.
  split; [reflexivity|]. split; [reflexivity|]. split.
  - split; [apply nonempty_length, Hne|exact Hle].
  - apply id_chars_of_id_regex; [exact Hm|].
    apply strip_rstrip_fixed; [apply strip_idem|exact Hm].
Qed.

(** X7: [validate_stop_id] accepts a value exactly when it is truthy and
    its stripped text has between 1 and 50 characters, all of them letters,
    digits, hyphens or underscores; it returns that text, and accepts what
    it returned unchanged. *)
Theorem validate_stop_id_accepts {F : Type} {RT : PyRuntime F}
    (v : pyval F) (sid : string) :
  (validate_stop_id v = inr sid
   <-> truthy v = true /\ sid = strip (py_str v)
       /\ (1 <= String.length sid <= 50)%nat
       /\ all_chars is_id_char sid = true)
  /\ (validate_stop_id v = inr sid -> validate_stop_id (PyStr sid) = inr sid).
Proof.
  assert (Hback : forall (w : pyval F) s,
             truthy w = true -> s = strip (py_str w) ->
             (1 <= String.length s <= 50)%nat -> all_chars is_id_char s = true ->
             validate_stop_id w = inr s).
  { intros w s Ht -> [Hlo Hhi] Hall. unfold validate_stop_id.
    rewrite Ht. simpl.
    rewrite (proj2 (nonempty_length _) Hlo). simpl.
    destruct (Nat.ltb_spec 50 (String.length (strip (py_str w)))) as [Hlt|_]; [lia|].
    rewrite id_regex_of_id_chars; [reflexivity|exact Hall|].
    apply nonempty_length, Hlo. }
  assert (Hfwd : validate_stop_id v = inr sid ->
                 truthy v = true /\ sid = strip (py_str v)
                 /\ (1 <= String.length sid <= 50)%nat
                 /\ all_chars is_id_char sid = true).
  { apply validate_stop_id_spec. }
  split; [split|].
  - exact Hfwd.
  - intros (Ht & Hs & Hlen & Hall). apply Hback; assumption.
  - intros H. destruct (Hfwd H) as (_ & _ & Hlen & Hall).
    apply Hback; [|symmetry; apply strip_id_chars, Hall|exact Hlen|exact Hall].
    simpl. apply nonempty_length, Hlen.
Qed.

Lemma validate_stop_id_accepts_witness :
  validate_stop_id (RT := Ref.runtime) (PyStr "  STOP_001 ") = inr "STOP_001"
  /\ validate_stop_id (RT := Ref.runtime) (PyStr "STOP_001") = inr "STOP_001".
Proof.
  assert (H : validate_stop_id (RT := Ref.runtime) (PyStr "  STOP_001 ")
              = inr "STOP_001") by (vm_compute; reflexivity).
  split; [exact H|].
  exact (proj2 (validate_stop_id_accepts (RT := Ref.runtime)
                  (PyStr "  STOP_001 ") "STOP_001") H).
Defined.

(** ** One submitted item of [import_stops] *)

Section ItemFacts.
Context {F : Type} {RT : PyRuntime F}.

Lemma validate_name_accepts (v : pyval F) (field name : string) :
  validate_name v field = inr name ->
  strip name = name /\ (1 <= String.length name <= 200)%nat.
Proof.
  unfold validate_name. intros H.
  destruct (truthy v); [|discriminate]. simpl in H.
  destruct (nonempty (strip (py_str v))) eqn:Hne; [|discriminate]. simpl in H.
  destruct (Nat.ltb_spec 200 (String.length (strip (py_str v)))) as [|Hle];
    [discriminate|].
  injection H as <-. split; [apply strip_idem|].
  split; [apply nonempty_length, Hne|exact Hle].
Qed.

Lemma validate_coordinates_accepts (lat_raw lon_raw : pyval F) (lat lon : F) :
  validate_coordinates lat_raw lon_raw = inr (lat, lon) ->
  py_float lat_raw = Some lat /\ py_float lon_raw = Some lon
  /\ f_leb (f_of_Z (-90)) lat = true /\ f_leb lat (f_of_Z 90) = true
  /\ f_leb (f_of_Z (-180)) lon = true /\ f_leb lon (f_of_Z 180) = true.
Proof.
  unfold validate_coordinates. intros H.
  destruct (py_float lat_raw) as [lat_f|]; [|discriminate].
  destruct (py_float lon_raw) as [lon_f|]; [|discriminate].
  destruct (f_leb (f_of_Z (-90)) lat_f && f_leb lat_f (f_of_Z 90)) eqn:E1;
    [|discriminate].
  destruct (f_leb (f_of_Z (-180)) lon_f && f_leb lon_f (f_of_Z 180)) eqn:E2;
    [|discriminate].
  simpl in H. injection H as <- <-.
  apply andb_prop in E1 as [? ?]. apply andb_prop in E2 as [? ?].
  repeat split; assumption.
Qed.

Lemma py_or_none (a b : pyval F) :
  truthy a = false -> py_or a b = b.
Proof. unfold py_or. intros ->. reflexivity. Qed.
End ItemFacts.

(** X8: an item whose [latitude] and [lat] are falsy (the number 0, as on
    the equator, or an empty text) and which has no [stop_lat] is refused
    as having no latitude, whatever its longitude; so is an item with such
    a longitude.  The id and the name are validated first. *)
Theorem import_item_zero_is_missing {F : Type} {RT : PyRuntime F}
    (i : nat) (o : row F) (sid name : string) :
  validate_stop_id (py_or (dict_get o "stop_id") (dict_get o "id")) = inr sid ->
  validate_name (py_or (dict_get o "name") (dict_get o "stop_name")) "stop name"
  = inr name ->
  (truthy (dict_get o "latitude") = false /\ truthy (dict_get o "lat") = false
   /\ dict_get o "stop_lat" = PyNone)
  \/ (truthy (dict_get o "longitude") = false /\ truthy (dict_get o "lon") = false
      /\ dict_get o "stop_lon" = PyNone) ->
  import_item i (PyDict o)
  = inl ("Row " +:+ pretty (S i) +:+ " (stop_id: " +:+ sid
         +:+ "): Missing latitude or longitude").
Proof.
  intros Hsid Hname Hzero. unfold import_item. rewrite Hsid, Hname.
  destruct Hzero as [(H1 & H2 & H3) | (H1 & H2 & H3)].
  - rewrite (py_or_none (dict_get o "latitude")) by exact H1.
    rewrite (py_or_none (dict_get o "lat")) by exact H2.
    rewrite H3. reflexivity.
  - rewrite (py_or_none (dict_get o "longitude")) by exact H1.
    rewrite (py_or_none (dict_get o "lon")) by exact H2.
    rewrite H3. simpl. rewrite orb_true_r. reflexivity.
Qed.

Lemma import_item_zero_is_missing_witness :
  import_item (RT := Ref.runtime) O
    (PyDict [("stop_id", PyStr "EQ1"); ("name", PyStr "Equator");
             ("latitude", PyInt 0); ("longitude", PyFloat (77 # 1)%Q)])
  = inl "Row 1 (stop_id: EQ1): Missing latitude or longitude".
Proof.
  rewrite (import_item_zero_is_missing (RT := Ref.runtime) O
             [("stop_id", PyStr "EQ1"); ("name", PyStr "Equator");
              ("latitude", PyInt 0); ("longitude", PyFloat (77 # 1)%Q)]
             "EQ1" "Equator")
    by (vm_compute; auto).
  vm_compute. reflexivity.
Defined.

(** X9: a row that [import_stops] stores for a submitted item has exactly
    the six canonical fields in their order; its [stop_id] is the key it
    is stored under and is a clean id of at most 50 characters, its name
    is stripped and has 1 to 200 characters, its coordinates are the six
    decimals of numbers within the bounds, and its accessibility is the
    text True or False. *)
Theorem import_item_row {F : Type} {RT : PyRuntime F}
    (i : nat) (obj : pyval F) (sid : string) (r : row F) :
  import_item i obj = inr (sid, r) ->
  dict_keys r = BUS_STOPS_FIELDS
  /\ dict_get r "stop_id" = PyStr sid
  /\ ((1 <= String.length sid <= 50)%nat /\ all_chars is_id_char sid = true)
  /\ (exists name, dict_get r "name" = PyStr name /\ strip name = name
                   /\ (1 <= String.length name <= 200)%nat)
  /\ (exists lat lon,
        dict_get r "latitude" = PyStr (fmt6 lat)
        /\ dict_get r "longitude" = PyStr (fmt6 lon)
        /\ f_leb (f_of_Z (-90)) lat = true /\ f_leb lat (f_of_Z 90) = true
        /\ f_leb (f_of_Z (-180)) lon = true /\ f_leb lon (f_of_Z 180) = true)
  /\ (exists l, dict_get r "routes" = PyStr (json_dumps_strs l))
  /\ (dict_get r "accessibility" = PyStr "True"
      \/ dict_get r "accessibility" = PyStr "False").
Proof.
  unfold import_item. intros H.
  destruct obj as [| | | | | | |o]; try discriminate.
  destruct (validate_stop_id _) as [[c d]|sid'] eqn:Hsid; [discriminate|].
  destruct (validate_name _ _) as [[c d]|name] eqn:Hname; [discriminate|].
  destruct (is_none _ || is_none _); [discriminate|].
  destruct (validate_coordinates _ _) as [[c d]|[lat lon]] eqn:Hco; [discriminate|].
  injection H as <- <-.
  apply validate_stop_id_spec in Hsid as (_ & _ & Hlen & Hall).
  apply validate_name_accepts in Hname as [Hstrip Hnlen].
  apply validate_coordinates_accepts in Hco as (_ & _ & B1 & B2 & B3 & B4).
  split; [reflexivity|]. split; [reflexivity|]. split; [split; assumption|].
  split; [exists name; repeat split; try assumption; lia|].
  split; [exists lat, lon; repeat split; assumption|].
  split; [eexists; reflexivity|].
  simpl. unfold bool_text. destruct (_norm_bool _ _); [left|right]; reflexivity.
Qed.

Lemma import_item_row_witness :
  exists r, import_item (RT := Ref.runtime) O Sample.valid_stop = inr ("S1", r)
            /\ dict_keys r = BUS_STOPS_FIELDS
            /\ dict_get r "stop_id" = PyStr "S1".
Proof.
  assert (H : exists r, import_item (RT := Ref.runtime) O Sample.valid_stop
                        = inr ("S1", r))
    by (eexists; vm_compute; reflexivity).
  destruct H as [r H]. exists r. split; [exact H|].
  pose proof (import_item_row (RT := Ref.runtime) O Sample.valid_stop "S1" r H)
    as (Hk & Hi & _).
  split; [exact Hk|exact Hi].
Defined.

(** ** [import_stops] as a whole *)

Section ImportWhole.
Context {F : Type} {RT : PyRuntime F}.

Lemma import_stops_cases (st : store) (data : list (pyval F)) (mode : string)
    (out : http_error + import_result) (st' : store) :
  import_stops st data mode = (out, st') ->
  (exists e, out = inl e /\ st' = st)
  \/ (str_in mode ["replace"; "append"] = true
      /\ (2 * length (errors_of (item_outcomes O data)) <= length data)%nat
      /\ out = inr {| imported := length data;
                      saved := length (final_keep (import_base st mode) data);
                      processed := length (valid_of (item_outcomes O data));
                      warnings := match errors_of (item_outcomes O data) with
                                  | [] => None
                                  | _ => Some (take 10 (errors_of (item_outcomes O data)))
                                  end |}
      /\ st' = _write_csv st stops_path
                 (map snd (final_keep (import_base st mode) data))
                 (import_fieldnames BUS_STOPS_FIELDS (import_base st mode))).
Proof.
  intros H. destruct (str_in mode ["replace"; "append"]) eqn:Hmode.
  - rewrite import_stops_unfold in H by exact Hmode.
    destruct (Nat.ltb_spec (length data)
                (2 * length (errors_of (item_outcomes O data)))) as [Hlt|Hle].
    + injection H as <- <-. left. eexists. split; reflexivity.
    + injection H as <- <-. right. repeat split; try reflexivity. exact Hle.
  - unfold import_stops in H. rewrite Hmode in H. simpl in H.
    injection H as <- <-. left. eexists. split; reflexivity.
Qed.

Lemma store_all_length (kvs d : list (string * row F)) :
  (length d <= length (store_all d kvs) <= length d + length kvs)%nat.
Proof.
  revert d. induction kvs as [|[k r] kvs IH]; intros d; simpl; [lia|].
  specialize (IH (dict_set d k r)). rewrite dict_set_length in IH.
  unfold store_all in *. simpl.
  destruct (dict_find d k); lia.
Qed.

Lemma keyed_rows_length (existing : list (row F)) :
  (length (keyed_rows existing) <= length existing)%nat.
Proof.
  unfold keyed_rows. induction existing as [|r existing IH]; [simpl; lia|].
  cbn [omap list_omap]. destruct (truthy (dict_get r "stop_id")); cbn [length]; lia.
Qed.

Lemma final_keep_length (existing : list (row F)) (data : list (pyval F)) :
  (length (final_keep existing data)
   <= length existing + length (valid_of (item_outcomes O data)))%nat.
Proof.
  unfold final_keep. rewrite initial_keep_store_all.
  pose proof (store_all_length (valid_of (item_outcomes O data))
                (store_all [] (keyed_rows existing))) as [_ H1].
  pose proof (store_all_length (keyed_rows existing) []) as [_ H2].
  pose proof (keyed_rows_length existing). simpl in H2. lia.
Qed.
End ImportWhole.

(** X10: an import that is refused leaves every file as it was; one that
    succeeds changes the stops file only; and in replace mode the response
    and the stops file written do not depend on what the files held
    before, the header written being the canonical one. *)
Theorem import_stops_writes {F : Type} {RT : PyRuntime F}
    (st : store) (data : list (pyval F)) (mode : string) :
  (forall e st', import_stops st data mode = (inl e, st') -> st' = st)
  /\ (forall res st', import_stops st data mode = (inr res, st') ->
        forall path, path <> stops_path -> st' !! path = st !! path)
  /\ (forall res st' st2,
        import_stops st data "replace" = (inr res, st') ->
        exists st2', import_stops st2 data "replace" = (inr res, st2')
                     /\ st2' !! stops_path = st' !! stops_path
                     /\ stops_header st' = Some BUS_STOPS_FIELDS).
Proof.
  split; [|split].
  - intros e st' H. apply import_stops_cases in H as [(e' & _ & Hst) | (_ & _ & Hout & _)];
      [exact Hst|discriminate].
  - intros res st' H path Hne.
    apply import_stops_cases in H as [(e' & Hout & _) | (_ & _ & _ & ->)];
      [discriminate|].
    unfold _write_csv, store. rewrite lookup_insert_ne by congruence. reflexivity.
  - intros res st' st2 H.
    apply import_stops_cases in H as [(e' & Hout & _) | (_ & Hle & Hout & ->)];
      [discriminate|].
    injection Hout as ->.
    rewrite (import_stops_unfold st2 data "replace") by reflexivity.
    destruct (Nat.ltb_spec (length data)
                (2 * length (errors_of (item_outcomes O data)))) as [Hlt|_]; [lia|].
    eexists. split; [reflexivity|].
    unfold stops_header, _write_csv, store. rewrite !lookup_insert_eq.
    split; reflexivity.
Qed.

Lemma import_stops_writes_witness :
  exists res st',
    import_stops (RT := Ref.runtime) Sample.two_row_store [Sample.valid_stop] "replace"
    = (inr res, st')
    /\ (exists st2', import_stops (RT := Ref.runtime) ∅ [Sample.valid_stop] "replace"
                     = (inr res, st2')
                     /\ st2' !! stops_path = st' !! stops_path).
Proof.
  assert (H : exists res st',
             import_stops (RT := Ref.runtime) Sample.two_row_store
               [Sample.valid_stop] "replace" = (inr res, st'))
    by (eexists; eexists; vm_compute; reflexivity).
  destruct H as (res & st' & H). exists res, st'. split; [exact H|].
  destruct (proj2 (proj2 (import_stops_writes (RT := Ref.runtime)
                            Sample.two_row_store [Sample.valid_stop] "replace"))
              res st' ∅ H) as (st2' & H2 & Heq & _).
  exists st2'. split; [exact H2|exact Heq].
Defined.

(** X11: the counts of a successful import: [imported] is the number of
    submitted items, [processed] the number of those that validated, at
    most half of the items failed, [saved] is the number of lines written
    and is at most the rows read (none in replace mode) plus [processed],
    and there are warnings exactly when some item failed. *)
Theorem import_stops_counts {F : Type} {RT : PyRuntime F}
    (st st' : store) (data : list (pyval F)) (mode : string) (res : import_result) :
  import_stops st data mode = (inr res, st') ->
  imported res = length data
  /\ (processed res <= imported res)%nat
  /\ (2 * (imported res - processed res) <= imported res)%nat
  /\ stops_line_count st' = Some (saved res)
  /\ (saved res <= length (import_base (F := F) st mode) + processed res)%nat
  /\ (mode = "replace" -> saved res <= processed res)%nat
  /\ (warnings res = None <-> processed res = imported res).
Proof.
  intros H.
  apply import_stops_cases in H as [(e' & Hout & _) | (_ & Hle & Hout & ->)];
    [discriminate|].
  injection Hout as ->. cbn [imported processed saved warnings].
  pose proof (outcomes_count data O) as Hcount.
  pose proof (final_keep_length (import_base st mode) data) as Hlen.
  split; [reflexivity|]. split; [lia|]. split; [lia|]. split; [|split; [|split]].
  - unfold stops_line_count, _write_csv, store. rewrite lookup_insert_eq.
    simpl. rewrite !length_map. reflexivity.
  - exact Hlen.
  - intros ->. unfold import_base in Hlen. simpl in Hlen. exact Hlen.
  - destruct (errors_of (item_outcomes O data)) as [|e errs]; simpl in *; split;
      intros; try discriminate; try reflexivity; lia.
Qed.

Lemma import_stops_counts_witness :
  exists res st',
    import_stops (RT := Ref.runtime) Sample.two_row_store
      [Sample.valid_stop; Sample.polar_stop; Sample.valid_stop_2] "append"
    = (inr res, st')
    /\ imported res = 3%nat /\ (processed res <= 3)%nat
    /\ stops_line_count st' = Some (saved res).
Proof.
  assert (H : exists res st',
             import_stops (RT := Ref.runtime) Sample.two_row_store
               [Sample.valid_stop; Sample.polar_stop; Sample.valid_stop_2] "append"
             = (inr res, st'))
    by (eexists; eexists; vm_compute; reflexivity).
  destruct H as (res & st' & H). exists res, st'. split; [exact H|].
  pose proof (import_stops_counts (RT := Ref.runtime) _ _ _ _ _ H)
    as (H1 & H2 & _ & H4 & _).
  rewrite H1 in H2. split; [exact H1|]. split; [exact H2|exact H4].
Defined.

(** ** The stop id as the key of the written table *)

Section KeyFacts.
Context {F : Type} {RT : PyRuntime F}.

Lemma dict_set_keys {V : Type} (d : list (string * V)) (k : string) (v : V) :
  map fst (dict_set d k v)
  = if decide (k ∈ map fst d) then map fst d else map fst d ++ [k].
Proof.
  induction d as [|[k0 v0] d IH]; cbn [dict_set map fst].
  - destruct (decide (k ∈ [])) as [H|_]; [inversion H|reflexivity].
  - destruct (String.eqb_spec k k0) as [-> | Hne]; cbn [map fst].
    + destruct (decide (k0 ∈ k0 :: map fst d)) as [_|H]; [reflexivity|].
      exfalso. apply H. left.
    + rewrite IH. destruct (decide (k ∈ map fst d)) as [Hin|Hnin];
        destruct (decide (k ∈ k0 :: map fst d)) as [Hin'|Hnin']; try reflexivity.
      * exfalso. apply Hnin'. right. exact Hin.
      * apply elem_of_cons in Hin' as [H | H]; contradiction.
Qed.

Lemma dict_set_elem {V : Type} (d : list (string * V)) (k : string) (v : V)
    (kv : string * V) :
  kv ∈ dict_set d k v -> kv = (k, v) \/ kv ∈ d.
Proof.
  induction d as [|[k0 v0] d IH]; simpl.
  - intros H. apply list_elem_of_singleton in H. left. exact H.
  - destruct (String.eqb k k0).
    + intros H. apply elem_of_cons in H as [H | H]; [left; exact H|].
      right. right. exact H.
    + intros H. apply elem_of_cons in H as [H | H]; [right; subst kv; left|].
      destruct (IH H) as [? | ?]; [left; assumption|right; right; assumption].
Qed.

Lemma keyed_by_id_set (d : list (string * row F)) (k : string) (r : row F) :
  keyed_by_id d -> written_cell r "stop_id" = k -> nonempty k = true ->
  keyed_by_id (dict_set d k r).
Proof.
  intros [Hnd Hall] Hk Hne. split.
  - rewrite dict_set_keys. destruct (decide (k ∈ map fst d)); [exact Hnd|].
    apply NoDup_app. split; [exact Hnd|]. split.
    + intros x Hx Hx'. apply list_elem_of_singleton in Hx'. subst x. contradiction.
    + apply NoDup_singleton.
  - intros k' r' H. apply dict_set_elem in H as [H | H].
    + injection H as -> ->. split; assumption.
    + apply Hall, H.
Qed.

Lemma keyed_by_id_store_all (kvs d : list (string * row F)) :
  keyed_by_id d ->
  (forall k r, (k, r) ∈ kvs -> written_cell r "stop_id" = k /\ nonempty k = true) ->
  keyed_by_id (store_all d kvs).
Proof.
  revert d. induction kvs as [|[k r] kvs IH]; intros d Hd Hkvs; [exact Hd|].
  unfold store_all. simpl. apply IH.
  - destruct (Hkvs k r) as [? ?]; [left|]. apply keyed_by_id_set; assumption.
  - intros k' r' H. apply Hkvs. right. exact H.
Qed.

Lemma read_row_texts (header cells : list string) (k : string) :
  dict_get (read_row (F := F) header cells) k = PyNone
  \/ exists s, dict_get (read_row (F := F) header cells) k = PyStr s.
Proof.
  unfold read_row.
  assert (Hgen : forall (l : list (string * string)) (d : row F),
             (dict_find d k = None \/ exists s, dict_find d k = Some (PyStr s)) ->
             let d' := foldl (fun d kc => dict_set d kc.1 (PyStr kc.2)) d l in
             dict_find d' k = None \/ exists s, dict_find d' k = Some (PyStr s)).
  { induction l as [|[k0 c0] l IH]; intros d Hd; [exact Hd|].
    simpl. apply IH. rewrite dict_find_set.
    destruct (String.eqb k k0); [right; eexists; reflexivity|exact Hd]. }
  rewrite dict_get_find.
  destruct (Hgen (zip header cells) [] (or_introl eq_refl)) as [-> | [s ->]];
    [left; reflexivity|right; exists s; reflexivity].
Qed.

Lemma read_csv_texts (st : store) (path : string) (r : row F) (k : string) :
  r ∈ _read_csv st path ->
  dict_get r k = PyNone \/ exists s, dict_get r k = PyStr s.
Proof.
  unfold _read_csv. destruct (st !! path) as [[header body]|]; [|intros H; inversion H].
  intros H. apply list_elem_of_In, in_map_iff in H as (cells & <- & _).
  apply read_row_texts.
Qed.

Lemma dict_get_default_present (r : row F) (k : string) (dflt : pyval F) :
  dict_get r k <> PyNone -> dict_get_default r k dflt = dict_get r k.
Proof.
  induction r as [|[k0 v0] r IH]; simpl; [congruence|].
  destruct (String.eqb k k0); [reflexivity|exact IH].
Qed.

Lemma keyed_rows_by_id (st : store) (path : string) (existing : list (row F)) :
  (forall r, r ∈ existing -> r ∈ _read_csv st path) ->
  forall k r, (k, r) ∈ keyed_rows existing ->
              written_cell r "stop_id" = k /\ nonempty k = true.
Proof.
  intros Hsub k r H. unfold keyed_rows in H.
  apply list_elem_of_omap in H as (r0 & Hr0 & H).
  destruct (truthy (dict_get r0 "stop_id")) eqn:Ht; [|discriminate].
  injection H as <- <-.
  destruct (read_csv_texts st path r0 "stop_id" (Hsub r0 Hr0)) as [E | [s E]].
  - rewrite E in Ht. discriminate.
  - unfold written_cell. rewrite dict_get_default_present by (rewrite E; discriminate).
    rewrite E in *. simpl in *. split; [reflexivity|exact Ht].
Qed.

Lemma valid_items (data : list (pyval F)) (i : nat) (k : string) (r : row F) :
  (k, r) ∈ valid_of (item_outcomes i data) ->
  exists j obj, import_item j obj = inr (k, r).
Proof.
  revert i. induction data as [|obj data IH]; intros i H; [inversion H|].
  unfold valid_of in H. simpl in H.
  destruct (import_item i obj) as [e|kv] eqn:E.
  - apply (IH (S i)). exact H.
  - apply elem_of_cons in H as [H | H].
    + subst kv. exists i, obj. exact E.
    + apply (IH (S i)). exact H.
Qed.

Lemma import_base_read (st : store) (mode : string) (r : row F) :
  r ∈ import_base st mode -> r ∈ _read_csv st stops_path.
Proof.
  unfold import_base. destruct (String.eqb mode "append"); [trivial|].
  intros H. inversion H.
Qed.
End KeyFacts.

Lemma stop_id_in_import_fieldnames {F : Type} {RT : PyRuntime F} {SO : SetOrder F}
    (existing : list (row F)) :
  "stop_id" ∈ import_fieldnames BUS_STOPS_FIELDS existing.
Proof.
  unfold import_fieldnames. destruct existing as [|r0 existing]; [left|].
  apply set_order_elem, elem_of_app. left. left.
Qed.

Lemma final_keep_keyed {F : Type} {RT : PyRuntime F}
    (st : store) (mode : string) (data : list (pyval F)) :
  keyed_by_id (final_keep (import_base st mode) data).
Proof.
  unfold final_keep. rewrite initial_keep_store_all.
  apply keyed_by_id_store_all; [apply keyed_by_id_store_all|].
  - split; [apply NoDup_nil_2|]. intros k r H. inversion H.
  - apply (keyed_rows_by_id st stops_path). intros r. apply import_base_read.
  - intros k r H. apply valid_items in H as (j & obj & H).
    pose proof H as H'. unfold import_item in H'.
    destruct obj as [| | | | | | |o]; try discriminate.
    destruct (validate_stop_id _) as [[c d]|sid'] eqn:Hsid; [discriminate|].
    destruct (validate_name _ _) as [[c d]|name]; [discriminate|].
    destruct (is_none _ || is_none _); [discriminate|].
    destruct (validate_coordinates _ _) as [[c d]|[lat lon]]; [discriminate|].
    injection H' as <- <-.
    apply validate_stop_id_spec in Hsid as (_ & _ & Hlen & _).
    split; [reflexivity|]. apply nonempty_length. lia.
Qed.

(** X12: after a successful import, in either mode, the stops file has no
    two rows with the same [stop_id], and no row with an empty one. *)
Theorem import_stops_unique_ids {F : Type} {RT : PyRuntime F} {SO : SetOrder F}
    (st st' : store) (data : list (pyval F)) (mode : string) (res : import_result) :
  import_stops st data mode = (inr res, st') ->
  NoDup (map id_text (_read_csv (F := F) st' stops_path))
  /\ Forall (fun r => nonempty (id_text r) = true) (_read_csv (F := F) st' stops_path).
Proof.
  intros H.
  apply import_stops_cases in H as [(e' & Hout & _) | (_ & _ & _ & ->)];
    [discriminate|].
  rewrite read_after_write.
  pose proof (final_keep_keyed st mode data) as [Hnd Hall].
  set (keep := final_keep (import_base st mode) data) in *.
  set (fields := import_fieldnames BUS_STOPS_FIELDS (import_base st mode)).
  assert (Hid : forall k r, (k, r) ∈ keep ->
                  id_text (read_row fields (map (written_cell r) fields)) = k).
  { intros k r Hkr. unfold id_text.
    rewrite read_written_row, decide_True by apply stop_id_in_import_fieldnames.
    simpl. apply Hall, Hkr. }
  assert (Hmap : map id_text
                   (map (fun r => read_row fields (map (written_cell r) fields))
                        (map snd keep))
                 = map fst keep).
  { rewrite !map_map. apply map_ext_in. intros [k r] Hkr. simpl.
    apply Hid, list_elem_of_In, Hkr. }
  split.
  - rewrite Hmap. exact Hnd.
  - apply Forall_forall. intros r' Hr'.
    apply list_elem_of_In in Hr'. rewrite map_map in Hr'.
    apply in_map_iff in Hr' as ([k r] & <- & Hkr). simpl.
    apply list_elem_of_In in Hkr. rewrite (Hid k r Hkr). apply (Hall k r Hkr).
Qed.

Lemma import_stops_unique_ids_witness :
  exists res st',
    import_stops (RT := Ref.runtime) Sample.two_row_store
      [Sample.valid_stop; Sample.valid_stop] "append" = (inr res, st')
    /\ NoDup (map (id_text (RT := Ref.runtime)) (_read_csv (F := Q) st' stops_path)).
Proof.
  assert (H : exists res st',
             import_stops (RT := Ref.runtime) Sample.two_row_store
               [Sample.valid_stop; Sample.valid_stop] "append" = (inr res, st'))
    by (eexists; eexists; vm_compute; reflexivity).
  destruct H as (res & st' & H). exists res, st'. split; [exact H|].
  exact (proj1 (import_stops_unique_ids (RT := Ref.runtime) (SO := ref_set_order)
                  _ _ _ _ _ H)).
Defined.

(** ** The stop lookup and the features of [routes_geojson] *)

Section LookupFacts.
Context {F : Type} {RT : PyRuntime F}.

Lemma add_stop_coord_lookup (m : gmap string (F * F)) (s : row F) (sid : string) :
  add_stop_coord m s !! sid
  = match add_stop_coord ∅ s !! sid with
    | Some p => Some p
    | None => m !! sid
    end.
Proof.
  unfold add_stop_coord.
  destruct (py_float (py_or (dict_get s "latitude") (dict_get s "stop_lat")))
    as [lat|]; [|rewrite lookup_empty; reflexivity].
  destruct (py_float (py_or (dict_get s "longitude") (dict_get s "stop_lon")))
    as [lon|]; [|rewrite lookup_empty; reflexivity].
  destruct (nonempty (stop_id_of s)); [|rewrite lookup_empty; reflexivity].
  destruct (decide (stop_id_of s = sid)) as [-> | Hne].
  - rewrite !lookup_insert_eq. reflexivity.
  - rewrite !lookup_insert_ne by exact Hne. rewrite lookup_empty. reflexivity.
Qed.

Lemma add_stop_coord_gives (s : row F) (sid : string) (p : F * F) :
  add_stop_coord ∅ s !! sid = Some p <-> row_gives s sid p.
Proof.
  unfold add_stop_coord, row_gives.
  destruct (py_float (py_or (dict_get s "latitude") (dict_get s "stop_lat")))
    as [lat|].
  2:{ rewrite lookup_empty. split; [discriminate|]. intros (_ & _ & H & _). discriminate. }
  destruct (py_float (py_or (dict_get s "longitude") (dict_get s "stop_lon")))
    as [lon|].
  2:{ rewrite lookup_empty. split; [discriminate|]. intros (_ & _ & _ & H). discriminate. }
  destruct (nonempty (stop_id_of s)) eqn:Hne.
  - destruct (decide (stop_id_of s = sid)) as [<- | Hneq].
    + rewrite lookup_insert_eq. destruct p as [a b]. simpl. split.
      * intros H. injection H as <- <-. repeat split. exact Hne.
      * intros (_ & _ & H1 & H2). injection H1 as <-. injection H2 as <-. reflexivity.
    + rewrite lookup_insert_ne by exact Hneq. rewrite lookup_empty.
      split; [discriminate|]. intros (H & _). contradiction.
  - rewrite lookup_empty. split; [discriminate|].
    intros (<- & H & _). congruence.
Qed.

Lemma build_stop_lookup_snoc (rows : list (row F)) (s : row F) :
  build_stop_lookup (rows ++ [s]) = add_stop_coord (build_stop_lookup rows) s.
Proof. unfold build_stop_lookup. rewrite foldl_app. reflexivity. Qed.
End LookupFacts.

(** X13: the stop lookup of [routes_geojson] holds for an id the
    coordinates given by the last row of the stops file that gives it any:
    a row whose coordinates do not convert, or whose id is empty, is
    skipped, and a later row for the same id replaces an earlier one. *)
Theorem build_stop_lookup_last {F : Type} {RT : PyRuntime F}
    (rows : list (row F)) (sid : string) (p : F * F) :
  build_stop_lookup rows !! sid = Some p
  <-> exists pre s post,
        rows = pre ++ s :: post /\ row_gives s sid p
        /\ forall s' q, s' ∈ post -> ~ row_gives s' sid q.
Proof.
  induction rows as [|s rows IH] using rev_ind.
  - unfold build_stop_lookup. simpl. rewrite lookup_empty. split; [discriminate|].
    intros (pre & s & post & H & _). destruct pre; discriminate.
  - rewrite build_stop_lookup_snoc, add_stop_coord_lookup.
    destruct (add_stop_coord ∅ s !! sid) as [q|] eqn:E.
    + apply add_stop_coord_gives in E. split.
      * intros H. injection H as <-. exists rows, s, []. split; [reflexivity|].
        split; [exact E|]. intros s' q' H. inversion H.
      * intros (pre & s0 & post & Heq & Hg & Hlast).
        destruct post as [|s1 post _] using rev_ind.
        -- apply app_inj_tail in Heq as [_ <-].
           destruct E as (_ & _ & E1 & E2), Hg as (_ & _ & G1 & G2).
           rewrite E1 in G1. rewrite E2 in G2.
           destruct p, q. simpl in *. congruence.
        -- rewrite app_comm_cons, app_assoc in Heq.
           apply app_inj_tail in Heq as [_ <-].
           exfalso. apply (Hlast s q); [|exact E].
           apply elem_of_app. right. left.
    + rewrite IH. split.
      * intros (pre & s0 & post & -> & Hg & Hlast).
        exists pre, s0, (post ++ [s]). split; [|split; [exact Hg|]].
        -- rewrite <- app_assoc. reflexivity.
        -- intros s' q H. apply elem_of_app in H as [H | H]; [apply Hlast, H|].
           apply list_elem_of_singleton in H. subst s'.
           intros Hg'. apply add_stop_coord_gives in Hg'. congruence.
      * intros (pre & s0 & post & Heq & Hg & Hlast).
        destruct post as [|s1 post _] using rev_ind.
        -- apply app_inj_tail in Heq as [_ <-].
           apply add_stop_coord_gives in Hg. congruence.
        -- rewrite app_comm_cons, app_assoc in Heq.
           apply app_inj_tail in Heq as [-> <-].
           exists pre, s0, post. split; [reflexivity|]. split; [exact Hg|].
           intros s' q H. apply Hlast, elem_of_app. left. exact H.
Qed.

Lemma build_stop_lookup_last_witness :
  build_stop_lookup (RT := Ref.runtime)
    (Sample.stops_rows
     ++ [[("stop_id", PyStr "S1"); ("latitude", PyStr "13.5");
          ("longitude", PyStr "77.5")]]) !! "S1"
  = Some ((27 # 2)%Q, (155 # 2)%Q).
Proof.
  apply (proj2 (build_stop_lookup_last (RT := Ref.runtime) _ "S1"
                  ((27 # 2)%Q, (155 # 2)%Q))).
  exists Sample.stops_rows,
    [("stop_id", PyStr "S1"); ("latitude", PyStr "13.5"); ("longitude", PyStr "77.5")],
    [].
  split; [reflexivity|]. split.
  - unfold row_gives. vm_compute. repeat split.
  - intros s' q H. inversion H.
Defined.

Section FeatureFacts.
Context {F : Type} {RT : PyRuntime F}.

Lemma py_or_truthy (a b : pyval F) : truthy b = true -> truthy (py_or a b) = true.
Proof. unfold py_or. intros Hb. destruct (truthy a) eqn:Ha; assumption. Qed.

Lemma route_name_usable (r : row F) : truthy (route_name_of r) = true.
Proof. unfold route_name_of. apply py_or_truthy. reflexivity. Qed.
End FeatureFacts.

(** X14: when [routes_geojson] answers, it has one feature for every row
    of the routes file, in the order of the rows, carrying the row's
    [route_id]; the name and the colour of every feature are non-empty,
    whatever the row holds. *)
Theorem routes_geojson_features {F : Type} {RT : PyRuntime F}
    (rows stops_rows : list (row F)) (fs : list feature) :
  routes_geojson rows stops_rows = Some fs ->
  length fs = length rows
  /\ forall i r, rows !! i = Some r ->
       exists f, fs !! i = Some f
                 /\ ft_route_id f = dict_get r "route_id"
                 /\ truthy (ft_route_name f) = true
                 /\ truthy (ft_color f) = true.
Proof.
  unfold routes_geojson. cbv zeta. intros H.
  apply mapM_Some in H. split.
  - symmetry. eapply Forall2_length, H.
  - intros i r Hi.
    destruct (Forall2_lookup_l _ _ _ _ _ H Hi) as (f & Hf & Hrf).
    exists f. split; [exact Hf|].
    unfold route_feature in Hrf.
    destruct (derive_line r stops_rows _ _) as [line|]; [|discriminate].
    injection Hrf as <-. simpl.
    split; [reflexivity|]. split; [apply route_name_usable|].
    apply py_or_truthy. reflexivity.
Qed.

Lemma routes_geojson_features_witness :
  exists fs,
    routes_geojson (RT := Ref.runtime)
      [Sample.route_row; [("route_id", PyStr "R9")]] Sample.stops_rows = Some fs
    /\ length fs = 2%nat.
Proof.
  assert (H : exists fs,
             routes_geojson (RT := Ref.runtime)
               [Sample.route_row; [("route_id", PyStr "R9")]] Sample.stops_rows
             = Some fs) by (eexists; vm_compute; reflexivity).
  destruct H as [fs H]. exists fs. split; [exact H|].
  exact (proj1 (routes_geojson_features (RT := Ref.runtime) _ _ _ H)).
Defined.

(** ** Runs of [_write_csv]: progress and termination *)

Section WriteRunFacts.
Import WriteLock WriteRun.
Variable jobs : gmap nat job.
Variable fs0 : gmap string (list string).

Lemma run_invariants_initial :
  pc_bounded jobs (initial jobs fs0) /\ lock_held (initial jobs fs0).
Proof.
  split.
  - intros t p. unfold initial. simpl. rewrite lookup_fmap.
    destruct (jobs !! t) as [j|]; simpl; [|discriminate].
    intros [= <-]. exists j. split; [reflexivity|exact I].
  - intros t. unfold initial. simpl. discriminate.
Qed.

(** A step of [t] that moves it from [p] to [p'] and keeps the lock. *)
Lemma run_invariants_move (s : state) (t : nat) (j : job) (p p' : pc)
    (lk : option nat) (files : gmap string (list string)) :
  pc_bounded jobs s -> lock_held s ->
  jobs !! t = Some j -> pcs s !! t = Some p ->
  match p' with
  | Writing k => (k <= length (job_lines j))%nat
  | Replacing a => (a < max_retries)%nat
  | _ => True
  end ->
  (lk = lock s /\ (in_critical p = true -> in_critical p' = true)
   \/ lk = Some t /\ in_critical p' = true
   \/ lk = None) ->
  pc_bounded jobs {| lock := lk; fs := files; pcs := set_pc s t p' |}
  /\ lock_held {| lock := lk; fs := files; pcs := set_pc s t p' |}.
Proof.
  intros Hb Hl Hj Hp Hp' Hlk. split.
  - intros t' q. unfold set_pc. simpl.
    destruct (decide (t = t')) as [<- | Hne].
    + rewrite lookup_insert_eq. intros [= <-]. exists j. split; [exact Hj|exact Hp'].
    + rewrite lookup_insert_ne by exact Hne. apply Hb.
  - intros h. unfold set_pc. simpl. intros Hh.
    destruct Hlk as [[-> Hc] | [[-> Hc] | ->]]; [| |discriminate].
    + destruct (Hl h Hh) as (q & Hq & Hcq).
      destruct (decide (t = h)) as [<- | Hne].
      * rewrite lookup_insert_eq. exists p'. split; [reflexivity|].
        apply Hc. congruence.
      * rewrite lookup_insert_ne by exact Hne. exists q. split; assumption.
    + injection Hh as <-. rewrite lookup_insert_eq. exists p'. split; [reflexivity|exact Hc].
Qed.

Lemma run_invariants_step (s s' : state) (t : nat) :
  pc_bounded jobs s /\ lock_held s -> step jobs t s s' ->
  pc_bounded jobs s' /\ lock_held s'.
Proof.
  intros [Hb Hl] Hstep.
  destruct Hstep as [j Hj Hp Hlock | j Hj Hp | j k line Hj Hp Hline | j k Hj Hp Hk
                    | j a content Hj Hp Hc | j a Hj Hp Ha | j a Hj Hp Ha | j ok Hj Hp];
    (eapply run_invariants_move; [exact Hb|exact Hl|exact Hj|exact Hp| |]).
  - exact I.
  - right. left. split; reflexivity.
  - simpl. lia.
  - left. split; reflexivity.
  - apply lookup_lt_Some in Hline. simpl. lia.
  - left. split; reflexivity.
  - unfold max_retries. simpl. lia.
  - left. split; reflexivity.
  - exact I.
  - left. split; reflexivity.
  - destruct (Hb t _ Hp) as (j' & Hj' & Hlt). simpl. unfold max_retries in *. lia.
  - left. split; reflexivity.
  - exact I.
  - left. split; reflexivity.
  - exact I.
  - right. right. reflexivity.
Qed.

Lemma run_invariants_reachable (s : state) :
  reachable jobs fs0 s -> pc_bounded jobs s /\ lock_held s.
Proof.
  induction 1 as [|s t s' _ IH Hstep].
  - apply run_invariants_initial.
  - eapply run_invariants_step; eassumption.
Qed.

(** A thread inside the [with] block can always move. *)
Lemma critical_can_step (s : state) (t : nat) (p : pc) :
  pc_bounded jobs s -> pcs s !! t = Some p -> in_critical p = true ->
  exists s', step jobs t s s'.
Proof.
  intros Hb Hp Hc. destruct (Hb t p Hp) as (j & Hj & Hbound).
  destruct p as [| |k|a|ok|ok]; try discriminate.
  - eexists. eapply step_open; eassumption.
  - destruct (decide (k = length (job_lines j))) as [Hk | Hk].
    + eexists. eapply step_close; eassumption.
    + destruct (lookup_lt_is_Some_2 (job_lines j) k) as [line Hline]; [lia|].
      eexists. eapply step_write; eassumption.
  - destruct (decide (S a = max_retries)) as [Ha | Ha].
    + eexists. eapply step_replace_raise; eassumption.
    + eexists. eapply step_replace_retry; eassumption.
  - eexists. eapply step_release; eassumption.
Qed.

Lemma step_remaining (s s' : state) (t : nat) :
  pc_bounded jobs s -> step jobs t s s' ->
  exists j p p',
    jobs !! t = Some j /\ pcs s !! t = Some p /\ pcs s' !! t = Some p'
    /\ (remaining j p' < remaining j p)%nat
    /\ forall t', t' <> t -> pcs s' !! t' = pcs s !! t'.
Proof.
  intros Hb Hstep.
  destruct Hstep as [j Hj Hp Hlock | j Hj Hp | j k line Hj Hp Hline | j k Hj Hp Hk
                    | j a content Hj Hp Hc | j a Hj Hp Ha | j a Hj Hp Ha | j ok Hj Hp];
    (exists j; eexists; eexists; split; [exact Hj|]; split; [exact Hp|];
     unfold set_pc; cbn [pcs]; rewrite lookup_insert_eq; split; [reflexivity|];
     split; [|intros t' Hne; rewrite lookup_insert_ne by congruence; reflexivity]);
    destruct (Hb t _ Hp) as (j' & Hj' & Hbound);
    cbn [remaining]; unfold max_retries in *; cbn beta iota in Hbound.
  - lia.
  - lia.
  - apply lookup_lt_Some in Hline. lia.
  - lia.
  - lia.
  - lia.
  - lia.
  - lia.
Qed.
End WriteRunFacts.

(** X15: the writers never deadlock: in a reachable state either every
    call has finished, and then the lock is free, or some thread can take
    a step; a thread that holds the lock can always take one. *)
Theorem write_lock_progress (jobs : gmap nat WriteLock.job)
    (fs0 : gmap string (list string)) (s : WriteLock.state) :
  WriteLock.reachable jobs fs0 s ->
  (WriteRun.all_done s /\ WriteLock.lock s = None
   \/ exists t s', WriteLock.step jobs t s s')
  /\ (forall t, WriteLock.lock s = Some t -> exists s', WriteLock.step jobs t s s').
Proof.
  intros Hr. apply run_invariants_reachable in Hr as [Hb Hl].
  assert (Hholder : forall t, WriteLock.lock s = Some t ->
                              exists s', WriteLock.step jobs t s s').
  { intros t Ht. destruct (Hl t Ht) as (p & Hp & Hc).
    eapply critical_can_step; eassumption. }
  split; [|exact Hholder].
  destruct (WriteLock.lock s) as [h|] eqn:Hlock.
  - right. exists h. apply Hholder. reflexivity.
  - destruct (decide (WriteRun.all_done s)) as [Hall | Hnot].
    + left. split; [exact Hall|reflexivity].
    + right. apply map_not_Forall in Hnot as (t & p & Hp & Hnd); [|apply _].
      destruct (Hb t p Hp) as (j & Hj & _).
      destruct p as [| |k|a|ok|ok].
      * exists t. eexists. eapply WriteLock.step_acquire; eassumption.
      * eapply ex_intro. eapply critical_can_step; [exact Hb|exact Hp|reflexivity].
      * eapply ex_intro. eapply critical_can_step; [exact Hb|exact Hp|reflexivity].
      * eapply ex_intro. eapply critical_can_step; [exact Hb|exact Hp|reflexivity].
      * eapply ex_intro. eapply critical_can_step; [exact Hb|exact Hp|reflexivity].
      * exfalso. apply Hnd. reflexivity.
Qed.

Lemma write_lock_progress_witness :
  exists s', WriteLock.step WriteLock.two_writers 1%nat WriteLock.first_holds s'.
Proof.
  apply (proj2 (write_lock_progress WriteLock.two_writers ∅ WriteLock.first_holds
                  first_holds_reachable) 1%nat).
  reflexivity.
Defined.

(** X16: every call of [_write_csv] ends: in any run, a thread whose call
    writes [n] lines takes at most [n + 7] steps, three attempts of
    [os.replace] included. *)
Theorem write_csv_bounded_steps (jobs : gmap nat WriteLock.job)
    (fs0 : gmap string (list string)) (ts : list nat) (s : WriteLock.state)
    (t : nat) (j : WriteLock.job) :
  WriteRun.trace jobs fs0 ts s -> jobs !! t = Some j ->
  exists p, WriteLock.pcs s !! t = Some p
            /\ (count_occ Nat.eq_dec ts t + WriteRun.remaining j p
                <= length (WriteLock.job_lines j) + 7)%nat.
Proof.
  intros Htr Hj.
  assert (Hreach : forall ts s, WriteRun.trace jobs fs0 ts s ->
                                WriteLock.reachable jobs fs0 s).
  { induction 1; [constructor|econstructor; eassumption]. }
  induction Htr as [|ts s t0 s' Htr IH Hstep].
  - exists WriteLock.Waiting. unfold WriteLock.initial. simpl.
    rewrite lookup_fmap, Hj. split; [reflexivity|]. simpl. lia.
  - destruct IH as (p & Hp & Hle).
    apply Hreach, run_invariants_reachable in Htr as [Hb _].
    destruct (step_remaining jobs s s' t0 Hb Hstep)
      as (j0 & p0 & p0' & Hj0 & Hp0 & Hp0' & Hlt & Hothers).
    rewrite count_occ_app. simpl.
    destruct (Nat.eq_dec t0 t) as [-> | Hne].
    + exists p0'. split; [exact Hp0'|].
      assert (j0 = j) by congruence. assert (p0 = p) by congruence. subst. lia.
    + exists p. split; [rewrite Hothers by congruence; exact Hp|]. lia.
Qed.

Lemma write_csv_bounded_steps_witness :
  exists p, WriteLock.pcs (WriteLock.initial WriteLock.two_writers ∅) !! 1%nat = Some p
            /\ (0 + WriteRun.remaining
                      {| WriteLock.job_path := "BusStops.csv";
                         WriteLock.job_lines := ["stop_id,name"; "S1,Central"] |} p
                <= 2 + 7)%nat.
Proof.
  apply (write_csv_bounded_steps WriteLock.two_writers ∅ []
           (WriteLock.initial WriteLock.two_writers ∅) 1%nat
           {| WriteLock.job_path := "BusStops.csv";
              WriteLock.job_lines := ["stop_id,name"; "S1,Central"] |}).
  - constructor.
  - reflexivity.
Defined.

(** ** [delete_stop] *)

Section DeleteFacts.
Context {F : Type} {RT : PyRuntime F}.

Lemma written_cell_none (r : row F) (k : string) :
  dict_get r k = PyNone -> written_cell r k = EmptyString.
Proof.
  unfold written_cell. induction r as [|[k0 v0] r IH]; simpl; [reflexivity|].
  destruct (String.eqb k k0); [intros ->; reflexivity|exact IH].
Qed.

Lemma written_cell_text (r : row F) (k s : string) :
  dict_get r k = PyStr s -> written_cell r k = s.
Proof.
  intros H. unfold written_cell.
  rewrite dict_get_default_present by (rewrite H; discriminate).
  rewrite H. reflexivity.
Qed.

Lemma dict_get_absent (r : row F) (k : string) :
  k ∉ dict_keys r -> dict_get r k = PyNone.
Proof.
  unfold dict_keys. induction r as [|[k0 v0] r IH]; simpl; [reflexivity|].
  intros H. destruct (String.eqb_spec k k0) as [-> | Hne].
  - exfalso. apply H. left.
  - apply IH. intros Hin. apply H. right. exact Hin.
Qed.

Lemma filter_keeps_all {A : Type} (P : A -> Prop) `{forall x, Decision (P x)}
    (l : list A) :
  Forall P l -> filter P l = l.
Proof.
  induction 1 as [|x l Hx _ IH]; [reflexivity|].
  rewrite filter_cons_True by exact Hx. rewrite IH. reflexivity.
Qed.

Lemma filter_shorter {A : Type} (P : A -> Prop) `{forall x, Decision (P x)}
    (l : list A) :
  length (filter P l) <> length l -> (length (filter P l) < length l)%nat.
Proof. pose proof (length_filter P l). lia. Qed.
End DeleteFacts.

(** X17: a successful [delete_stop] for a non-empty id leaves fewer rows,
    none of which has that id, and a second [delete_stop] for the same id
    is answered with status 404. *)
Theorem delete_stop_removes {F : Type} {RT : PyRuntime F} {SO : SetOrder F}
    (st st' : store) (stop_id : string) :
  delete_stop (F := F) st stop_id = inr st' -> stop_id <> EmptyString ->
  (length (_read_csv (F := F) st' stops_path)
   < length (_read_csv (F := F) st stops_path))%nat
  /\ Forall (fun r => id_text r <> stop_id) (_read_csv (F := F) st' stops_path)
  /\ exists detail,
       delete_stop (F := F) st' stop_id = inl (HTTPException 404 detail).
Proof.
  intros H Hid. unfold delete_stop in H.
  remember (_read_csv (F := F) st stops_path) as rows eqn:Erows.
  destruct rows as [|r0 rows']; [discriminate|].
  cbv beta iota zeta in H.
  remember (r0 :: rows') as rows eqn:Er.
  set (new_rows := filter (fun r => String.eqb (py_str (dict_get r "stop_id")) stop_id
                                    = false) rows) in *.
  destruct (Nat.eqb_spec (length new_rows) (length rows)) as [|Hlen]; [discriminate|].
  injection H as <-.
  set (fields := existing_fields rows).
  assert (Hrows : forall r, r ∈ new_rows -> r ∈ rows /\ id_text r <> stop_id).
  { intros r Hr. apply list_elem_of_filter in Hr as [Hne Hr]. split; [exact Hr|].
    apply String.eqb_neq, Hne. }
  assert (Hback : forall r, r ∈ new_rows ->
                   id_text (read_row fields (map (written_cell r) fields)) <> stop_id).
  { intros r Hr. destruct (Hrows r Hr) as [Hin Hne]. unfold id_text in *.
    rewrite read_written_row. destruct (decide ("stop_id" ∈ fields)) as [Hf|Hf].
    - assert (Hread : r ∈ _read_csv (F := F) st stops_path) by (rewrite <- Erows; exact Hin).
      destruct (read_csv_texts st stops_path r "stop_id" Hread) as [E | [s E]].
      + rewrite (written_cell_none r "stop_id" E). simpl. congruence.
      + rewrite (written_cell_text r "stop_id" s E). rewrite E in Hne. exact Hne.
    - rewrite dict_get_absent in Hne; [exact Hne|].
      intros Hk. apply Hf. apply (key_in_existing_fields rows r "stop_id" Hin Hk). }
  rewrite read_after_write. fold fields.
  set (rr := fun r : row F => read_row fields (map (written_cell r) fields)).
  assert (Hall : Forall (fun r => id_text r <> stop_id) (map rr new_rows)).
  { apply Forall_forall. intros r' Hr'.
    apply list_elem_of_In, in_map_iff in Hr' as (r & <- & Hr).
    apply Hback, list_elem_of_In, Hr. }
  split; [|split].
  - rewrite length_map. apply filter_shorter, Hlen.
  - exact Hall.
  - unfold delete_stop. rewrite read_after_write. fold rr.
    destruct (map rr new_rows) as [|r1 rest] eqn:E; [eexists; reflexivity|].
    rewrite <- E. rewrite filter_keeps_all.
    + rewrite Nat.eqb_refl. eexists. reflexivity.
    + rewrite E. eapply Forall_impl; [exact Hall|].
      intros r Hr. apply String.eqb_neq, Hr.
Qed.

Lemma delete_stop_removes_witness :
  exists st',
    delete_stop (RT := Ref.runtime) Sample.two_row_store "A1" = inr st'
    /\ (length (_read_csv (F := Q) st' stops_path) < 2)%nat.
Proof.
  assert (H : exists st', delete_stop (RT := Ref.runtime) Sample.two_row_store "A1"
                          = inr st') by (eexists; vm_compute; reflexivity).
  destruct H as [st' H]. exists st'. split; [exact H|].
  exact (proj1 (delete_stop_removes (RT := Ref.runtime) (SO := ref_set_order)
                  Sample.two_row_store st' "A1" H ltac:(discriminate))).
Defined.

(** ** [validate_color_hex] *)

Lemma hex_char_not_space (a : ascii) : is_hex_char a = true -> py_isspace a = false.
Proof. destruct a as [[] [] [] [] [] [] [] []]; vm_compute; congruence. Qed.

Lemma append_empty (s : string) : s +:+ EmptyString = s.
Proof.
  induction s as [|a s IH]; [reflexivity|].
  change (String a (s +:+ EmptyString) = String a s). rewrite IH. reflexivity.
Qed.

Lemma hex_run_split (n : nat) (s t : string) :
  hex_run n s = Some t ->
  exists pre, s = pre +:+ t /\ String.length pre = n
              /\ all_chars is_hex_char pre = true.
Proof.
  revert s. induction n as [|n IH]; intros s H; simpl in H.
  - injection H as <-. exists EmptyString. repeat split.
  - destruct s as [|a s]; [discriminate|].
    destruct (is_hex_char a) eqn:Ha; [|discriminate].
    destruct (IH s H) as (pre & -> & Hlen & Hall).
    exists (String a pre). simpl. rewrite Ha, Hall, Hlen. repeat split.
Qed.

Lemma hex_run_all (pre : string) :
  all_chars is_hex_char pre = true ->
  hex_run (String.length pre) pre = Some EmptyString.
Proof.
  induction pre as [|a pre IH]; simpl; [reflexivity|].
  intros H. apply andb_prop in H as [Ha Hp]. rewrite Ha. apply IH, Hp.
Qed.

(** A text that [rstrip] leaves alone does not end with a stripped
    character. *)
Lemma rstrip_by_fixed_last (f : ascii -> bool) (s : string) (c : ascii) :
  rstrip_by f (s +:+ String c EmptyString) = s +:+ String c EmptyString ->
  f c = false.
Proof.
  induction s as [|a s IH]; simpl.
  - destruct (f c); [discriminate|reflexivity].
  - destruct (rstrip_by f (s +:+ String c EmptyString)) as [|b r] eqn:E.
    + destruct (f a); [discriminate|]. intros H. injection H as H.
      destruct s; discriminate.
    + intros H. injection H as H. apply IH. exact H.
Qed.

Lemma rstrip_strip (s : string) : rstrip_by py_isspace (strip s) = strip s.
Proof. unfold strip, strip_by. apply rstrip_by_idem. Qed.

Lemma rstrip_hash (s : string) :
  rstrip_by py_isspace s = s ->
  rstrip_by py_isspace (String "#"%char s) = String "#"%char s.
Proof.
  intros H. simpl. rewrite H. destruct s; reflexivity.
Qed.

(** X18: what [validate_color_hex] returns is a hash sign followed by
    exactly six hexadecimal digits, the default blue for a falsy value,
    and it accepts what it returned unchanged. *)
Theorem validate_color_hex_result {F : Type} {RT : PyRuntime F}
    (v : pyval F) (c : string) :
  validate_color_hex v = inr c ->
  (exists h, c = String "#"%char h /\ String.length h = 6%nat
             /\ all_chars is_hex_char h = true)
  /\ (truthy v = false -> c = "#2563eb")
  /\ validate_color_hex (PyStr c) = inr c.
Proof.
  intros H.
  assert (Hshape : exists h, c = String "#"%char h /\ String.length h = 6%nat
                             /\ all_chars is_hex_char h = true).
  { unfold validate_color_hex in H.
    destruct (truthy v); simpl in H.
    2:{ injection H as <-. exists "2563eb". repeat split. }
    set (s := strip (py_str v)) in *.
    assert (Hfix : rstrip_by py_isspace (if starts_hash s then s else String "#"%char s)
                   = (if starts_hash s then s else String "#"%char s)).
    { destruct (starts_hash s); [apply rstrip_strip|apply rstrip_hash, rstrip_strip]. }
    destruct (color_regex_match _) eqn:Hm; [|discriminate]. simpl in H.
    injection H as <-.
    destruct (if starts_hash s then s else String "#"%char s) as [|h0 rest];
      [discriminate|].
    unfold color_regex_match in Hm. apply andb_prop in Hm as [Hh Hm].
    apply Ascii.eqb_eq in Hh. subst h0.
    destruct (hex_run 6 rest) as [t|] eqn:Hrun; [|discriminate].
    destruct (hex_run_split 6 rest t Hrun) as (pre & -> & Hlen & Hall).
    destruct t as [|b [|b' t']]; try discriminate.
    - exists pre. rewrite append_empty. repeat split; assumption.
    - apply Ascii.eqb_eq in Hm. subst b. exfalso.
      pose proof (rstrip_by_fixed_last py_isspace (String "#"%char pre) "010"%char Hfix)
        as Hsp.
      discriminate. }
  split; [exact Hshape|]. split.
  - intros Hv. unfold validate_color_hex in H. rewrite Hv in H. simpl in H.
    injection H as <-. reflexivity.
  - destruct Hshape as (h & -> & Hlen & Hall).
    unfold validate_color_hex. cbn [truthy nonempty negb py_str].
    assert (Hstrip : strip (String "#"%char h) = String "#"%char h).
    { unfold strip, strip_by. rewrite lstrip_by_fixed by reflexivity.
      apply rstrip_by_clean. simpl. revert Hall. apply all_chars_impl.
      intros a Ha. rewrite (hex_char_not_space a Ha). reflexivity. }
    rewrite Hstrip. cbn [starts_hash]. rewrite Ascii.eqb_refl.
    unfold color_regex_match. rewrite Ascii.eqb_refl.
    rewrite <- Hlen, (hex_run_all h Hall). reflexivity.
Qed.

Lemma validate_color_hex_result_witness :
  validate_color_hex (RT := Ref.runtime) (PyStr " ff00AA ") = inr "#ff00AA"
  /\ validate_color_hex (RT := Ref.runtime) (PyStr "#ff00AA") = inr "#ff00AA".
Proof.
  assert (H : validate_color_hex (RT := Ref.runtime) (PyStr " ff00AA ")
              = inr "#ff00AA") by (vm_compute; reflexivity).
  split; [exact H|].
  exact (proj2 (proj2 (validate_color_hex_result (RT := Ref.runtime) _ _ H))).
Defined.

(** ** [stops_geojson] *)

Lemma py_prefix_spec {A : Type} (limit : Z) (l : list A) :
  exists n, py_prefix limit l = take n l /\ (0 <= limit -> n = Z.to_nat limit).
Proof.
  unfold py_prefix. destruct (Z.leb_spec 0 limit).
  - eexists. split; [reflexivity|]. reflexivity.
  - eexists. split; [reflexivity|]. lia.
Qed.

Lemma length_omap_le {A B : Type} (f : A -> option B) (l : list A) :
  (length (omap f l) <= length l)%nat.
Proof.
  induction l as [|x l IH]; [reflexivity|].
  cbn [omap list_omap]. destruct (f x); cbn [length]; lia.
Qed.

(** X19: [stops_geojson] has at most [limit] features (for a limit that is
    not negative), each for a row of the stops file whose coordinates
    convert; the routes of a feature are sorted and are exactly the routes
    that some row of the two files declares for the text of its id, so
    that a stop whose id has blanks around it is listed without routes. *)
Theorem stops_geojson_features {F : Type} {RT : PyRuntime F}
    (stops_rows routes_rows : list (row F)) (limit : Z) :
  (length (stops_geojson stops_rows routes_rows limit) <= length stops_rows)%nat
  /\ (0 <= limit ->
      (length (stops_geojson stops_rows routes_rows limit) <= Z.to_nat limit)%nat)
  /\ forall f, f ∈ stops_geojson stops_rows routes_rows limit ->
       (exists r, r ∈ stops_rows /\ sf_stop_id f = dict_get r "stop_id"
                  /\ py_float (py_or (dict_get r "latitude") (dict_get r "stop_lat"))
                     = Some (sf_coordinates f).2
                  /\ py_float (py_or (dict_get r "longitude") (dict_get r "stop_lon"))
                     = Some (sf_coordinates f).1)
       /\ StronglySorted String.le (sf_routes f)
       /\ (forall rid, rid ∈ sf_routes f
                       <-> declared_edge stops_rows routes_rows
                                         (py_str (sf_stop_id f)) rid)
       /\ (strip (py_str (sf_stop_id f)) <> py_str (sf_stop_id f) ->
           sf_routes f = []).
Proof.
  unfold stops_geojson.
  destruct (py_prefix_spec limit stops_rows) as (n & -> & Hn).
  set (m := (_load_stop_route_mappings stops_rows routes_rows).1).
  pose proof (length_omap_le (stop_feature_of m) (take n stops_rows)) as Hlen.
  rewrite length_take in Hlen.
  split; [eapply Nat.le_trans; [exact Hlen|apply Nat.le_min_r]|].
  split; [intros Hl; rewrite <- (Hn Hl);
          eapply Nat.le_trans; [exact Hlen|apply Nat.le_min_l]|].
  intros f Hf. apply list_elem_of_omap in Hf as (r & Hr & Hf).
  assert (Hin : r ∈ stops_rows).
  { apply list_elem_of_lookup in Hr as [i Hi].
    apply lookup_take_Some in Hi as [Hi _].
    eapply list_elem_of_lookup_2, Hi. }
  unfold stop_feature_of in Hf.
  destruct (py_float (py_or (dict_get r "latitude") (dict_get r "stop_lat")))
    as [lat|] eqn:Elat; [|discriminate].
  destruct (py_float (py_or (dict_get r "longitude") (dict_get r "stop_lon")))
    as [lon|] eqn:Elon; [|discriminate].
  injection Hf as <-. cbn [sf_stop_id sf_routes sf_coordinates fst snd].
  assert (Hroutes : forall rid,
             rid ∈ sorted_ids (members m (py_str (dict_get r "stop_id")))
             <-> declared_edge stops_rows routes_rows
                               (py_str (dict_get r "stop_id")) rid).
  { intros rid. rewrite elem_of_sorted_ids. split.
    - apply (load_mappings_only_declared stops_rows routes_rows).
    - apply declared_edge_present. }
  split; [exists r; repeat split; assumption|].
  split; [apply sorted_ids_sorted|]. split; [exact Hroutes|].
  intros Hstrip.
  destruct (sorted_ids (members m (py_str (dict_get r "stop_id")))) as [|rid l] eqn:E;
    [reflexivity|].
  exfalso. apply Hstrip.
  assert (Hd : declared_edge stops_rows routes_rows
                 (py_str (dict_get r "stop_id")) rid) by (apply Hroutes; left).
  apply declared_edge_clean in Hd as (_ & Hs & _). exact Hs.
Qed.

Lemma stops_geojson_features_witness :
  (length (stops_geojson (RT := Ref.runtime) Sample.stops_rows [Sample.route_row] 2)
   <= 2)%nat.
Proof.
  apply (proj1 (proj2 (stops_geojson_features (RT := Ref.runtime)
                         Sample.stops_rows [Sample.route_row] 2))).
  lia.
Defined.
